(** * Offline-first TODO/notes backend: sync processor and conflict resolver

    A shallow embedding of the server side of the repository
    (OfflineBasedTODOapp/src/api/sync and src/api/conflicts): the zod
    request schema, the Prisma-backed repositories, [SyncService],
    [SyncController] and [ConflictsService.resolveConflict].

    The database is an explicit [Store]; every [async] method becomes a
    computation in a small state-and-exception monad in which a thrown
    error keeps the writes made before it (Prisma calls outside
    [$transaction] commit one by one) and [transaction] rolls them back. *)

From Stdlib Require Import ZArith Bool Ascii String.
From stdpp Require Import gmap strings list fin_maps sorting.

Local Open Scope string_scope.
Local Open Scope Z_scope.

(** ** JSON values

    Request bodies and [Json] columns.  A number is an integer ([JNum n])
    or not ([JFrac n d], the number [(2n+1) / 2^d], which every double
    that is no integer is); the code inspects numbers only as versions,
    where a number that is no integer equals no stored version and is
    refused by Prisma's [Int] columns and by [z.number().int()].  A
    string is the sequence of its UTF-8 bytes. *)

#[local] Set Warnings "-register-all".
Inductive json : Type :=
| JNull
| JBool (b : bool)
| JNum (n : Z)
| JFrac (n : Z) (d : positive)
| JStr (s : string)
| JArr (items : list json)
| JObj (fields : list (string * json)).
#[local] Set Warnings "register-all".

(** A JS object as the list of its properties.  The keys of a JS object
    are distinct; a property read takes the first binding of the key. *)
Definition object : Type := list (string * json).

Fixpoint get (k : string) (o : object) : option json :=
  match o with
  | [] => None
  | (k', v) :: o' => if String.eqb k k' then Some v else get k o'
  end.

(** [const { k, ...rest } = o]: the rest object has no property [k]. *)
Definition omit (k : string) (o : object) : object :=
  List.filter (fun kv => negb (String.eqb k (fst kv))) o.

(** [{ ...o, k: v }]: the literal after the spread wins. *)
Definition assign (k : string) (v : json) (o : object) : object :=
  (omit k o ++ [(k, v)])%list.

(** JS truthiness, as used by [!id]. *)
Definition truthy (v : json) : bool :=
  match v with
  | JNull => false
  | JBool b => b
  | JNum n => negb (n =? 0)
  | JFrac _ _ => true
  | JStr s => negb (String.eqb s "")
  | JArr _ | JObj _ => true
  end.

(** ** What the database holds

    PostgreSQL has no U+0000 in [text] and [jsonb] values: a query with
    such a string among its parameters is refused (error 22021, for
    [jsonb] 22P05) and the Prisma call throws.  U+0000 is the byte 0 of
    the UTF-8 text. *)
Fixpoint storable (s : string) : bool :=
  match s with
  | EmptyString => true
  | String c s' => negb (Ascii.eqb c "000"%char) && storable s'
  end.

Definition storableOption (o : option string) : bool :=
  match o with Some s => storable s | None => true end.

Fixpoint storableJson (v : json) : bool :=
  match v with
  | JStr s => storable s
  | JArr items => forallb storableJson items
  | JObj fields =>
      (fix storableFields (fields : list (string * json)) : bool :=
         match fields with
         | [] => true
         | (k, x) :: rest => storable k && storableJson x && storableFields rest
         end) fields
  | _ => true
  end.

Definition storableObject (o : object) : bool := storableJson (JObj o).

(** ** Enumerations of syncSchemas.ts and conflictsSchemas.ts *)

Inductive OperationAction := CREATE | UPDATE | DELETE.
Inductive TableName := Todos | Notes.
Inductive OperationStatus := APPLIED | CONFLICT | ERROR.
Inductive ConflictStatus := PENDING | RESOLVED | DISMISSED.
Inductive Resolution := CLIENT | SERVER | CUSTOM.

#[global] Instance TableName_eq_dec : EqDecision TableName.
Proof. solve_decision. Defined.

Definition OperationActionSchema (s : string) : option OperationAction :=
  if String.eqb s "CREATE" then Some CREATE
  else if String.eqb s "UPDATE" then Some UPDATE
  else if String.eqb s "DELETE" then Some DELETE
  else None.

Definition TableNameSchema (s : string) : option TableName :=
  if String.eqb s "todos" then Some Todos
  else if String.eqb s "notes" then Some Notes
  else None.

(** ** Rows of the database (prisma/migrations, types/models.ts) *)

(** A [DateTime] is kept as its canonical ISO text. *)
Definition DateTime : Type := string.

(** A row of [Todo] or [Note]; [status] is [None] exactly for notes, whose
    table has no such column. *)
Module Row.
Record t := mk {
  id : string;
  title : string;
  content : option string;
  status : option string;
  version : Z;
  createdAt : DateTime;
  updatedAt : DateTime;
  deletedAt : option DateTime
}.
End Row.

(** A row of [Conflict].  [serverData] is [null] or the snapshot of a row,
    [clientData] is the operation's [data] object. *)
Module Conflict.
Record t := mk {
  id : string;
  operationId : string;
  tableName : TableName;
  recordId : string;
  serverData : option object;
  clientData : object;
  serverVersion : Z;
  clientVersion : Z;
  status : ConflictStatus;
  resolvedAt : option DateTime;
  resolvedData : option object;
  createdAt : DateTime
}.
End Conflict.

(** A row of [ProcessedOperation]; the table is keyed by its unique
    [operationId], the surrogate [id] column is left out. *)
Module ProcessedOperation.
Record t := mk {
  action : OperationAction;
  tableName : TableName;
  processedAt : DateTime
}.
End ProcessedOperation.

Record Store := mkStore {
  todos : gmap string Row.t;
  notes : gmap string Row.t;
  conflicts : list Conflict.t;
  processedOperations : gmap string ProcessedOperation.t
}.

Definition rows (t : TableName) (s : Store) : gmap string Row.t :=
  match t with Todos => todos s | Notes => notes s end.

Definition set_table (t : TableName) (rows : gmap string Row.t) (s : Store) : Store :=
  match t with
  | Todos => mkStore rows (notes s) (conflicts s) (processedOperations s)
  | Notes => mkStore (todos s) rows (conflicts s) (processedOperations s)
  end.

Definition set_conflicts (cs : list Conflict.t) (s : Store) : Store :=
  mkStore (todos s) (notes s) cs (processedOperations s).

Definition set_processedOperations (l : gmap string ProcessedOperation.t) (s : Store) : Store :=
  mkStore (todos s) (notes s) (conflicts s) l.

(** What one request reads from outside the store: [new Date()] and the
    value of the [@default(uuid())] of the row it inserts. *)
Record Env := mkEnv { now : DateTime; uuid : string }.

(** ** Errors and the repository monad *)

Inductive error :=
| ValidationError      (* Prisma refuses the arguments of a query *)
| UniqueConstraint     (* a primary key or unique index is violated *)
| RecordNotFound       (* [update] matched no row *)
| IntegerOutOfRange    (* an INTEGER column left the 32-bit range *)
| InvalidByteSequence  (* a text or jsonb parameter holds U+0000 *)
| TypeError            (* JS: destructuring of [null] *)
| ZodError.            (* a schema's [parse] refuses its input *)

Inductive outcome (A : Type) :=
| Returned (a : A)
| Thrown (e : error).
Arguments Returned {A} a.
Arguments Thrown {A} e.

Definition M (A : Type) : Type := Store -> outcome A * Store.

Definition ret {A} (a : A) : M A := fun s => (Returned a, s).
Definition throw {A} (e : error) : M A := fun s => (Thrown e, s).
Definition bind {A B} (m : M A) (k : A -> M B) : M B :=
  fun s => match m s with
           | (Returned a, s') => k a s'
           | (Thrown e, s') => (Thrown e, s')
           end.
(** [try { m } catch (error) { h error }] *)
Definition try_catch {A} (m : M A) (h : error -> M A) : M A :=
  fun s => match m s with
           | (Returned a, s') => (Returned a, s')
           | (Thrown e, s') => h e s'
           end.
(** [prisma.$transaction(m)]: a throw inside restores the store. *)
Definition transaction {A} (m : M A) : M A :=
  fun s => match m s with
           | (Returned a, s') => (Returned a, s')
           | (Thrown e, _) => (Thrown e, s)
           end.
Definition lift {A} (o : option A) (e : error) : M A :=
  match o with Some a => ret a | None => throw e end.

Declare Scope repo_scope.
Delimit Scope repo_scope with repo.
Notation "'await' x <- m ; k" := (bind m (fun x => k))
  (at level 10, x name, m at level 100, k at level 200) : repo_scope.

(** ** The libraries behind the code

    zod and the Prisma engine are not part of the repository.  The two
    of their checks that depend on a text format are taken as an
    interface: which strings [z.string().uuid()] accepts, and how a
    [DateTime] argument given as a string is read (the canonical ISO
    text of the instant, or a refusal). *)

Class Runtime := {
  isUUID : string -> bool;
  parseDateTime : string -> option DateTime
}.

(** ** Prisma's reading of scalar arguments *)

Definition INT4_MAX : Z := 2147483647.
Definition INT4_MIN : Z := -2147483648.

Definition asString (v : json) : option string :=
  match v with JStr s => Some s | _ => None end.

Definition asNullableString (v : json) : option (option string) :=
  match v with JNull => Some None | JStr s => Some (Some s) | _ => None end.

Definition asInt (v : json) : option Z :=
  match v with
  | JNum n => if (INT4_MIN <=? n) && (n <=? INT4_MAX) then Some n else None
  | _ => None
  end.

Definition asDateTime `{Runtime} (v : json) : option DateTime :=
  match v with JStr s => parseDateTime s | _ => None end.

Definition asNullableDateTime `{Runtime} (v : json) : option (option DateTime) :=
  match v with
  | JNull => Some None
  | JStr s => match parseDateTime s with Some d => Some (Some d) | None => None end
  | _ => None
  end.

(** A property that may be left out: [Some None] when it is, otherwise
    the value has to be read. *)
Definition optional {A} (read : json -> option A) (v : option json) : option (option A) :=
  match v with
  | None => Some None
  | Some j => match read j with Some a => Some (Some a) | None => None end
  end.

(** What [data] may assign to [version] in an [update]: a value, or the
    atomic [{ increment: k }]. *)
Inductive VersionWrite := SetTo (n : Z) | Increment (k : Z).

Definition asVersionWrite (v : json) : option VersionWrite :=
  match v with
  | JNum _ => option_map SetTo (asInt v)
  | JObj [(k, n)] => if String.eqb k "increment" then option_map Increment (asInt n) else None
  | _ => None
  end.

(** The columns a [data] argument may name besides [id] and [version]. *)
Definition columns (t : TableName) : list string :=
  match t with
  | Todos => ["title"; "content"; "status"; "createdAt"; "updatedAt"; "deletedAt"]
  | Notes => ["title"; "content"; "createdAt"; "updatedAt"; "deletedAt"]
  end.

Definition knownKeys (allowed : list string) (o : object) : bool :=
  forallb (fun kv => existsb (String.eqb (fst kv)) allowed) o.

(** The scalar assignments of a [data] argument, once validated. *)
Record Patch := mkPatch {
  p_title : option string;
  p_content : option (option string);
  p_status : option string;
  p_createdAt : option DateTime;
  p_updatedAt : option DateTime;
  p_deletedAt : option (option DateTime)
}.

(** The query a [data] argument is given to.  [create] takes a scalar as
    its plain value; [update] takes the plain value or [{ set: value }]. *)
Inductive Query := Create | Update.

Definition assigned {A} (q : Query) (read : json -> option A) (v : json) : option A :=
  match q, v with
  | Update, JObj [(k, x)] => if String.eqb k "set" then read x else read v
  | _, _ => read v
  end.

Definition readPatch `{Runtime} (q : Query) (data : object) : option Patch :=
  match optional (assigned q asString) (get "title" data),
        optional (assigned q asNullableString) (get "content" data),
        optional (assigned q asString) (get "status" data),
        optional (assigned q asDateTime) (get "createdAt" data),
        optional (assigned q asDateTime) (get "updatedAt" data),
        optional (assigned q asNullableDateTime) (get "deletedAt" data) with
  | Some t, Some c, Some st, Some ca, Some ua, Some da => Some (mkPatch t c st ca ua da)
  | _, _, _, _, _, _ => None
  end.

(** The strings of a patch are parameters of the query. *)
Definition storablePatch (p : Patch) : bool :=
  storableOption (p_title p)
  && match p_content p with Some c => storableOption c | None => true end
  && storableOption (p_status p).

(** A row as the JS object Prisma returns and [Json] columns store. *)
Definition jsonOfNullable (o : option string) : json :=
  match o with Some s => JStr s | None => JNull end.

Definition rowObject (r : Row.t) : object :=
  ([("id", JStr (Row.id r)); ("title", JStr (Row.title r));
    ("content", jsonOfNullable (Row.content r))]
   ++ match Row.status r with Some s => [("status", JStr s)] | None => [] end
   ++ [("version", JNum (Row.version r));
       ("createdAt", JStr (Row.createdAt r)); ("updatedAt", JStr (Row.updatedAt r));
       ("deletedAt", jsonOfNullable (Row.deletedAt r))])%list.

(** ** Prisma queries on [todo] / [note]

    [prisma.<model>.create({ data })]: [data] may name [id], [version]
    and the columns of the table; [title] is required, [id] defaults to a
    uuid, [version] to 1, [status] to "pending", the two timestamps to
    the current time, the nullable columns to NULL.  The database
    refuses a string with U+0000, and then an [id] that is taken. *)
Definition prismaCreate `{Runtime} (env : Env) (t : TableName) (data : object) : M Row.t :=
  fun s =>
    if negb (knownKeys ("id" :: "version" :: columns t) data) then (Thrown ValidationError, s)
    else
      match optional asString (get "id" data), optional asInt (get "version" data),
            readPatch Create data with
      | Some oid, Some over, Some p =>
          match p_title p with
          | None => (Thrown ValidationError, s)
          | Some ttl =>
              let rid := default (uuid env) oid in
              let r := Row.mk rid ttl
                         (default None (p_content p))
                         (match t with
                          | Todos => Some (default "pending" (p_status p))
                          | Notes => None
                          end)
                         (default 1 over)
                         (default (now env) (p_createdAt p))
                         (default (now env) (p_updatedAt p))
                         (default None (p_deletedAt p)) in
              if negb (storableOption oid && storablePatch p)
              then (Thrown InvalidByteSequence, s)
              else
                match rows t s !! rid with
                | Some _ => (Thrown UniqueConstraint, s)
                | None => (Returned r, set_table t (<[rid := r]> (rows t s)) s)
                end
          end
      | _, _, _ => (Thrown ValidationError, s)
      end.

(** The [where] of the three [update] calls: always the [id]; the sync
    repository adds [version: clientVersion, deletedAt: null]. *)
Record Where := mkWhere {
  w_id : json;
  w_version : option json;
  w_live : bool
}.

Definition matches (wv : option Z) (live : bool) (r : Row.t) : bool :=
  match wv with Some v => Row.version r =? v | None => true end
  && match Row.deletedAt r with None => true | Some _ => negb live end.

Definition writeVersion (w : option VersionWrite) (v : Z) : Z :=
  match w with
  | None => v
  | Some (SetTo n) => n
  | Some (Increment k) => v + k
  end.

Definition applyPatch (env : Env) (p : Patch) (w : option VersionWrite) (r : Row.t) : Row.t :=
  Row.mk (Row.id r)
         (default (Row.title r) (p_title p))
         (default (Row.content r) (p_content p))
         (match Row.status r with
          | Some st => Some (default st (p_status p))
          | None => None
          end)
         (writeVersion w (Row.version r))
         (default (Row.createdAt r) (p_createdAt p))
         (default (now env) (p_updatedAt p))
         (default (Row.deletedAt r) (p_deletedAt p)).

(** The database side of [prisma.<model>.update]: a string with U+0000
    among the values is refused; the row is looked up, and no match
    throws (no stored [id] holds U+0000, so an [id] that does is refused
    when it misses); [updatedAt] is set to the current time unless it is
    assigned; a version outside the INTEGER range is refused. *)
Definition updateRow (env : Env) (t : TableName) (rid : string) (wv : option Z) (live : bool)
    (p : Patch) (vw : option VersionWrite) : M Row.t :=
  fun s =>
    if negb (storablePatch p) then (Thrown InvalidByteSequence, s)
    else
      match rows t s !! rid with
      | Some r =>
          if matches wv live r then
            let r' := applyPatch env p vw r in
            if (INT4_MIN <=? Row.version r') && (Row.version r' <=? INT4_MAX) then
              (Returned r', set_table t (<[rid := r']> (rows t s)) s)
            else (Thrown IntegerOutOfRange, s)
          else (Thrown RecordNotFound, s)
      | None => (Thrown (if storable rid then RecordNotFound else InvalidByteSequence), s)
      end.

(** [prisma.<model>.update({ where, data })] with [where] and [data] built
    from request JSON: the arguments are validated before the database is
    touched.  [id] is not among the assignable names: every caller has
    removed it by destructuring, and every caller assigns [version]
    itself, as [{ increment: 1 }]. *)
Definition prismaUpdate `{Runtime} (env : Env) (t : TableName) (w : Where) (data : object) : M Row.t :=
  fun s =>
    if negb (knownKeys ("version" :: columns t) data) then (Thrown ValidationError, s)
    else
      match asString (w_id w), optional asInt (w_version w),
            optional asVersionWrite (get "version" data), readPatch Update data with
      | Some rid, Some wv, Some vw, Some p => updateRow env t rid wv (w_live w) p vw s
      | _, _, _, _ => (Thrown ValidationError, s)
      end.

(** ** SyncRepository (syncRepository.ts) *)

(** [findUnique({ where: { id } })]: an [id] that is no string is refused
    by Prisma, one with U+0000 by the database; no stored [id] holds
    U+0000, so the refusal is that of a lookup that misses. *)
Definition findRecordById (t : TableName) (id : json) : M (option Row.t) :=
  fun s =>
    match asString id with
    | Some rid =>
        match rows t s !! rid with
        | Some r => (Returned (Some r), s)
        | None => if storable rid then (Returned None, s) else (Thrown InvalidByteSequence, s)
        end
    | None => (Thrown ValidationError, s)
    end.

Definition createRecord `{Runtime} (env : Env) (t : TableName) (data : object) : M Row.t :=
  prismaCreate env t (assign "version" (JNum 1) data).

Definition increment1 : json := JObj [("increment", JNum 1)].

Definition updateRecordWithVersionCheck `{Runtime} (env : Env) (t : TableName)
    (id clientVersion : json) (data : object) : M (option Row.t) :=
  try_catch
    (await r <- prismaUpdate env t (mkWhere id (Some clientVersion) true)
                  (assign "version" increment1 data);
     ret (Some r))%repo
    (fun _ => ret None).

(** [data: { deletedAt: new Date(), version: { increment: 1 } }]: the
    [Date] object needs no reading, only the [where] comes from JSON. *)
Definition deleteRecordWithVersionCheck (env : Env) (t : TableName)
    (id clientVersion : json) : M (option Row.t) :=
  try_catch
    (await r <- (fun s =>
                   match asString id, asInt clientVersion with
                   | Some rid, Some v =>
                       updateRow env t rid (Some v) true
                         (mkPatch None None None None None (Some (Some (now env))))
                         (Some (Increment 1)) s
                   | _, _ => (Thrown ValidationError, s)
                   end);
     ret (Some r))%repo
    (fun _ => ret None).

(** [prisma.conflict.create]: [id] and [createdAt] take their defaults,
    [status] is written as PENDING; [recordId] has to be a string and
    [clientVersion] an [Int] ([serverVersion] is 0 or a stored version);
    [operationId] carries a unique index.  The [Json] column [serverData]
    holds the [null] it is given, and the generated [id] is taken to be
    fresh.  The database refuses U+0000 in [recordId] and in the strings
    of [clientData], which come from the request ([operationId] has
    passed [z.string().uuid()], and [serverData] was read from a table). *)
Definition createConflict (env : Env) (operationId : string) (t : TableName)
    (recordId : json) (serverData : option object) (clientData : object)
    (serverVersion : Z) (clientVersion : json) : M Conflict.t :=
  fun s =>
    match asString recordId, asInt clientVersion with
    | Some rid, Some cv =>
        if negb (storable rid && storableObject clientData)
        then (Thrown InvalidByteSequence, s)
        else if existsb (fun c => String.eqb (Conflict.operationId c) operationId) (conflicts s)
        then (Thrown UniqueConstraint, s)
        else
          let c := Conflict.mk (uuid env) operationId t rid serverData clientData
                     serverVersion cv
                     PENDING None None (now env) in
          (Returned c, set_conflicts (conflicts s ++ [c])%list s)
    | _, _ => (Thrown ValidationError, s)
    end.

Definition operationExists (operationId : string) : M bool :=
  fun s => (Returned (match processedOperations s !! operationId with
                      | Some _ => true
                      | None => false
                      end), s).

Definition markOperationProcessed (env : Env) (operationId : string)
    (action : OperationAction) (t : TableName) : M unit :=
  fun s =>
    match processedOperations s !! operationId with
    | Some _ => (Thrown UniqueConstraint, s)
    | None =>
        (Returned tt,
         set_processedOperations
           (<[operationId := ProcessedOperation.mk action t (now env)]> (processedOperations s)) s)
    end.

(** Despite its name it consults the processed-operations table. *)
Definition conflictExists (operationId : string) : M bool :=
  operationExists operationId.

(** ** Wire types (syncSchemas.ts) *)

Module SyncOperation.
Record t := mk {
  operationId : string;
  action : OperationAction;
  table : TableName;
  data : object
}.
End SyncOperation.

(** A result's [message]: a literal of the source, or the message of the
    error that was caught. *)
Inductive Message :=
| Text (s : string)
| MessageOf (e : error).

Module OperationResult.
Record t := mk {
  operationId : string;
  status : OperationStatus;
  message : option Message;
  data : option Row.t;
  conflictId : option string
}.
End OperationResult.

Definition SyncOperationSchema `{Runtime} (v : json) : option SyncOperation.t :=
  match v with
  | JObj o =>
      match get "operationId" o, get "action" o, get "table" o, get "data" o with
      | Some (JStr oid), Some (JStr a), Some (JStr tn), Some (JObj d) =>
          if isUUID oid then
            match OperationActionSchema a, TableNameSchema tn with
            | Some act, Some tbl => Some (SyncOperation.mk oid act tbl d)
            | _, _ => None
            end
          else None
      | _, _, _, _ => None
      end
  | _ => None
  end.

Fixpoint parseAll {A} (schema : json -> option A) (items : list json) : option (list A) :=
  match items with
  | [] => Some []
  | x :: rest =>
      match schema x, parseAll schema rest with
      | Some a, Some l => Some (a :: l)
      | _, _ => None
      end
  end.

(** [z.object({ operations: z.array(SyncOperationSchema).min(1).max(100) })] *)
Definition SyncRequestSchema `{Runtime} (body : json) : option (list SyncOperation.t) :=
  match body with
  | JObj o =>
      match get "operations" o with
      | Some (JArr items) =>
          if (1 <=? length items)%nat && (length items <=? 100)%nat
          then parseAll SyncOperationSchema items
          else None
      | _ => None
      end
  | _ => None
  end.

(** ** SyncService (syncService.ts) *)

Definition result (operationId : string) (st : OperationStatus) (msg : string)
    (data : option Row.t) (conflictId : option string) : OperationResult.t :=
  OperationResult.mk operationId st (Some (Text msg)) data conflictId.

Definition handleCreate `{Runtime} (env : Env) (operationId : string) (t : TableName)
    (data : object) : M OperationResult.t :=
  try_catch
    (await record <- createRecord env t data;
     await _ <- markOperationProcessed env operationId CREATE t;
     ret (result operationId APPLIED "Record created successfully" (Some record) None))%repo
    (fun e => ret (OperationResult.mk operationId ERROR (Some (MessageOf e)) None None)).

(** [!id || clientVersion === undefined] *)
Definition missingIdOrVersion (id clientVersion : option json) : bool :=
  match id, clientVersion with
  | Some i, Some _ => negb (truthy i)
  | _, _ => true
  end.

(** [serverRecord.version !== clientVersion] *)
Definition versionDiffers (serverRecord : Row.t) (clientVersion : json) : bool :=
  match clientVersion with
  | JNum n => negb (Row.version serverRecord =? n)
  | _ => true
  end.

Definition handleUpdate `{Runtime} (env : Env) (operationId : string) (t : TableName)
    (data : object) : M OperationResult.t :=
  let updateData := omit "version" (omit "id" data) in
  if missingIdOrVersion (get "id" data) (get "version" data) then
    ret (result operationId ERROR "Missing id or version in update data" None None)
  else
    let id := default JNull (get "id" data) in
    let clientVersion := default JNull (get "version" data) in
    (await serverRecord <- findRecordById t id;
     match serverRecord with
     | None =>
         await conflict <- createConflict env operationId t id None data 0 clientVersion;
         ret (result operationId CONFLICT "Record not found on server" None
                (Some (Conflict.id conflict)))
     | Some serverRecord =>
         if versionDiffers serverRecord clientVersion then
           await conflict <- createConflict env operationId t id (Some (rowObject serverRecord))
                               data (Row.version serverRecord) clientVersion;
           ret (result operationId CONFLICT "Version conflict detected" None
                  (Some (Conflict.id conflict)))
         else
           await updatedRecord <- updateRecordWithVersionCheck env t id clientVersion updateData;
           match updatedRecord with
           | None =>
               ret (result operationId ERROR "Failed to update record (race condition)" None None)
           | Some updatedRecord =>
               await _ <- markOperationProcessed env operationId UPDATE t;
               ret (result operationId APPLIED "Record updated successfully"
                      (Some updatedRecord) None)
           end
     end)%repo.

(** [serverRecord.deletedAt] as a condition: a tombstone. *)
Definition tombstoned (r : Row.t) : bool :=
  match Row.deletedAt r with Some _ => true | None => false end.

(** [handleDelete]: [!serverRecord || serverRecord.deletedAt] leads both an
    absent and a tombstoned target to the [alreadyApplied] block. *)

Definition handleDelete (env : Env) (operationId : string) (t : TableName)
    (data : object) : M OperationResult.t :=
  if missingIdOrVersion (get "id" data) (get "version" data) then
    ret (result operationId ERROR "Missing id or version in delete data" None None)
  else
    let id := default JNull (get "id" data) in
    let clientVersion := default JNull (get "version" data) in
    let alreadyApplied :=
      (await _ <- markOperationProcessed env operationId DELETE t;
       ret (result operationId APPLIED "Record already deleted" None None))%repo in
    (await serverRecord <- findRecordById t id;
     match serverRecord with
     | None => alreadyApplied
     | Some serverRecord =>
         if tombstoned serverRecord then alreadyApplied
         else if versionDiffers serverRecord clientVersion then
           await conflict <- createConflict env operationId t id (Some (rowObject serverRecord))
                               data (Row.version serverRecord) clientVersion;
           ret (result operationId CONFLICT "Version conflict detected" None
                  (Some (Conflict.id conflict)))
         else
           await deletedRecord <- deleteRecordWithVersionCheck env t id clientVersion;
           match deletedRecord with
           | None =>
               ret (result operationId ERROR "Failed to delete record (race condition)" None None)
           | Some deletedRecord =>
               await _ <- markOperationProcessed env operationId DELETE t;
               ret (result operationId APPLIED "Record deleted successfully"
                      (Some deletedRecord) None)
           end
     end)%repo.

Definition processSingleOperation `{Runtime} (env : Env) (operation : SyncOperation.t)
    : M OperationResult.t :=
  let operationId := SyncOperation.operationId operation in
  let t := SyncOperation.table operation in
  let data := SyncOperation.data operation in
  try_catch
    (await isDuplicate <- conflictExists operationId;
     if isDuplicate : bool then
       ret (result operationId ERROR "Operation already processed" None None)
     else
       match SyncOperation.action operation with
       | CREATE => handleCreate env operationId t data
       | UPDATE => handleUpdate env operationId t data
       | DELETE => handleDelete env operationId t data
       end)%repo
    (fun _ => ret (result operationId ERROR "Internal server error" None None)).

(** The batch loop; [oracle i] is what the [i]-th operation reads from
    the clock and the uuid generator. *)
Fixpoint processSyncOperations `{Runtime} (oracle : nat -> Env)
    (operations : list SyncOperation.t) : M (list OperationResult.t) :=
  match operations with
  | [] => ret []
  | operation :: rest =>
      (await r <- processSingleOperation (oracle O) operation;
       await rs <- processSyncOperations (fun i => oracle (S i)) rest;
       ret (r :: rs))%repo
  end.

(** ** ServiceResponse (utils) *)

Module ServiceResponse.
Record t (T : Type) := mk {
  success : bool;
  message : string;
  responseObject : option T;
  statusCode : Z
}.
Arguments mk {T}.
Arguments success {T}.
Arguments message {T}.
Arguments responseObject {T}.
Arguments statusCode {T}.
End ServiceResponse.

Module ServiceResponseBuilder.
Definition success {T} (message : string) (data : T) : ServiceResponse.t T :=
  ServiceResponse.mk true message (Some data) 200.
Definition error {T} (message : string) (statusCode : Z) : ServiceResponse.t T :=
  ServiceResponse.mk false message None statusCode.
Definition notFound {T} (resource : string) : ServiceResponse.t T :=
  error (resource ++ " not found")%string 404.
Definition validationError {T} (message : string) : ServiceResponse.t T :=
  error message 400.
Definition internalError {T} (message : string) : ServiceResponse.t T :=
  error message 500.
End ServiceResponseBuilder.

(** ** SyncController (syncController.ts) and its response *)

Module Summary.
Record t := mk {
  total : nat;
  applied : nat;
  conflicts : nat;
  errors : nat
}.
End Summary.

Definition hasStatus (st : OperationStatus) (r : OperationResult.t) : bool :=
  match OperationResult.status r, st with
  | APPLIED, APPLIED | CONFLICT, CONFLICT | ERROR, ERROR => true
  | _, _ => false
  end.

Definition summarize (results : list OperationResult.t) : Summary.t :=
  Summary.mk (length results)
             (length (List.filter (hasStatus APPLIED) results))
             (length (List.filter (hasStatus CONFLICT) results))
             (length (List.filter (hasStatus ERROR) results)).

(** What the handler sends: [res.status(200).json(...)] with the results,
    or [handleServiceResponse] with a failure. *)
Inductive SyncResponse :=
| SyncCompleted (results : list OperationResult.t) (summary : Summary.t)
| Handled (response : ServiceResponse.t unit).

Definition httpStatus (r : SyncResponse) : Z :=
  match r with
  | SyncCompleted _ _ => 200
  | Handled response => ServiceResponse.statusCode response
  end.

Definition sync `{Runtime} (oracle : nat -> Env) (body : json) : M SyncResponse :=
  try_catch
    (await syncRequest <- lift (SyncRequestSchema body) ZodError;
     await results <- processSyncOperations oracle syncRequest;
     ret (SyncCompleted results (summarize results)))%repo
    (fun _ => ret (Handled (ServiceResponseBuilder.validationError "Invalid sync request"))).

(** ** ConflictsRepository and ConflictsService.resolveConflict *)

Definition hasId (id : string) (c : Conflict.t) : bool := String.eqb (Conflict.id c) id.

(** [prisma.conflict.findUnique({ where: { id } })]; an [id] with U+0000
    is refused by the database (no stored [id] holds one). *)
Definition findById (id : string) : M (option Conflict.t) :=
  fun s =>
    match List.find (hasId id) (conflicts s) with
    | Some c => (Returned (Some c), s)
    | None => if storable id then (Returned None, s) else (Thrown InvalidByteSequence, s)
    end.

Fixpoint replaceConflict (id : string) (c' : Conflict.t) (cs : list Conflict.t)
    : list Conflict.t :=
  match cs with
  | [] => []
  | c :: rest => if hasId id c then c' :: rest else c :: replaceConflict id c' rest
  end.

(** [tx.conflict.update({ where: { id }, data: { status: 'RESOLVED',
    resolvedData, resolvedAt: new Date() } })]; the [jsonb] column
    refuses a [resolvedData] with U+0000 in a string. *)
Definition markResolved (env : Env) (id : string) (resolvedData : object) : M Conflict.t :=
  fun s =>
    if negb (storableObject resolvedData) then (Thrown InvalidByteSequence, s)
    else
      match List.find (hasId id) (conflicts s) with
      | Some c =>
          let c' := Conflict.mk (Conflict.id c) (Conflict.operationId c) (Conflict.tableName c)
                      (Conflict.recordId c) (Conflict.serverData c) (Conflict.clientData c)
                      (Conflict.serverVersion c) (Conflict.clientVersion c)
                      RESOLVED (Some (now env)) (Some resolvedData) (Conflict.createdAt c) in
          (Returned c', set_conflicts (replaceConflict id c' (conflicts s)) s)
      | None => (Thrown (if storable id then RecordNotFound else InvalidByteSequence), s)
      end.

Module ResolveConflictDTO.
Record t := mk {
  resolvedData : option object;
  resolution : Resolution
}.
End ResolveConflictDTO.

Definition isPending (c : Conflict.t) : bool :=
  match Conflict.status c with PENDING => true | _ => false end.

(** The body of [prisma.$transaction]: [dataToApply] is [null] or an
    object, and destructuring [null] throws. *)
Definition applyResolution `{Runtime} (env : Env) (id : string) (conflict : Conflict.t)
    (dataToApply : option object) : M Conflict.t :=
  match dataToApply with
  | None => throw TypeError
  | Some o =>
      let updateData := omit "version" (omit "id" o) in
      (await _ <- prismaUpdate env (Conflict.tableName conflict)
                    (mkWhere (JStr (Conflict.recordId conflict)) None false)
                    (assign "version" increment1 updateData);
       await resolvedConflict <- markResolved env id o;
       ret resolvedConflict)%repo
  end.

Definition resolveConflict `{Runtime} (env : Env) (id : string) (dto : ResolveConflictDTO.t)
    : M (ServiceResponse.t Conflict.t) :=
  try_catch
    (await conflict <- findById id;
     match conflict with
     | None => ret (ServiceResponseBuilder.notFound "Conflict")
     | Some conflict =>
         if negb (isPending conflict) then
           ret (ServiceResponseBuilder.validationError
                  "Conflict has already been resolved or dismissed")
         else
           let apply dataToApply :=
             (await result <- transaction (applyResolution env id conflict dataToApply);
              ret (ServiceResponseBuilder.success "Conflict resolved successfully" result)) in
           match ResolveConflictDTO.resolution dto with
           | CLIENT => apply (Some (Conflict.clientData conflict))
           | SERVER => apply (Conflict.serverData conflict)
           | CUSTOM =>
               match ResolveConflictDTO.resolvedData dto with
               | None =>
                   ret (ServiceResponseBuilder.validationError
                          "resolvedData is required for CUSTOM resolution")
               | Some resolvedData => apply (Some resolvedData)
               end
           end
     end)%repo
    (fun _ => ret (ServiceResponseBuilder.internalError "Failed to resolve conflict")).

(** ** ConflictsRepository: the other queries (conflictsRepository.ts) *)

(** The texts the [status] and [tableName] columns hold. *)
Definition ConflictStatus_text (st : ConflictStatus) : string :=
  match st with
  | PENDING => "PENDING"
  | RESOLVED => "RESOLVED"
  | DISMISSED => "DISMISSED"
  end.

Definition TableName_text (t : TableName) : string :=
  match t with Todos => "todos" | Notes => "notes" end.

(** [...(filter && { column: filter })]: an absent or empty filter puts no
    condition on the column. *)
Definition selects (filter : option string) (value : string) : bool :=
  match filter with
  | Some f => if String.eqb f "" then true else String.eqb value f
  | None => true
  end.

(** [orderBy: { createdAt: 'desc' }]: on the canonical ISO text of
    instants the order of the texts is the order of the instants. *)
Definition newestFirst {A} (createdAt : A -> DateTime) (a b : A) : Prop :=
  String.le (createdAt b) (createdAt a).

#[global] Instance newestFirst_dec {A} (createdAt : A -> DateTime) :
  RelDecision (newestFirst createdAt).
Proof. intros a b. unfold newestFirst. apply _. Defined.

Module ConflictsRepository.

Definition matching (status tableName : option string) (c : Conflict.t) : bool :=
  selects status (ConflictStatus_text (Conflict.status c))
  && selects tableName (TableName_text (Conflict.tableName c)).

(** [findMany({ where: { ...(status && { status }), ...(tableName &&
    { tableName }) }, orderBy: { createdAt: 'desc' } })]; a filter with
    U+0000 is refused by the database. *)
Definition findAll (status tableName : option string) : M (list Conflict.t) :=
  fun s =>
    if negb (storableOption status && storableOption tableName)
    then (Thrown InvalidByteSequence, s)
    else
      (Returned (merge_sort (newestFirst Conflict.createdAt)
                   (List.filter (matching status tableName) (conflicts s))), s).

(** [prisma.conflict.update({ where: { id }, data: { status: 'DISMISSED',
    resolvedAt: new Date() } })], any error turned into [null]. *)
Definition dismiss (env : Env) (id : string) : M (option Conflict.t) :=
  try_catch
    (fun s =>
       match List.find (hasId id) (conflicts s) with
       | Some c =>
           let c' := Conflict.mk (Conflict.id c) (Conflict.operationId c) (Conflict.tableName c)
                       (Conflict.recordId c) (Conflict.serverData c) (Conflict.clientData c)
                       (Conflict.serverVersion c) (Conflict.clientVersion c)
                       DISMISSED (Some (now env)) (Conflict.resolvedData c)
                       (Conflict.createdAt c) in
           (Returned (Some c'), set_conflicts (replaceConflict id c' (conflicts s)) s)
       | None => (Thrown (if storable id then RecordNotFound else InvalidByteSequence), s)
       end)
    (fun _ => ret None).

Definition pendingIn (t : TableName) (c : Conflict.t) : bool :=
  isPending c && bool_decide (Conflict.tableName c = t).

(** [groupBy({ by: ['tableName'], where: { status: 'PENDING' }, _count: true })]
    has one group for each table with a pending conflict; the [reduce]
    writes each count under the table's name. *)
Definition getPendingCountByTable : M (gmap string nat) :=
  fun s =>
    let counts :=
      List.filter (fun item => negb (Nat.eqb (snd item) 0))
        (map (fun t => (TableName_text t, length (List.filter (pendingIn t) (conflicts s))))
             [Todos; Notes]) in
    (Returned (foldl (fun acc item => <[fst item := snd item]> acc) ∅ counts), s).

End ConflictsRepository.

(** ** ConflictsService: the other methods *)

Definition getAllConflicts (status tableName : option string)
    : M (ServiceResponse.t (list Conflict.t)) :=
  try_catch
    (await conflicts <- ConflictsRepository.findAll status tableName;
     ret (ServiceResponseBuilder.success "Conflicts fetched successfully" conflicts))%repo
    (fun _ => ret (ServiceResponseBuilder.internalError "Failed to fetch conflicts")).

Definition getConflictById (id : string) : M (ServiceResponse.t Conflict.t) :=
  try_catch
    (await conflict <- findById id;
     match conflict with
     | None => ret (ServiceResponseBuilder.notFound "Conflict")
     | Some conflict =>
         ret (ServiceResponseBuilder.success "Conflict fetched successfully" conflict)
     end)%repo
    (fun _ => ret (ServiceResponseBuilder.internalError "Failed to fetch conflict")).

Definition dismissConflict (env : Env) (id : string) : M (ServiceResponse.t Conflict.t) :=
  try_catch
    (await conflict <- findById id;
     match conflict with
     | None => ret (ServiceResponseBuilder.notFound "Conflict")
     | Some conflict =>
         if negb (isPending conflict) then
           ret (ServiceResponseBuilder.validationError
                  "Conflict has already been resolved or dismissed")
         else
           await dismissedConflict <- ConflictsRepository.dismiss env id;
           match dismissedConflict with
           | None => ret (ServiceResponseBuilder.internalError "Failed to dismiss conflict")
           | Some dismissedConflict =>
               ret (ServiceResponseBuilder.success "Conflict dismissed successfully"
                      dismissedConflict)
           end
     end)%repo
    (fun _ => ret (ServiceResponseBuilder.internalError "Failed to dismiss conflict")).

Module ConflictStats.
Record t := mk {
  total : nat;
  pending : nat;
  resolved : nat;
  dismissed : nat;
  byTable : gmap string nat
}.
End ConflictStats.

Definition statusIs (st : ConflictStatus) (c : Conflict.t) : bool :=
  String.eqb (ConflictStatus_text (Conflict.status c)) (ConflictStatus_text st).

Definition getConflictStats : M (ServiceResponse.t ConflictStats.t) :=
  try_catch
    (await pendingCounts <- ConflictsRepository.getPendingCountByTable;
     await allConflicts <- ConflictsRepository.findAll None None;
     ret (ServiceResponseBuilder.success "Statistics fetched successfully"
            (ConflictStats.mk (length allConflicts)
               (length (List.filter (statusIs PENDING) allConflicts))
               (length (List.filter (statusIs RESOLVED) allConflicts))
               (length (List.filter (statusIs DISMISSED) allConflicts))
               pendingCounts)))%repo
    (fun _ => ret (ServiceResponseBuilder.internalError "Failed to fetch statistics")).

(** ** ConflictsController.resolveConflict (conflictsController.ts) *)

Definition ResolutionSchema (s : string) : option Resolution :=
  if String.eqb s "CLIENT" then Some CLIENT
  else if String.eqb s "SERVER" then Some SERVER
  else if String.eqb s "CUSTOM" then Some CUSTOM
  else None.

Definition asRecord (v : json) : option object :=
  match v with JObj o => Some o | _ => None end.

(** [z.object({ resolvedData: z.record(z.string(), z.any()).optional(),
    resolution: z.enum(['CLIENT', 'SERVER', 'CUSTOM']) })] *)
Definition ResolveConflictSchema (body : json) : option ResolveConflictDTO.t :=
  match body with
  | JObj o =>
      match optional asRecord (get "resolvedData" o), get "resolution" o with
      | Some resolvedData, Some (JStr r) =>
          match ResolutionSchema r with
          | Some resolution => Some (ResolveConflictDTO.mk resolvedData resolution)
          | None => None
          end
      | _, _ => None
      end
  | _ => None
  end.

Module ConflictsController.

Definition resolveConflict `{Runtime} (env : Env) (id : string) (body : json)
    : M (ServiceResponse.t Conflict.t) :=
  try_catch
    (await dto <- lift (ResolveConflictSchema body) ZodError;
     resolveConflict env id dto)%repo
    (fun _ => ret (ServiceResponseBuilder.validationError "Invalid resolution data")).

End ConflictsController.

(** ** BaseRepository and BaseService (the CRUD side, base/)

    The repository of a model is the generic class with [modelName] fixed;
    here the table is a parameter. *)

(** [ServiceResponseBuilder.success(message, data, statusCode)] with the
    status code given, and [ServiceResponseBuilder.conflict]. *)
Definition successWith {T} (message : string) (data : T) (statusCode : Z) : ServiceResponse.t T :=
  ServiceResponse.mk true message (Some data) statusCode.

Definition conflictResponse {T} (message : string) : ServiceResponse.t T :=
  ServiceResponseBuilder.error message 409.

Definition entityName (t : TableName) : string :=
  match t with Todos => "Todo" | Notes => "Note" end.

Definition isLive (r : Row.t) : bool := negb (tombstoned r).

Module BaseRepository.

(** [findFirst({ where: { id, deletedAt: null } })]; an [id] with U+0000
    is refused by the database (no stored [id] holds one). *)
Definition findById (t : TableName) (id : string) : M (option Row.t) :=
  fun s =>
    match rows t s !! id with
    | Some r => (Returned (if isLive r then Some r else None), s)
    | None => if storable id then (Returned None, s) else (Thrown InvalidByteSequence, s)
    end.

(** [findUnique({ where: { id } })] *)
Definition findByIdIncludingDeleted (t : TableName) (id : string) : M (option Row.t) :=
  fun s =>
    match rows t s !! id with
    | Some r => (Returned (Some r), s)
    | None => if storable id then (Returned None, s) else (Thrown InvalidByteSequence, s)
    end.

(** [findMany({ where: { deletedAt: null }, orderBy: { createdAt: 'desc' } })] *)
Definition findAll (t : TableName) : M (list Row.t) :=
  fun s =>
    (Returned (merge_sort (newestFirst Row.createdAt)
                 (List.filter isLive (map snd (map_to_list (rows t s))))), s).

Definition create `{Runtime} (env : Env) (t : TableName) (data : object) : M Row.t :=
  prismaCreate env t (assign "version" (JNum 1) data).

Definition updateWithVersionCheck `{Runtime} (env : Env) (t : TableName) (id : string)
    (currentVersion : Z) (data : object) : M (option Row.t) :=
  try_catch
    (await r <- prismaUpdate env t (mkWhere (JStr id) (Some (JNum currentVersion)) true)
                  (assign "version" increment1 data);
     ret (Some r))%repo
    (fun _ => ret None).

Definition softDeleteWithVersionCheck (env : Env) (t : TableName) (id : string)
    (currentVersion : Z) : M (option Row.t) :=
  try_catch
    (await r <- (fun s =>
                   match asInt (JNum currentVersion) with
                   | Some v =>
                       updateRow env t id (Some v) true
                         (mkPatch None None None None None (Some (Some (now env))))
                         (Some (Increment 1)) s
                   | None => (Thrown ValidationError, s)
                   end);
     ret (Some r))%repo
    (fun _ => ret None).

End BaseRepository.

Module BaseService.

Definition getById (t : TableName) (id : string) : M (ServiceResponse.t Row.t) :=
  try_catch
    (await entity <- BaseRepository.findById t id;
     match entity with
     | None => ret (ServiceResponseBuilder.notFound (entityName t))
     | Some entity =>
         ret (ServiceResponseBuilder.success (entityName t ++ " fetched successfully")%string
                entity)
     end)%repo
    (fun _ => ret (ServiceResponseBuilder.internalError ("Failed to fetch " ++ entityName t)%string)).

Definition getAll (t : TableName) : M (ServiceResponse.t (list Row.t)) :=
  try_catch
    (await entities <- BaseRepository.findAll t;
     ret (ServiceResponseBuilder.success (entityName t ++ "s fetched successfully")%string
            entities))%repo
    (fun _ => ret (ServiceResponseBuilder.internalError
                     ("Failed to fetch " ++ entityName t ++ "s")%string)).

End BaseService.

(** ** TodosService and NotesService (todosService.ts, notesService.ts)

    The DTOs are what the zod schemas of the controllers produce. *)

Module CreateTodoDTO.
Record t := mk {
  title : string;
  content : option string;
  status : option string
}.
End CreateTodoDTO.

Module UpdateTodoDTO.
Record t := mk {
  title : option string;
  content : option string;
  status : option string;
  version : Z
}.
End UpdateTodoDTO.

Module CreateNoteDTO.
Record t := mk {
  title : string;
  content : option string
}.
End CreateNoteDTO.

Module UpdateNoteDTO.
Record t := mk {
  title : option string;
  content : option string;
  version : Z
}.
End UpdateNoteDTO.

(** A property whose value is [undefined] is none for Prisma. *)
Definition property (k : string) (v : option string) : object :=
  match v with Some s => [(k, JStr s)] | None => [] end.

(** [dto.status || 'pending'] *)
Definition statusOrPending (status : option string) : string :=
  match status with
  | Some s => if String.eqb s "" then "pending" else s
  | None => "pending"
  end.

Module TodosService.

Definition createTodo `{Runtime} (env : Env) (dto : CreateTodoDTO.t)
    : M (ServiceResponse.t Row.t) :=
  try_catch
    (await todo <- BaseRepository.create env Todos
                     ([("title", JStr (CreateTodoDTO.title dto))]
                      ++ property "content" (CreateTodoDTO.content dto)
                      ++ [("status", JStr (statusOrPending (CreateTodoDTO.status dto)))])%list;
     ret (successWith "Todo created successfully" todo 201))%repo
    (fun _ => ret (ServiceResponseBuilder.internalError "Failed to create todo")).

Definition updateTodo `{Runtime} (env : Env) (id : string) (dto : UpdateTodoDTO.t)
    : M (ServiceResponse.t Row.t) :=
  let updateData := (property "title" (UpdateTodoDTO.title dto)
                     ++ property "content" (UpdateTodoDTO.content dto)
                     ++ property "status" (UpdateTodoDTO.status dto))%list in
  try_catch
    (await todo <- BaseRepository.updateWithVersionCheck env Todos id
                     (UpdateTodoDTO.version dto) updateData;
     match todo with
     | None =>
         ret (conflictResponse "Version conflict: Todo has been modified by another client")
     | Some todo => ret (ServiceResponseBuilder.success "Todo updated successfully" todo)
     end)%repo
    (fun _ => ret (ServiceResponseBuilder.internalError "Failed to update todo")).

Definition deleteTodo (env : Env) (id : string) (version : Z) : M (ServiceResponse.t Row.t) :=
  try_catch
    (await todo <- BaseRepository.softDeleteWithVersionCheck env Todos id version;
     match todo with
     | None =>
         ret (conflictResponse "Version conflict: Todo has been modified by another client")
     | Some todo => ret (ServiceResponseBuilder.success "Todo deleted successfully" todo)
     end)%repo
    (fun _ => ret (ServiceResponseBuilder.internalError "Failed to delete todo")).

End TodosService.

Module NotesService.

Definition createNote `{Runtime} (env : Env) (dto : CreateNoteDTO.t)
    : M (ServiceResponse.t Row.t) :=
  try_catch
    (await note <- BaseRepository.create env Notes
                     ([("title", JStr (CreateNoteDTO.title dto))]
                      ++ property "content" (CreateNoteDTO.content dto))%list;
     ret (successWith "Note created successfully" note 201))%repo
    (fun _ => ret (ServiceResponseBuilder.internalError "Failed to create note")).

Definition updateNote `{Runtime} (env : Env) (id : string) (dto : UpdateNoteDTO.t)
    : M (ServiceResponse.t Row.t) :=
  let updateData := (property "title" (UpdateNoteDTO.title dto)
                     ++ property "content" (UpdateNoteDTO.content dto))%list in
  try_catch
    (await note <- BaseRepository.updateWithVersionCheck env Notes id
                     (UpdateNoteDTO.version dto) updateData;
     match note with
     | None =>
         ret (conflictResponse "Version conflict: Note has been modified by another client")
     | Some note => ret (ServiceResponseBuilder.success "Note updated successfully" note)
     end)%repo
    (fun _ => ret (ServiceResponseBuilder.internalError "Failed to update note")).

Definition deleteNote (env : Env) (id : string) (version : Z) : M (ServiceResponse.t Row.t) :=
  try_catch
    (await note <- BaseRepository.softDeleteWithVersionCheck env Notes id version;
     match note with
     | None =>
         ret (conflictResponse "Version conflict: Note has been modified by another client")
     | Some note => ret (ServiceResponseBuilder.success "Note deleted successfully" note)
     end)%repo
    (fun _ => ret (ServiceResponseBuilder.internalError "Failed to delete note")).

End NotesService.

(** ** The request schemas and controllers of the CRUD routes
    (todosSchemas.ts, notesSchemas.ts, todosController.ts, notesController.ts) *)

(** The [length] of a JS string counts UTF-16 code units: one for a
    character of one to three bytes of the UTF-8 text, two for a
    character of four bytes. *)
Fixpoint utf16Length (s : string) : nat :=
  match s with
  | EmptyString => O
  | String c s' =>
      let n := nat_of_ascii c in
      ((if (n <? 128) || ((192 <=? n) && (n <? 240)) then 1
        else if 240 <=? n then 2
        else 0) + utf16Length s')%nat
  end.

(** [z.string().min(1).max(200)] *)
Definition titleSchema (v : json) : option string :=
  match v with
  | JStr s => if (1 <=? utf16Length s)%nat && (utf16Length s <=? 200)%nat
              then Some s else None
  | _ => None
  end.

(** [z.enum(['pending', 'in-progress', 'completed'])] *)
Definition todoStatusSchema (v : json) : option string :=
  match v with
  | JStr s => if String.eqb s "pending" || String.eqb s "in-progress" || String.eqb s "completed"
              then Some s else None
  | _ => None
  end.

(** [z.number().int().positive()] *)
Definition versionSchema (v : json) : option Z :=
  match v with
  | JNum n => if 0 <? n then Some n else None
  | _ => None
  end.

Definition CreateTodoSchema (body : json) : option CreateTodoDTO.t :=
  match body with
  | JObj o =>
      match get "title" o with
      | Some ttl =>
          match titleSchema ttl, optional asString (get "content" o),
                optional todoStatusSchema (get "status" o) with
          | Some title, Some content, Some status =>
              Some (CreateTodoDTO.mk title content (Some (default "pending" status)))
          | _, _, _ => None
          end
      | None => None
      end
  | _ => None
  end.

Definition UpdateTodoSchema (body : json) : option UpdateTodoDTO.t :=
  match body with
  | JObj o =>
      match get "version" o with
      | Some ver =>
          match optional titleSchema (get "title" o), optional asString (get "content" o),
                optional todoStatusSchema (get "status" o), versionSchema ver with
          | Some title, Some content, Some status, Some version =>
              Some (UpdateTodoDTO.mk title content status version)
          | _, _, _, _ => None
          end
      | None => None
      end
  | _ => None
  end.

Definition DeleteSchema (body : json) : option Z :=
  match body with
  | JObj o => match get "version" o with Some ver => versionSchema ver | None => None end
  | _ => None
  end.

Definition CreateNoteSchema (body : json) : option CreateNoteDTO.t :=
  match body with
  | JObj o =>
      match get "title" o with
      | Some ttl =>
          match titleSchema ttl, optional asString (get "content" o) with
          | Some title, Some content => Some (CreateNoteDTO.mk title content)
          | _, _ => None
          end
      | None => None
      end
  | _ => None
  end.

Definition UpdateNoteSchema (body : json) : option UpdateNoteDTO.t :=
  match body with
  | JObj o =>
      match get "version" o with
      | Some ver =>
          match optional titleSchema (get "title" o), optional asString (get "content" o),
                versionSchema ver with
          | Some title, Some content, Some version =>
              Some (UpdateNoteDTO.mk title content version)
          | _, _, _ => None
          end
      | None => None
      end
  | _ => None
  end.

(** A controller method: parse the body, call the service, and answer a
    refused body with the validation error. *)
Definition controller {D T} (schema : json -> option D) (invalid : string)
    (service : D -> M (ServiceResponse.t T)) (body : json) : M (ServiceResponse.t T) :=
  try_catch
    (await dto <- lift (schema body) ZodError;
     service dto)%repo
    (fun _ => ret (ServiceResponseBuilder.validationError invalid)).

Module TodosController.

Definition createTodo `{Runtime} (env : Env) (body : json) : M (ServiceResponse.t Row.t) :=
  controller CreateTodoSchema "Invalid todo data" (TodosService.createTodo env) body.

Definition updateTodo `{Runtime} (env : Env) (id : string) (body : json)
    : M (ServiceResponse.t Row.t) :=
  controller UpdateTodoSchema "Invalid update data" (TodosService.updateTodo env id) body.

Definition deleteTodo (env : Env) (id : string) (body : json) : M (ServiceResponse.t Row.t) :=
  controller DeleteSchema "Invalid delete data" (TodosService.deleteTodo env id) body.

End TodosController.

Module NotesController.

Definition createNote `{Runtime} (env : Env) (body : json) : M (ServiceResponse.t Row.t) :=
  controller CreateNoteSchema "Invalid note data" (NotesService.createNote env) body.

Definition updateNote `{Runtime} (env : Env) (id : string) (body : json)
    : M (ServiceResponse.t Row.t) :=
  controller UpdateNoteSchema "Invalid update data" (NotesService.updateNote env id) body.

Definition deleteNote (env : Env) (id : string) (body : json) : M (ServiceResponse.t Row.t) :=
  controller DeleteSchema "Invalid delete data" (NotesService.deleteNote env id) body.

End NotesController.

(** ** A concrete runtime and sample data

    For evaluation the two library checks are instantiated by shape
    recognisers: the 8-4-4-4-12 hexadecimal text of a UUID, and the text
    [Date.prototype.toISOString] produces (which the client sends). *)

Definition isDigit (c : ascii) : bool :=
  let n := nat_of_ascii c in (48 <=? n)%nat && (n <=? 57)%nat.

Definition isHex (c : ascii) : bool :=
  let n := nat_of_ascii c in
  isDigit c || ((65 <=? n)%nat && (n <=? 70)%nat) || ((97 <=? n)%nat && (n <=? 102)%nat).

(** In a pattern [d] stands for a digit, [h] for a hexadecimal digit and
    any other character for itself. *)
Fixpoint shaped (pattern s : string) : bool :=
  match pattern, s with
  | EmptyString, EmptyString => true
  | String p pattern', String c s' =>
      (if Ascii.eqb p "d" then isDigit c
       else if Ascii.eqb p "h" then isHex c
       else Ascii.eqb p c)
      && shaped pattern' s'
  | _, _ => false
  end.

Definition uuidShape (s : string) : bool :=
  shaped "hhhhhhhh-hhhh-hhhh-hhhh-hhhhhhhhhhhh" s.

Definition isoInstant (s : string) : option DateTime :=
  if shaped "dddd-dd-ddTdd:dd:dd.dddZ" s then Some s else None.

Definition sampleRuntime : Runtime :=
  {| isUUID := uuidShape; parseDateTime := isoInstant |}.

Definition emptyStore : Store := mkStore ∅ ∅ [] ∅.

Definition sampleEnv : Env := mkEnv "2026-02-01T10:00:00.000Z" "c0ffee00-0000-4000-8000-000000000001".
Definition laterEnv : Env := mkEnv "2026-02-01T11:00:00.000Z" "c0ffee00-0000-4000-8000-000000000002".

Definition op1 : string := "11111111-1111-4111-8111-111111111111".
Definition op2 : string := "22222222-2222-4222-8222-222222222222".
Definition op3 : string := "33333333-3333-4333-8333-333333333333".

(** Scenario A of the specification and the store it leaves. *)
Definition createT1 : SyncOperation.t :=
  SyncOperation.mk op1 CREATE Todos
    [("id", JStr "t1"); ("title", JStr "buy milk"); ("status", JStr "pending")].

Definition rowT1 : Row.t :=
  Row.mk "t1" "buy milk" None (Some "pending") 1 (now sampleEnv) (now sampleEnv) None.

Definition storeT1 : Store :=
  mkStore {[ "t1" := rowT1 ]} ∅ []
          {[ op1 := ProcessedOperation.mk CREATE Todos (now sampleEnv) ]}.

(** A versioned update of [t1] at version 1, and the store after it. *)
Definition rowT1v2 : Row.t :=
  Row.mk "t1" "buy bread" None (Some "pending") 2 (now sampleEnv) (now laterEnv) None.

Definition storeT1v2 : Store :=
  mkStore {[ "t1" := rowT1v2 ]} ∅ []
          {[ op1 := ProcessedOperation.mk CREATE Todos (now sampleEnv) ]}.

(** A CREATE whose payload carries [version] and [deletedAt]. *)
Definition createDeleted : SyncOperation.t :=
  SyncOperation.mk op1 CREATE Todos
    [("id", JStr "t1"); ("title", JStr "buy milk"); ("version", JNum 7);
     ("deletedAt", JStr "2024-01-01T00:00:00.000Z")].

Definition rowCreatedDeleted : Row.t :=
  Row.mk "t1" "buy milk" None (Some "pending") 1 (now sampleEnv) (now sampleEnv)
         (Some "2024-01-01T00:00:00.000Z").

Definition storeCreatedDeleted : Store :=
  mkStore {[ "t1" := rowCreatedDeleted ]} ∅ []
          {[ op1 := ProcessedOperation.mk CREATE Todos (now sampleEnv) ]}.

(** An UPDATE of a record that does not exist, and the conflict it leaves. *)
Definition updateT9 : SyncOperation.t :=
  SyncOperation.mk op2 UPDATE Todos
    [("id", JStr "t9"); ("title", JStr "buy bread"); ("version", JNum 1)].

Definition conflictT9 : Conflict.t :=
  Conflict.mk (uuid laterEnv) op2 Todos "t9" None (SyncOperation.data updateT9) 0 1
              PENDING None None (now laterEnv).

Definition storeConflictT9 : Store := mkStore ∅ ∅ [conflictT9] ∅.



(** A tombstone at version 3 and an UPDATE sent at that version. *)
Definition tombstoneT1 : Row.t :=
  Row.mk "t1" "buy bread" None (Some "pending") 3 (now sampleEnv) (now laterEnv)
         (Some (now laterEnv)).

Definition storeTombstone : Store := mkStore {[ "t1" := tombstoneT1 ]} ∅ [] ∅.

Definition updateTombstone : SyncOperation.t :=
  SyncOperation.mk op2 UPDATE Todos
    [("id", JStr "t1"); ("title", JStr "buy eggs"); ("version", JNum 3)].

(** Request bodies: one whose two operations share an [operationId], one
    whose [operationId] is not a uuid. *)
Definition wireOperation (oid action : string) (data : object) : json :=
  JObj [("operationId", JStr oid); ("action", JStr action); ("table", JStr "todos");
        ("data", JObj data)].

Definition repeatedIdItems : list json :=
  [wireOperation op1 "CREATE" (SyncOperation.data createT1);
   wireOperation op1 "DELETE" [("id", JStr "t1"); ("version", JNum 1)]].

Definition repeatedIdOperations : list SyncOperation.t :=
  [createT1;
   SyncOperation.mk op1 DELETE Todos [("id", JStr "t1"); ("version", JNum 1)]].

Definition repeatedIdResults : list OperationResult.t :=
  [OperationResult.mk op1 APPLIED (Some (Text "Record created successfully")) (Some rowT1) None;
   OperationResult.mk op1 ERROR (Some (Text "Operation already processed")) None None].

Definition nonUuidItem : json :=
  wireOperation "o1" "CREATE" (SyncOperation.data createT1).

Definition sampleOracle (i : nat) : Env :=
  match i with O => sampleEnv | _ => laterEnv end.

(** ** The writers of the store

    The service methods the controllers call that write; the queries
    ([findAll], [getById], the statistics) return the store they were
    given. *)

Inductive call :=
| SyncOperationCall (env : Env) (operation : SyncOperation.t)
| ResolveConflictCall (env : Env) (id : string) (dto : ResolveConflictDTO.t)
| DismissConflictCall (env : Env) (id : string)
| CreateTodoCall (env : Env) (dto : CreateTodoDTO.t)
| UpdateTodoCall (env : Env) (id : string) (dto : UpdateTodoDTO.t)
| DeleteTodoCall (env : Env) (id : string) (version : Z)
| CreateNoteCall (env : Env) (dto : CreateNoteDTO.t)
| UpdateNoteCall (env : Env) (id : string) (dto : UpdateNoteDTO.t)
| DeleteNoteCall (env : Env) (id : string) (version : Z).

Definition perform `{Runtime} (c : call) (s : Store) : Store :=
  match c with
  | SyncOperationCall env operation => snd (processSingleOperation env operation s)
  | ResolveConflictCall env id dto => snd (resolveConflict env id dto s)
  | DismissConflictCall env id => snd (dismissConflict env id s)
  | CreateTodoCall env dto => snd (TodosService.createTodo env dto s)
  | UpdateTodoCall env id dto => snd (TodosService.updateTodo env id dto s)
  | DeleteTodoCall env id version => snd (TodosService.deleteTodo env id version s)
  | CreateNoteCall env dto => snd (NotesService.createNote env dto s)
  | UpdateNoteCall env id dto => snd (NotesService.updateNote env id dto s)
  | DeleteNoteCall env id version => snd (NotesService.deleteNote env id version s)
  end.

Definition performAll `{Runtime} (cs : list call) (s : Store) : Store :=
  foldl (fun s c => perform c s) s cs.

(** The stores the server can be in: those some sequence of calls leads
    to from the empty database. *)
Definition reachable `{Runtime} (s : Store) : Prop :=
  exists cs, performAll cs emptyStore = s.

(** ** Predicates used in the statements *)

(** The whole effect of an operation is one appended PENDING conflict,
    whose id the result carries. *)
Definition addsOneConflict (oid : string) (r : OperationResult.t) (s s' : Store) : Prop :=
  todos s' = todos s
  /\ notes s' = notes s
  /\ processedOperations s' = processedOperations s
  /\ exists c, conflicts s' = (conflicts s ++ [c])%list
               /\ Conflict.operationId c = oid
               /\ Conflict.status c = PENDING
               /\ OperationResult.conflictId r = Some (Conflict.id c).

(** A successful mutation of the record [id] of table [t]: a versioned
    update or soft delete that returns a row, or a resolution, answered
    with success, of a conflict on that record. *)
Inductive mutation `{Runtime} (t : TableName) (id : string) (s s' : Store) : Prop :=
| versioned_update env clientVersion data r' :
    updateRecordWithVersionCheck env t (JStr id) clientVersion data s = (Returned (Some r'), s') ->
    mutation t id s s'
| versioned_delete env clientVersion r' :
    deleteRecordWithVersionCheck env t (JStr id) clientVersion s = (Returned (Some r'), s') ->
    mutation t id s s'
| resolution env cid dto c response :
    List.find (hasId cid) (conflicts s) = Some c ->
    Conflict.tableName c = t ->
    Conflict.recordId c = id ->
    resolveConflict env cid dto s = (Returned response, s') ->
    ServiceResponse.success response = true ->
    mutation t id s s'.

(** [n] successful mutations of the same record, one after the other. *)
Inductive mutations `{Runtime} (t : TableName) (id : string) : nat -> Store -> Store -> Prop :=
| mutations_none s : mutations t id O s s
| mutations_more n s s1 s' :
    mutation t id s s1 -> mutations t id n s1 s' -> mutations t id (S n) s s'.

(** An element of [operations] whose [operationId] is a string that
    passes the uuid check. *)
Definition operationIdIsUUID `{Runtime} (item : json) : bool :=
  match item with
  | JObj o => match get "operationId" o with
              | Some (JStr oid) => isUUID oid
              | _ => false
              end
  | _ => false
  end.

(** A row sits under its own id, its version is a positive INTEGER, and
    it has a [status] exactly when it is a todo. *)
Definition rowWellFormed (t : TableName) (key : string) (r : Row.t) : Prop :=
  Row.id r = key
  /\ 1 <= Row.version r <= INT4_MAX
  /\ (is_Some (Row.status r) <-> t = Todos).

(** The resolution columns of a conflict agree with its status. *)
Definition lifecycleConsistent (c : Conflict.t) : Prop :=
  match Conflict.status c with
  | PENDING => Conflict.resolvedAt c = None /\ Conflict.resolvedData c = None
  | RESOLVED => is_Some (Conflict.resolvedAt c) /\ is_Some (Conflict.resolvedData c)
  | DISMISSED => is_Some (Conflict.resolvedAt c) /\ Conflict.resolvedData c = None
  end.

(** [serverVersion] is 0 for a conflict on an absent record and otherwise
    the version of the snapshot, which is a snapshot of [recordId]. *)
Definition snapshotConsistent (c : Conflict.t) : Prop :=
  match Conflict.serverData c with
  | None => Conflict.serverVersion c = 0
  | Some snapshot =>
      1 <= Conflict.serverVersion c
      /\ get "version" snapshot = Some (JNum (Conflict.serverVersion c))
      /\ get "id" snapshot = Some (JStr (Conflict.recordId c))
  end.

Definition wellFormed (s : Store) : Prop :=
  (forall t key r, rows t s !! key = Some r -> rowWellFormed t key r)
  /\ (forall c, c ∈ conflicts s -> lifecycleConsistent c /\ snapshotConsistent c)
  /\ NoDup (map Conflict.operationId (conflicts s)).

(** What an operation that got the result [r] has written: nothing for
    ERROR, one conflict for CONFLICT, and for APPLIED its ledger entry
    and at most one row of its table, the one in [r]. *)
Definition operationEffect (env : Env) (oid : string) (action : OperationAction)
    (t : TableName) (data : object) (r : OperationResult.t) (s s' : Store) : Prop :=
  match OperationResult.status r with
  | ERROR => s' = s
  | CONFLICT => addsOneConflict oid r s s'
  | APPLIED =>
      processedOperations s !! oid = None
      /\ processedOperations s'
         = <[oid := ProcessedOperation.mk action t (now env)]> (processedOperations s)
      /\ conflicts s' = conflicts s
      /\ (forall t', t' <> t -> rows t' s' = rows t' s)
      /\ match OperationResult.data r with
         | None => action = DELETE /\ rows t s' = rows t s
         | Some row =>
             exists key,
               rows t s' = <[key := row]> (rows t s)
               /\ match rows t s !! key with
                  | None =>
                      action = CREATE
                      /\ Row.id row = key
                      /\ Row.version row = 1
                      /\ (is_Some (Row.status row) <-> t = Todos)
                  | Some old =>
                      action <> CREATE
                      /\ get "id" data = Some (JStr key)
                      /\ get "version" data = Some (JNum (Row.version old))
                      /\ Row.deletedAt old = None
                      /\ Row.id row = Row.id old
                      /\ Row.version row = Row.version old + 1
                      /\ Row.version row <= INT4_MAX
                      /\ (is_Some (Row.status row) <-> is_Some (Row.status old))
                  end
         end
  end.

(** The payload a resolution selects, and the conflict once resolved
    with it or dismissed. *)
Definition selectedData (dto : ResolveConflictDTO.t) (c : Conflict.t) : option object :=
  match ResolveConflictDTO.resolution dto with
  | CLIENT => Some (Conflict.clientData c)
  | SERVER => Conflict.serverData c
  | CUSTOM => ResolveConflictDTO.resolvedData dto
  end.

Definition closedAs (st : ConflictStatus) (at_ : DateTime) (resolvedData : option object)
    (c : Conflict.t) : Conflict.t :=
  Conflict.mk (Conflict.id c) (Conflict.operationId c) (Conflict.tableName c)
    (Conflict.recordId c) (Conflict.serverData c) (Conflict.clientData c)
    (Conflict.serverVersion c) (Conflict.clientVersion c) st (Some at_) resolvedData
    (Conflict.createdAt c).

(** How a call may change what a table holds under [key]: not at all,
    a new row of that id at version 1, or a row of the same id one
    version above the row it replaces. *)
Definition rowStep (t : TableName) (key : string) (before after : option Row.t) : Prop :=
  after = before
  \/ match before, after with
     | None, Some row =>
         Row.id row = key
         /\ Row.version row = 1
         /\ (is_Some (Row.status row) <-> t = Todos)
     | Some old, Some row =>
         Row.id row = Row.id old
         /\ Row.version row = Row.version old + 1
         /\ Row.version row <= INT4_MAX
         /\ (is_Some (Row.status row) <-> is_Some (Row.status old))
     | _, None => False
     end.

(** A conflict as it is recorded against the store [s]: PENDING, with no
    resolution yet, under an [operationId] no conflict has, and with the
    record of [s] as its snapshot. *)
Definition opened (s : Store) (c : Conflict.t) : Prop :=
  Conflict.status c = PENDING
  /\ Conflict.resolvedAt c = None
  /\ Conflict.resolvedData c = None
  /\ (Conflict.operationId c ∉ map Conflict.operationId (conflicts s))
  /\ match Conflict.serverData c with
     | None => Conflict.serverVersion c = 0
     | Some snapshot =>
         exists rec,
           rows (Conflict.tableName c) s !! Conflict.recordId c = Some rec
           /\ snapshot = rowObject rec
           /\ Conflict.serverVersion c = Row.version rec
     end.

(** How a call may change the conflicts: not at all, one opened at the
    end, or the PENDING one that [findById] finds closed in place. *)
Definition conflictsStep (s s' : Store) : Prop :=
  conflicts s' = conflicts s
  \/ (exists c, conflicts s' = (conflicts s ++ [c])%list /\ opened s c)
  \/ (exists cid c c',
        List.find (hasId cid) (conflicts s) = Some c
        /\ Conflict.status c = PENDING
        /\ conflicts s' = replaceConflict cid c' (conflicts s)
        /\ exists at_,
             c' = closedAs DISMISSED at_ (Conflict.resolvedData c) c
             \/ exists chosen, c' = closedAs RESOLVED at_ (Some chosen) c).

Definition step (s s' : Store) : Prop :=
  (forall t key, rowStep t key (rows t s !! key) (rows t s' !! key))
  /\ processedOperations s ⊆ processedOperations s'
  /\ conflictsStep s s'.

(** ** Further sample data *)

(** An UPDATE and a DELETE of [t1] at its version 1, and the stores
    they leave when applied to [storeT1]. *)
Definition updateT1 : SyncOperation.t :=
  SyncOperation.mk op2 UPDATE Todos
    [("id", JStr "t1"); ("title", JStr "buy bread"); ("version", JNum 1)].

Definition storeUpdatedT1 : Store :=
  mkStore {[ "t1" := rowT1v2 ]} ∅ []
    (<[op2 := ProcessedOperation.mk UPDATE Todos (now laterEnv)]>
       {[ op1 := ProcessedOperation.mk CREATE Todos (now sampleEnv) ]}).


Definition tombstoneT1v2 : Row.t :=
  Row.mk "t1" "buy milk" None (Some "pending") 2 (now sampleEnv) (now laterEnv)
         (Some (now laterEnv)).

(** An UPDATE that still carries version 1 when [t1] is at version 2,
    the conflict it opens, and that conflict resolved with the client's
    data and dismissed. *)
Definition staleUpdateT1 : SyncOperation.t :=
  SyncOperation.mk op3 UPDATE Todos
    [("id", JStr "t1"); ("title", JStr "buy eggs"); ("version", JNum 1)].

Definition conflictT1 : Conflict.t :=
  Conflict.mk (uuid laterEnv) op3 Todos "t1" (Some (rowObject rowT1v2))
    (SyncOperation.data staleUpdateT1) 2 1 PENDING None None (now laterEnv).

Definition storeConflictT1 : Store :=
  mkStore {[ "t1" := rowT1v2 ]} ∅ [conflictT1]
          {[ op1 := ProcessedOperation.mk CREATE Todos (now sampleEnv) ]}.

Definition resolveEnv : Env :=
  mkEnv "2026-02-01T12:00:00.000Z" "c0ffee00-0000-4000-8000-000000000003".

Definition rowT1v3 : Row.t :=
  Row.mk "t1" "buy eggs" None (Some "pending") 3 (now sampleEnv) (now resolveEnv) None.

Definition resolvedT1 : Conflict.t :=
  closedAs RESOLVED (now resolveEnv) (Some (SyncOperation.data staleUpdateT1)) conflictT1.

Definition storeResolvedT1 : Store :=
  mkStore {[ "t1" := rowT1v3 ]} ∅ [resolvedT1]
          {[ op1 := ProcessedOperation.mk CREATE Todos (now sampleEnv) ]}.

Definition dismissedT1 : Conflict.t := closedAs DISMISSED (now resolveEnv) None conflictT1.

Definition storeDismissedT1 : Store :=
  mkStore {[ "t1" := rowT1v2 ]} ∅ [dismissedT1]
          {[ op1 := ProcessedOperation.mk CREATE Todos (now sampleEnv) ]}.

(** A CRUD update of [t1] at version 1, and a sequence of calls: the
    record is created and updated by sync, a stale update opens a
    conflict, which is resolved, and the record is deleted through the
    CRUD route. *)
Definition renameT1 : UpdateTodoDTO.t := UpdateTodoDTO.mk (Some "buy bread") None None 1.

Definition sampleCalls : list call :=
  [SyncOperationCall sampleEnv createT1;
   SyncOperationCall laterEnv updateT1;
   SyncOperationCall laterEnv staleUpdateT1;
   ResolveConflictCall resolveEnv (uuid laterEnv) (ResolveConflictDTO.mk None CLIENT);
   DeleteTodoCall resolveEnv "t1" 3].

(** * Properties *)

(** ** Objects *)

Lemma get_omit_ne k k' o : k ≠ k' -> get k' (omit k o) = get k' o.
Proof.
  intros Hne. induction o as [|[k0 v] o IH]; simpl; [done|].
  destruct (String.eqb k k0) eqn:E; simpl.
  - apply String.eqb_eq in E. subst k0.
    destruct (String.eqb k' k) eqn:E'; [|done].
    apply String.eqb_eq in E'. congruence.
  - by rewrite IH.
Qed.

Lemma get_omit_eq k o : get k (omit k o) = None.
Proof.
  induction o as [|[k0 v] o IH]; simpl; [done|].
  destruct (String.eqb k k0) eqn:E; simpl; [done|]. by rewrite E.
Qed.

Lemma get_app k (o1 o2 : object) :
  get k (o1 ++ o2)%list = match get k o1 with Some v => Some v | None => get k o2 end.
Proof.
  induction o1 as [|[k0 v] o1 IH]; simpl; [done|].
  by destruct (String.eqb k k0).
Qed.

Lemma get_assign_eq k v o : get k (assign k v o) = Some v.
Proof.
  unfold assign. rewrite get_app, get_omit_eq. simpl. by rewrite String.eqb_refl.
Qed.

Lemma get_assign_ne k k' v o : k ≠ k' -> get k' (assign k v o) = get k' o.
Proof.
  intros Hne. unfold assign. rewrite get_app, get_omit_ne by done. simpl.
  destruct (String.eqb k' k) eqn:E.
  - apply String.eqb_eq in E. congruence.
  - by destruct (get k' o).
Qed.

Lemma storableObject_cons k v (o : object) :
  storableObject ((k, v) :: o) = storable k && storableJson v && storableObject o.
Proof. done. Qed.

Lemma storableObject_get k (o : object) v :
  storableObject o = true -> get k o = Some v -> storableJson v = true.
Proof.
  induction o as [|[k0 x] o IH]; [done|].
  rewrite storableObject_cons. intros [[_ Hx]%andb_true_iff Ho]%andb_true_iff. simpl.
  destruct (String.eqb k k0); [by intros [= <-]|by apply IH].
Qed.

Lemma storableObject_app (o1 o2 : object) :
  storableObject (o1 ++ o2)%list = storableObject o1 && storableObject o2.
Proof.
  induction o1 as [|[k x] o1 IH]; [done|].
  change (((k, x) :: o1) ++ o2)%list with ((k, x) :: (o1 ++ o2))%list.
  rewrite !storableObject_cons, IH. by rewrite andb_assoc.
Qed.

Section Properties.
Context `{R : Runtime}.

Lemma readPatch_assign_version q v data :
  readPatch q (assign "version" v data) = readPatch q data.
Proof. unfold readPatch. by rewrite !get_assign_ne. Qed.

(** ** The repository calls, one by one *)

Lemma operationExists_spec oid s :
  operationExists oid s
  = (Returned (match processedOperations s !! oid with Some _ => true | None => false end), s).
Proof. done. Qed.

Lemma findRecordById_store t id s o s' :
  findRecordById t id s = (o, s') -> s' = s.
Proof. unfold findRecordById. intros H. by repeat case_match; simplify_eq. Qed.

Lemma findRecordById_found t id s r s' :
  findRecordById t (JStr id) s = (Returned r, s') -> r = rows t s !! id.
Proof.
  unfold findRecordById. cbn [asString]. intros H.
  destruct (rows t s !! id); [by simplify_eq|]. by destruct (storable id); simplify_eq.
Qed.

Lemma findRecordById_hit t id s r :
  rows t s !! id = Some r -> findRecordById t (JStr id) s = (Returned (Some r), s).
Proof. intros H. unfold findRecordById. cbn [asString]. by rewrite H. Qed.


Lemma createConflict_spec env oid t rid sd cd sv cv s o s' :
  createConflict env oid t rid sd cd sv cv s = (o, s') ->
  match o with
  | Returned c =>
      s' = set_conflicts (conflicts s ++ [c])%list s
      /\ Conflict.id c = uuid env
      /\ Conflict.operationId c = oid
      /\ Conflict.status c = PENDING
  | Thrown _ => s' = s
  end.
Proof.
  unfold createConflict. intros H.
  repeat case_match; simplify_eq; done.
Qed.

Lemma markOperationProcessed_spec env oid a t s o s' :
  markOperationProcessed env oid a t s = (o, s') ->
  match o with
  | Returned _ =>
      processedOperations s !! oid = None
      /\ s' = set_processedOperations
                (<[oid := ProcessedOperation.mk a t (now env)]> (processedOperations s)) s
  | Thrown _ => s' = s
  end.
Proof.
  unfold markOperationProcessed. intros H.
  repeat case_match; simplify_eq; done.
Qed.

(** ** Idempotency *)

(** C2.  An operation whose [operationId] is in the processed-operations
    ledger gets the result ERROR with the message "Operation already
    processed", and the store after it is the store before it: no
    record, no conflict and no ledger entry is written. *)
Theorem processed_operation_is_rejected env (op : SyncOperation.t) s :
  is_Some (processedOperations s !! SyncOperation.operationId op) ->
  processSingleOperation env op s
  = (Returned (OperationResult.mk (SyncOperation.operationId op) ERROR
                 (Some (Text "Operation already processed")) None None), s).
Proof.
  intros [e He].
  unfold processSingleOperation, try_catch, bind, conflictExists.
  by rewrite operationExists_spec, He.
Qed.

(** ** Conflicts leave records and ledger alone *)

Lemma handleCreate_status env oid t data s o s' :
  handleCreate env oid t data s = (o, s') ->
  exists r, o = Returned r /\ OperationResult.status r <> CONFLICT.
Proof.
  unfold handleCreate, try_catch, bind, ret.
  destruct (createRecord env t data s) as [[rec|e] s1]; simpl.
  - destruct (markOperationProcessed env oid CREATE t s1) as [[[]|e] s2];
      intros [= <- _]; eexists; (split; [done|]); done.
  - intros [= <- _]; eexists; (split; [done|]); done.
Qed.

Lemma handleUpdate_conflict env oid t data s r s' :
  handleUpdate env oid t data s = (Returned r, s') ->
  OperationResult.status r = CONFLICT ->
  addsOneConflict oid r s s'.
Proof.
  unfold handleUpdate, bind, ret.
  destruct (missingIdOrVersion _ _); [by intros [= <- _]|].
  destruct (findRecordById _ _ s) as [[rec|e] s1] eqn:Hf; [|done].
  apply findRecordById_store in Hf as ->.
  destruct rec as [rec|].
  - destruct (versionDiffers _ _).
    + destruct (createConflict _ _ _ _ _ _ _ _ s) as [[c|e] s2] eqn:Hc; [|done].
      apply createConflict_spec in Hc as (-> & Hid & Hop & Hst).
      intros [= <- <-] _. repeat split; try by destruct t.
      exists c. by rewrite Hid.
    + destruct (updateRecordWithVersionCheck _ _ _ _ _ s) as [[[u|]|e] s2]; [| |done].
      * destruct (markOperationProcessed _ _ _ _ s2) as [[[]|e] s3]; [|done].
        by intros [= <- _].
      * by intros [= <- _].
  - destruct (createConflict _ _ _ _ _ _ _ _ s) as [[c|e] s2] eqn:Hc; [|done].
    apply createConflict_spec in Hc as (-> & Hid & Hop & Hst).
    intros [= <- <-] _. repeat split; try by destruct t.
    exists c. by rewrite Hid.
Qed.

Lemma handleDelete_conflict env oid t data s r s' :
  handleDelete env oid t data s = (Returned r, s') ->
  OperationResult.status r = CONFLICT ->
  addsOneConflict oid r s s'.
Proof.
  unfold handleDelete, bind, ret.
  destruct (missingIdOrVersion _ _); [by intros [= <- _]|].
  destruct (findRecordById _ _ s) as [[rec|e] s1] eqn:Hf; [|done].
  apply findRecordById_store in Hf as ->.
  destruct rec as [rec|].
  - destruct (tombstoned rec).
    { destruct (markOperationProcessed _ _ _ _ s) as [[[]|e] s3]; [|done].
      by intros [= <- _]. }
    destruct (versionDiffers _ _).
    + destruct (createConflict _ _ _ _ _ _ _ _ s) as [[c|e] s2] eqn:Hc; [|done].
      apply createConflict_spec in Hc as (-> & Hid & Hop & Hst).
      intros [= <- <-] _. repeat split; try by destruct t.
      exists c. by rewrite Hid.
    + destruct (deleteRecordWithVersionCheck _ _ _ _ s) as [[[u|]|e] s2]; [| |done].
      * destruct (markOperationProcessed _ _ _ _ s2) as [[[]|e] s3]; [|done].
        by intros [= <- _].
      * by intros [= <- _].
  - destruct (markOperationProcessed _ _ _ _ s) as [[[]|e] s3]; [|done].
    by intros [= <- _].
Qed.

(** C4.  When the result of an operation is CONFLICT, the two record
    tables and the ledger are what they were before the operation, and
    the conflict table has grown by exactly one row: a PENDING conflict
    for the operation, whose id the result carries. *)
Theorem conflict_result_only_adds_a_conflict env (op : SyncOperation.t) s r s' :
  processSingleOperation env op s = (Returned r, s') ->
  OperationResult.status r = CONFLICT ->
  todos s' = todos s
  /\ notes s' = notes s
  /\ processedOperations s' = processedOperations s
  /\ exists c, conflicts s' = (conflicts s ++ [c])%list
               /\ Conflict.operationId c = SyncOperation.operationId op
               /\ Conflict.status c = PENDING
               /\ OperationResult.conflictId r = Some (Conflict.id c).
Proof.
  unfold processSingleOperation, try_catch, bind, conflictExists.
  rewrite operationExists_spec.
  destruct (processedOperations s !! _); [by intros [= <- _]|].
  destruct (SyncOperation.action op).
  - destruct (handleCreate _ _ _ _ s) as [o s1] eqn:Hc.
    destruct (handleCreate_status _ _ _ _ _ _ _ Hc) as (r0 & -> & Hne).
    intros [= <- _]. done.
  - destruct (handleUpdate _ _ _ _ s) as [[r0|e] s1] eqn:Hu.
    + intros [= <- <-]. by eapply handleUpdate_conflict.
    + by intros [= <- _].
  - destruct (handleDelete _ _ _ _ s) as [[r0|e] s1] eqn:Hd.
    + intros [= <- <-]. by eapply handleDelete_conflict.
    + by intros [= <- _].
Qed.

(** ** Updates in the record tables *)

Lemma updateRow_spec env t rid wv live p vw s o s' :
  updateRow env t rid wv live p vw s = (o, s') ->
  match o with
  | Returned r' =>
      exists r, rows t s !! rid = Some r
                /\ matches wv live r = true
                /\ r' = applyPatch env p vw r
                /\ s' = set_table t (<[rid := r']> (rows t s)) s
  | Thrown _ => s' = s
  end.
Proof.
  unfold updateRow. intros H.
  repeat case_match; simplify_eq; eauto.
Qed.

Lemma prismaUpdate_spec env t w data s o s' :
  prismaUpdate env t w data s = (o, s') ->
  match o with
  | Returned r' =>
      exists rid wv vw p r,
        asString (w_id w) = Some rid
        /\ optional asInt (w_version w) = Some wv
        /\ optional asVersionWrite (get "version" data) = Some vw
        /\ readPatch Update data = Some p
        /\ rows t s !! rid = Some r
        /\ matches wv (w_live w) r = true
        /\ r' = applyPatch env p vw r
        /\ s' = set_table t (<[rid := r']> (rows t s)) s
  | Thrown _ => s' = s
  end.
Proof.
  unfold prismaUpdate. intros H.
  destruct (negb _); [by simplify_eq|].
  destruct (asString _) as [rid|] eqn:?; [|by simplify_eq].
  destruct (optional asInt _) as [wv|] eqn:?; [|by simplify_eq].
  destruct (optional asVersionWrite _) as [vw|] eqn:?; [|by simplify_eq].
  destruct (readPatch _) as [p|] eqn:?; [|by simplify_eq].
  apply updateRow_spec in H. destruct o; [|done].
  destruct H as (r & ? & ? & ? & ?). by exists rid, wv, vw, p, r.
Qed.

Lemma matches_tombstone wv r :
  tombstoned r = true -> matches wv true r = false.
Proof.
  unfold tombstoned, matches. destruct (Row.deletedAt r); [|done].
  intros _. by rewrite andb_false_r.
Qed.

Lemma rows_set_table t t' m s :
  rows t' (set_table t m s) = if decide (t = t') then m else rows t' s.
Proof. by destruct t, t'. Qed.

Lemma nonempty_truthy id : id <> "" -> truthy (JStr id) = true.
Proof. intros Hne. simpl. by apply String.eqb_neq in Hne as ->. Qed.

(** ** Tolerant delete *)


(** ** Update of an absent record *)


(** ** Update of a tombstone *)

(** C9.  For an UPDATE whose target is a tombstone and whose [version] is
    the tombstone's current version, the versioned update matches no row
    (it returns [null] and writes nothing), and the operation's result is
    ERROR, with the whole store, records and ledger included, left as it
    was. *)
Theorem update_of_tombstone_at_its_version_is_an_error env (op : SyncOperation.t) s id r :
  SyncOperation.action op = UPDATE ->
  get "id" (SyncOperation.data op) = Some (JStr id) ->
  rows (SyncOperation.table op) s !! id = Some r ->
  is_Some (Row.deletedAt r) ->
  get "version" (SyncOperation.data op) = Some (JNum (Row.version r)) ->
  updateRecordWithVersionCheck env (SyncOperation.table op) (JStr id) (JNum (Row.version r))
    (omit "version" (omit "id" (SyncOperation.data op))) s
  = (Returned None, s)
  /\ exists res,
       processSingleOperation env op s = (Returned res, s)
       /\ OperationResult.status res = ERROR.
Proof.
  intros Hact Hid Hr [d Hd] Hv.
  assert (updateRecordWithVersionCheck env (SyncOperation.table op) (JStr id)
            (JNum (Row.version r))
            (omit "version" (omit "id" (SyncOperation.data op))) s
          = (Returned None, s)) as Hupd.
  { unfold updateRecordWithVersionCheck, try_catch, bind, ret.
    destruct (prismaUpdate _ _ _ _ s) as [[r'|e] s1] eqn:Hp;
      apply prismaUpdate_spec in Hp.
    - destruct Hp as (rid & wv & vw & p & r0 & Hrid & _ & _ & _ & Hr0 & Hm & _).
      cbn in Hrid. simplify_eq. rewrite matches_tombstone in Hm; [done|].
      unfold tombstoned. by rewrite Hd.
    - by subst. }
  split; [done|].
  unfold processSingleOperation, try_catch, bind, conflictExists.
  rewrite operationExists_spec.
  destruct (processedOperations s !! _); [by eexists|].
  rewrite Hact. unfold handleUpdate. rewrite Hid, Hv.
  cbn [missingIdOrVersion default from_option Datatypes.id].
  destruct (truthy (JStr id)); cbn [negb]; [|by eexists].
  unfold bind, findRecordById. cbn [asString]. rewrite Hr.
  unfold versionDiffers. rewrite Z.eqb_refl. cbn [negb].
  rewrite Hupd. by eexists.
Qed.

(** ** Versions *)

Lemma increment_is_read data :
  optional asVersionWrite (get "version" (assign "version" increment1 data))
  = Some (Some (Increment 1)).
Proof. by rewrite get_assign_eq. Qed.

Lemma updateRow_increment env t rid wv live p s r' s' :
  updateRow env t rid wv live p (Some (Increment 1)) s = (Returned r', s') ->
  exists r, rows t s !! rid = Some r
            /\ rows t s' !! rid = Some r'
            /\ Row.version r' = Row.version r + 1
            /\ conflicts s' = conflicts s.
Proof.
  intros (r & Hr & _ & -> & ->)%updateRow_spec.
  exists r. rewrite rows_set_table. case_decide; [|done].
  rewrite lookup_insert_eq. repeat split; try done. by destruct t.
Qed.

Lemma prismaUpdate_increment env t id wv live data s r' s' :
  prismaUpdate env t (mkWhere (JStr id) wv live) (assign "version" increment1 data) s
  = (Returned r', s') ->
  exists r, rows t s !! id = Some r
            /\ rows t s' !! id = Some r'
            /\ Row.version r' = Row.version r + 1
            /\ conflicts s' = conflicts s.
Proof.
  unfold prismaUpdate. rewrite increment_is_read. cbn [w_id w_version w_live asString].
  intros H. repeat case_match; simplify_eq.
  apply updateRow_increment in H as (r & ? & ? & ? & ?). by exists r.
Qed.

Lemma markResolved_rows env cid o s c s' :
  markResolved env cid o s = (Returned c, s') ->
  todos s' = todos s /\ notes s' = notes s.
Proof. unfold markResolved. intros H. repeat case_match; by simplify_eq. Qed.

Lemma applyResolution_increment env cid c dataToApply s c' s' :
  applyResolution env cid c dataToApply s = (Returned c', s') ->
  exists r r', rows (Conflict.tableName c) s !! Conflict.recordId c = Some r
               /\ rows (Conflict.tableName c) s' !! Conflict.recordId c = Some r'
               /\ Row.version r' = Row.version r + 1.
Proof.
  unfold applyResolution. destruct dataToApply as [o|]; [|done].
  unfold bind, ret.
  destruct (prismaUpdate _ _ _ _ s) as [[r'|e] s1] eqn:Hp; [|done].
  apply prismaUpdate_increment in Hp as (r & Hr & Hr' & Hv & _).
  destruct (markResolved _ _ _ s1) as [[c1|e] s2] eqn:Hm; [|done].
  apply markResolved_rows in Hm as [Ht Hn].
  intros [= _ <-]. exists r, r'. repeat split; try done.
  rewrite <- Hr'. by destruct (Conflict.tableName c); simpl; rewrite ?Ht, ?Hn.
Qed.

Lemma resolveConflict_success env cid dto s response s' :
  resolveConflict env cid dto s = (Returned response, s') ->
  ServiceResponse.success response = true ->
  exists c dataToApply c',
    List.find (hasId cid) (conflicts s) = Some c
    /\ isPending c = true
    /\ applyResolution env cid c dataToApply s = (Returned c', s')
    /\ response = ServiceResponseBuilder.success "Conflict resolved successfully" c'.
Proof.
  unfold resolveConflict, try_catch, bind, ret, findById, transaction.
  destruct (List.find _ _) as [c|] eqn:Hc; [|by destruct (storable cid); intros [= <- _]].
  destruct (isPending c) eqn:Hpend; cbn [negb]; [|by intros [= <- _]].
  intros H Hs.
  destruct (ResolveConflictDTO.resolution dto);
    [ exists c, (Some (Conflict.clientData c))
    | exists c, (Conflict.serverData c)
    | destruct (ResolveConflictDTO.resolvedData dto) as [d|];
      [exists c, (Some d) | by simplify_eq] ];
    match type of H with
    | context [applyResolution ?a ?b ?c ?d ?e] =>
        destruct (applyResolution a b c d e) as [[c'|e'] s1]; simplify_eq; try done
    end;
    by exists c'.
Qed.

Lemma mutation_adds_one t id s s' :
  mutation t id s s' ->
  exists r r', rows t s !! id = Some r
               /\ rows t s' !! id = Some r'
               /\ Row.version r' = Row.version r + 1.
Proof.
  intros [env cv data r' H | env cv r' H | env cid dto c response Hc Ht Hid H Hs].
  - unfold updateRecordWithVersionCheck, try_catch, bind, ret in H.
    destruct (prismaUpdate _ _ _ _ s) as [[r1|e] s1] eqn:Hp; [|done].
    apply prismaUpdate_increment in Hp as (r & ? & ? & ? & _).
    simplify_eq. by exists r, r'.
  - unfold deleteRecordWithVersionCheck, try_catch, bind, ret in H.
    cbn [asString] in H.
    destruct (asInt cv) as [v|]; [|done].
    destruct (updateRow _ _ _ _ _ _ _ s) as [[r1|e] s1] eqn:Hp; [|done].
    apply updateRow_increment in Hp as (r & ? & ? & ? & _).
    simplify_eq. by exists r, r'.
  - apply resolveConflict_success in H as (c0 & d & c' & Hc0 & _ & Happ & _); [|done].
    simplify_eq.
    apply applyResolution_increment in Happ as (r & r' & ? & ? & ?).
    by exists r, r'.
Qed.

(** C3.  Each successful mutation of a record (a versioned update, a
    versioned soft delete, a conflict resolution) finds the record and
    leaves it with exactly its previous version plus one, which is
    strictly greater: along successful mutations the versions of a
    record increase strictly. *)
Theorem mutation_increments_version t id s s' :
  mutation t id s s' ->
  exists r r', rows t s !! id = Some r
               /\ rows t s' !! id = Some r'
               /\ Row.version r' = Row.version r + 1
               /\ Row.version r < Row.version r'.
Proof.
  intros (r & r' & Hr & Hr' & Hv)%mutation_adds_one.
  exists r, r'. repeat split; try done. lia.
Qed.

(** Along [n] successive mutations the version grows by exactly [n]. *)
Corollary mutations_add_up t id n s s' r :
  mutations t id n s s' ->
  rows t s !! id = Some r ->
  exists r', rows t s' !! id = Some r' /\ Row.version r' = Row.version r + Z.of_nat n.
Proof.
  intros Hn. revert r. induction Hn as [s | n s s1 s' Hstep _ IH]; intros r Hr.
  - exists r. split; [done|]. lia.
  - apply mutation_adds_one in Hstep as (r0 & r1 & Hr0 & Hr1 & Hv).
    simplify_eq. destruct (IH r1 Hr1) as (r' & Hr' & Hv').
    exists r'. split; [done|]. lia.
Qed.

(** ** Creation *)

Lemma prismaCreate_spec env t data s o s' :
  prismaCreate env t data s = (o, s') ->
  match o with
  | Returned r =>
      exists over p,
        optional asInt (get "version" data) = Some over
        /\ readPatch Create data = Some p
        /\ Row.version r = default 1 over
        /\ Row.deletedAt r = default None (p_deletedAt p)
        /\ rows t s !! Row.id r = None
        /\ s' = set_table t (<[Row.id r := r]> (rows t s)) s
  | Thrown _ => s' = s
  end.
Proof.
  unfold prismaCreate. intros H.
  repeat case_match; simplify_eq; try done; do 2 eexists; by repeat split.
Qed.

Lemma readPatch_deletedAt data p :
  readPatch Create data = Some p ->
  default None (p_deletedAt p)
  = match get "deletedAt" data with
    | Some (JStr d) => parseDateTime d
    | _ => None
    end.
Proof.
  change (readPatch Create data) with
    (match optional asString (get "title" data),
           optional asNullableString (get "content" data),
           optional asString (get "status" data),
           optional asDateTime (get "createdAt" data),
           optional asDateTime (get "updatedAt" data),
           optional asNullableDateTime (get "deletedAt" data) with
     | Some t, Some c, Some st, Some ca, Some ua, Some da => Some (mkPatch t c st ca ua da)
     | _, _, _, _, _, _ => None
     end).
  intros H.
  destruct (optional asNullableDateTime (get "deletedAt" data)) as [da|] eqn:Hda;
    [|repeat case_match; simplify_eq].
  assert (p_deletedAt p = da) as -> by (repeat case_match; by simplify_eq).
  unfold optional, asNullableDateTime in Hda.
  repeat case_match; by simplify_eq.
Qed.

(** C7, as the code has it.  A successful CREATE inserts a record that
    was not there, with [version = 1] whatever [version] the payload
    carries; its [deletedAt] is the payload's: NULL when the payload has
    no [deletedAt] or a [null] one, and otherwise the timestamp the
    client sent. *)
Theorem created_record_has_version_1_and_the_payload_deletedAt
    env (op : SyncOperation.t) s res s' :
  SyncOperation.action op = CREATE ->
  processSingleOperation env op s = (Returned res, s') ->
  OperationResult.status res = APPLIED ->
  exists row,
    OperationResult.data res = Some row
    /\ rows (SyncOperation.table op) s !! Row.id row = None
    /\ rows (SyncOperation.table op) s' !! Row.id row = Some row
    /\ Row.version row = 1
    /\ Row.deletedAt row
       = match get "deletedAt" (SyncOperation.data op) with
         | Some (JStr d) => parseDateTime d
         | _ => None
         end.
Proof.
  intros Hact.
  unfold processSingleOperation, try_catch, bind, conflictExists.
  rewrite operationExists_spec, Hact.
  destruct (processedOperations s !! _); [by intros [= <- _]|].
  unfold handleCreate, try_catch, bind, ret, createRecord.
  destruct (prismaCreate _ _ _ s) as [[row|e] s1] eqn:Hc; [|by intros [= <- _]].
  apply prismaCreate_spec in Hc as (over & p & Hover & Hp & Hv & Hd & Hnew & ->).
  rewrite get_assign_eq in Hover. cbn in Hover. simplify_eq.
  rewrite readPatch_assign_version in Hp.
  destruct (markOperationProcessed _ _ _ _ _) as [[[]|e] s2] eqn:Hm; [|by intros [= <- _]].
  apply markOperationProcessed_spec in Hm as [_ ->].
  intros [= <- <-] _. exists row. repeat split; try done.
  - destruct (SyncOperation.table op); simpl; by rewrite lookup_insert_eq.
  - rewrite Hd. by apply readPatch_deletedAt.
Qed.

(** ** The wire layer *)

Lemma parseAll_refuses {A} (schema : json -> option A) items item :
  item ∈ items -> schema item = None -> parseAll schema items = None.
Proof.
  intros Hin Hnone. induction items as [|x items IH]; simpl.
  - by apply elem_of_nil in Hin.
  - apply elem_of_cons in Hin as [<- | Hin].
    + by rewrite Hnone.
    + rewrite (IH Hin). by destruct (schema x).
Qed.

Lemma SyncOperationSchema_needs_uuid item :
  operationIdIsUUID item = false -> SyncOperationSchema item = None.
Proof.
  unfold operationIdIsUUID, SyncOperationSchema. intros H.
  repeat case_match; by simplify_eq.
Qed.

Lemma sync_refused oracle body s :
  SyncRequestSchema body = None ->
  sync oracle body s
  = (Returned (Handled (ServiceResponseBuilder.validationError "Invalid sync request")), s).
Proof. intros H. unfold sync, try_catch, bind, lift. by rewrite H. Qed.

(** C10.  A request whose [operations] contain an element whose
    [operationId] is not a string passing the uuid check is refused as
    a whole: the schema does not parse it, the response is the
    validation failure with status 400, and the store is untouched, so
    that none of its operations has been processed. *)
Theorem batch_with_a_non_uuid_operationId_is_rejected oracle fields items item s :
  get "operations" fields = Some (JArr items) ->
  item ∈ items ->
  operationIdIsUUID item = false ->
  let response := Handled (ServiceResponseBuilder.validationError "Invalid sync request") in
  SyncRequestSchema (JObj fields) = None
  /\ sync oracle (JObj fields) s = (Returned response, s)
  /\ httpStatus response = 400.
Proof.
  intros Hops Hin Hbad response.
  assert (SyncRequestSchema (JObj fields) = None) as Hnone.
  { unfold SyncRequestSchema. rewrite Hops.
    rewrite (parseAll_refuses _ _ item Hin (SyncOperationSchema_needs_uuid _ Hbad)).
    by destruct (_ && _). }
  split; [done|]. split; [by apply sync_refused|done].
Qed.

(** ** Every operation of an accepted batch gets its result *)

Lemma handleCreate_operationId env oid t data s r s' :
  handleCreate env oid t data s = (Returned r, s') -> OperationResult.operationId r = oid.
Proof.
  unfold handleCreate, try_catch, bind, ret. intros H.
  repeat case_match; by simplify_eq.
Qed.

Lemma handleUpdate_operationId env oid t data s r s' :
  handleUpdate env oid t data s = (Returned r, s') -> OperationResult.operationId r = oid.
Proof.
  unfold handleUpdate, bind, ret. intros H.
  repeat case_match; by simplify_eq.
Qed.

Lemma handleDelete_operationId env oid t data s r s' :
  handleDelete env oid t data s = (Returned r, s') -> OperationResult.operationId r = oid.
Proof.
  unfold handleDelete, bind, ret. intros H.
  repeat case_match; by simplify_eq.
Qed.

Lemma processSingleOperation_returns env (op : SyncOperation.t) s :
  exists r s',
    processSingleOperation env op s = (Returned r, s')
    /\ OperationResult.operationId r = SyncOperation.operationId op.
Proof.
  unfold processSingleOperation, try_catch, bind, conflictExists.
  rewrite operationExists_spec.
  destruct (processedOperations s !! _); [by do 2 eexists|].
  destruct (SyncOperation.action op).
  - destruct (handleCreate _ _ _ _ s) as [[r|e] s1] eqn:H; [|by do 2 eexists].
    apply handleCreate_operationId in H. by do 2 eexists.
  - destruct (handleUpdate _ _ _ _ s) as [[r|e] s1] eqn:H; [|by do 2 eexists].
    apply handleUpdate_operationId in H. by do 2 eexists.
  - destruct (handleDelete _ _ _ _ s) as [[r|e] s1] eqn:H; [|by do 2 eexists].
    apply handleDelete_operationId in H. by do 2 eexists.
Qed.

Lemma processSyncOperations_returns oracle (ops : list SyncOperation.t) s :
  exists results s',
    processSyncOperations oracle ops s = (Returned results, s')
    /\ map OperationResult.operationId results = map SyncOperation.operationId ops.
Proof.
  revert oracle s. induction ops as [|op ops IH]; intros oracle s.
  - by exists [], s.
  - cbn [processSyncOperations]. unfold bind.
    destruct (processSingleOperation_returns (oracle O) op s) as (r & s1 & -> & Hr).
    destruct (IH (fun i => oracle (S i)) s1) as (rs & s2 & -> & Hrs).
    exists (r :: rs), s2. split; [done|]. simpl. by rewrite Hr, Hrs.
Qed.

(** C8, as the code has it.  The request schema has no uniqueness rule:
    a batch in which two operations carry the same [operationId], and
    which satisfies the schema otherwise (1 to 100 elements, each one a
    well-formed operation), is not rejected.  The response has status
    200 and every operation of the batch, the repeated ones included,
    has gone through the sync processor in order and has its result. *)
Theorem batch_with_a_repeated_operationId_is_dispatched
    oracle fields items (ops : list SyncOperation.t) s i j a b :
  get "operations" fields = Some (JArr items) ->
  (1 <= length items <= 100)%nat ->
  parseAll SyncOperationSchema items = Some ops ->
  i <> j ->
  ops !! i = Some a ->
  ops !! j = Some b ->
  SyncOperation.operationId a = SyncOperation.operationId b ->
  exists results s',
    SyncRequestSchema (JObj fields) = Some ops
    /\ processSyncOperations oracle ops s = (Returned results, s')
    /\ sync oracle (JObj fields) s = (Returned (SyncCompleted results (summarize results)), s')
    /\ httpStatus (SyncCompleted results (summarize results)) = 200
    /\ map OperationResult.operationId results = map SyncOperation.operationId ops.
Proof.
  intros Hops [Hmin Hmax] Hparse _ _ _ _.
  assert (SyncRequestSchema (JObj fields) = Some ops) as Hschema.
  { unfold SyncRequestSchema. rewrite Hops.
    apply Nat.leb_le in Hmin, Hmax. by rewrite Hmin, Hmax. }
  destruct (processSyncOperations_returns oracle ops s) as (results & s' & Hrun & Hids).
  exists results, s'. repeat split; try done.
  unfold sync, try_catch, bind. rewrite Hschema. cbn [lift]. unfold ret at 1.
  by rewrite Hrun.
Qed.

(** ** Resolution of a conflict on an absent record *)

(** C1, on the code.  Resolving with SERVER a PENDING conflict whose
    [serverData] is [null] does not succeed: destructuring [null]
    throws inside the transaction, the answer is the internal error
    (status 500, "Failed to resolve conflict") and the store is
    unchanged, so the conflict is still PENDING. *)
Theorem resolving_an_absent_record_conflict_with_SERVER_fails env cid dto s c :
  List.find (hasId cid) (conflicts s) = Some c ->
  Conflict.status c = PENDING ->
  Conflict.serverData c = None ->
  ResolveConflictDTO.resolution dto = SERVER ->
  resolveConflict env cid dto s
  = (Returned (ServiceResponse.mk false "Failed to resolve conflict" None 500), s).
Proof.
  intros Hc Hpend Hdata Hres.
  unfold resolveConflict, try_catch, bind, findById, isPending.
  by rewrite Hc, Hpend, Hres, Hdata.
Qed.

End Properties.

(** * The properties on the sample data *)

Lemma processed_operation_is_rejected_on_replay :
  is_Some (processedOperations storeT1 !! SyncOperation.operationId createT1)
  /\ @processSingleOperation sampleRuntime laterEnv createT1 storeT1
     = (Returned (OperationResult.mk op1 ERROR (Some (Text "Operation already processed"))
                    None None), storeT1).
Proof.
  assert (is_Some (processedOperations storeT1 !! SyncOperation.operationId createT1)) as H.
  { eexists. vm_compute. reflexivity. }
  split; [exact H|].
  exact (@processed_operation_is_rejected sampleRuntime laterEnv createT1 storeT1 H).
Defined.

Lemma mutation_increments_version_on_update :
  @mutation sampleRuntime Todos "t1" storeT1 storeT1v2
  /\ exists r r', rows Todos storeT1 !! "t1" = Some r
                  /\ rows Todos storeT1v2 !! "t1" = Some r'
                  /\ Row.version r' = Row.version r + 1
                  /\ Row.version r < Row.version r'.
Proof.
  assert (@mutation sampleRuntime Todos "t1" storeT1 storeT1v2) as H.
  { apply (@versioned_update sampleRuntime Todos "t1" storeT1 storeT1v2 laterEnv (JNum 1)
             [("title", JStr "buy bread")] rowT1v2).
    vm_compute. reflexivity. }
  split; [exact H|].
  exact (@mutation_increments_version sampleRuntime Todos "t1" storeT1 storeT1v2 H).
Defined.

Lemma conflict_result_only_adds_a_conflict_on_updateT9 :
  let r := OperationResult.mk op2 CONFLICT (Some (Text "Record not found on server")) None
             (Some (uuid laterEnv)) in
  @processSingleOperation sampleRuntime laterEnv updateT9 emptyStore
  = (Returned r, storeConflictT9)
  /\ OperationResult.status r = CONFLICT
  /\ todos storeConflictT9 = todos emptyStore
  /\ notes storeConflictT9 = notes emptyStore
  /\ processedOperations storeConflictT9 = processedOperations emptyStore
  /\ exists c, conflicts storeConflictT9 = (conflicts emptyStore ++ [c])%list
               /\ Conflict.operationId c = SyncOperation.operationId updateT9
               /\ Conflict.status c = PENDING
               /\ OperationResult.conflictId r = Some (Conflict.id c).
Proof.
  intros r.
  assert (@processSingleOperation sampleRuntime laterEnv updateT9 emptyStore
          = (Returned r, storeConflictT9)) as Hrun by (vm_compute; reflexivity).
  assert (OperationResult.status r = CONFLICT) as Hst by reflexivity.
  split; [exact Hrun|]. split; [exact Hst|].
  exact (@conflict_result_only_adds_a_conflict sampleRuntime laterEnv updateT9 emptyStore r
           storeConflictT9 Hrun Hst).
Defined.



Lemma update_of_tombstone_is_an_error_on_updateTombstone :
  SyncOperation.action updateTombstone = UPDATE
  /\ get "id" (SyncOperation.data updateTombstone) = Some (JStr "t1")
  /\ rows (SyncOperation.table updateTombstone) storeTombstone !! "t1" = Some tombstoneT1
  /\ is_Some (Row.deletedAt tombstoneT1)
  /\ get "version" (SyncOperation.data updateTombstone) = Some (JNum (Row.version tombstoneT1))
  /\ @updateRecordWithVersionCheck sampleRuntime laterEnv (SyncOperation.table updateTombstone)
       (JStr "t1") (JNum (Row.version tombstoneT1))
       (omit "version" (omit "id" (SyncOperation.data updateTombstone))) storeTombstone
     = (Returned None, storeTombstone)
  /\ exists res,
       @processSingleOperation sampleRuntime laterEnv updateTombstone storeTombstone
       = (Returned res, storeTombstone)
       /\ OperationResult.status res = ERROR.
Proof.
  assert (rows (SyncOperation.table updateTombstone) storeTombstone !! "t1" = Some tombstoneT1)
    as Hr by (vm_compute; reflexivity).
  assert (is_Some (Row.deletedAt tombstoneT1)) as Hd by (eexists; reflexivity).
  do 5 (split; [first [exact Hr | exact Hd | reflexivity]|]).
  exact (@update_of_tombstone_at_its_version_is_an_error sampleRuntime laterEnv updateTombstone
           storeTombstone "t1" tombstoneT1 eq_refl eq_refl Hr Hd eq_refl).
Defined.



(** C7 fails as stated: the [deletedAt] a CREATE payload carries is
    stored in the new record, which is a tombstone from the start. *)
Lemma create_stores_the_deletedAt_of_the_payload :
  @processSingleOperation sampleRuntime sampleEnv createDeleted emptyStore
  = (Returned (OperationResult.mk op1 APPLIED (Some (Text "Record created successfully"))
                 (Some rowCreatedDeleted) None), storeCreatedDeleted)
  /\ rows Todos storeCreatedDeleted !! "t1" = Some rowCreatedDeleted
  /\ Row.deletedAt rowCreatedDeleted = Some "2024-01-01T00:00:00.000Z"
  /\ Row.deletedAt rowCreatedDeleted <> None.
Proof.
  split; [vm_compute; reflexivity|].
  split; [vm_compute; reflexivity|].
  split; [reflexivity|discriminate].
Qed.

Lemma created_record_on_createDeleted :
  let res := OperationResult.mk op1 APPLIED (Some (Text "Record created successfully"))
               (Some rowCreatedDeleted) None in
  SyncOperation.action createDeleted = CREATE
  /\ @processSingleOperation sampleRuntime sampleEnv createDeleted emptyStore
     = (Returned res, storeCreatedDeleted)
  /\ OperationResult.status res = APPLIED
  /\ exists row,
       OperationResult.data res = Some row
       /\ rows (SyncOperation.table createDeleted) emptyStore !! Row.id row = None
       /\ rows (SyncOperation.table createDeleted) storeCreatedDeleted !! Row.id row = Some row
       /\ Row.version row = 1
       /\ Row.deletedAt row
          = match get "deletedAt" (SyncOperation.data createDeleted) with
            | Some (JStr d) => @parseDateTime sampleRuntime d
            | _ => None
            end.
Proof.
  intros res.
  assert (@processSingleOperation sampleRuntime sampleEnv createDeleted emptyStore
          = (Returned res, storeCreatedDeleted)) as Hrun by (vm_compute; reflexivity).
  split; [reflexivity|]. split; [exact Hrun|]. split; [reflexivity|].
  exact (@created_record_has_version_1_and_the_payload_deletedAt sampleRuntime sampleEnv
           createDeleted emptyStore res storeCreatedDeleted eq_refl Hrun eq_refl).
Defined.

(** C8 fails as stated: a batch whose two operations share their
    [operationId] is answered with status 200, its first operation has
    been applied (the record is in the store) and the second has its own
    result. *)
Lemma batch_with_a_repeated_operationId_is_not_rejected :
  @sync sampleRuntime sampleOracle (JObj [("operations", JArr repeatedIdItems)]) emptyStore
  = (Returned (SyncCompleted repeatedIdResults (Summary.mk 2 1 0 1)), storeT1)
  /\ httpStatus (SyncCompleted repeatedIdResults (Summary.mk 2 1 0 1)) = 200
  /\ map OperationResult.operationId repeatedIdResults = [op1; op1]
  /\ map OperationResult.status repeatedIdResults = [APPLIED; ERROR]
  /\ rows Todos storeT1 !! "t1" = Some rowT1.
Proof.
  split; [vm_compute; reflexivity|].
  repeat split; vm_compute; reflexivity.
Qed.

Lemma batch_with_a_repeated_operationId_on_sample :
  get "operations" [("operations", JArr repeatedIdItems)] = Some (JArr repeatedIdItems)
  /\ (1 <= length repeatedIdItems <= 100)%nat
  /\ parseAll (@SyncOperationSchema sampleRuntime) repeatedIdItems = Some repeatedIdOperations
  /\ 0%nat <> 1%nat
  /\ repeatedIdOperations !! 0%nat = Some createT1
  /\ repeatedIdOperations !! 1%nat
     = Some (SyncOperation.mk op1 DELETE Todos [("id", JStr "t1"); ("version", JNum 1)])
  /\ SyncOperation.operationId createT1 = op1
  /\ exists results s',
       @SyncRequestSchema sampleRuntime (JObj [("operations", JArr repeatedIdItems)])
       = Some repeatedIdOperations
       /\ @processSyncOperations sampleRuntime sampleOracle repeatedIdOperations emptyStore
          = (Returned results, s')
       /\ @sync sampleRuntime sampleOracle (JObj [("operations", JArr repeatedIdItems)])
            emptyStore
          = (Returned (SyncCompleted results (summarize results)), s')
       /\ httpStatus (SyncCompleted results (summarize results)) = 200
       /\ map OperationResult.operationId results
          = map SyncOperation.operationId repeatedIdOperations.
Proof.
  assert ((1 <= length repeatedIdItems <= 100)%nat) as Hlen.
  { split; apply Nat.leb_le; reflexivity. }
  assert (parseAll (@SyncOperationSchema sampleRuntime) repeatedIdItems
          = Some repeatedIdOperations) as Hparse by (vm_compute; reflexivity).
  assert (0%nat <> 1%nat) as Hij by discriminate.
  do 7 (split; [first [exact Hlen | exact Hparse | exact Hij | reflexivity]|]).
  exact (@batch_with_a_repeated_operationId_is_dispatched sampleRuntime sampleOracle
           [("operations", JArr repeatedIdItems)] repeatedIdItems repeatedIdOperations
           emptyStore 0%nat 1%nat createT1
           (SyncOperation.mk op1 DELETE Todos [("id", JStr "t1"); ("version", JNum 1)])
           eq_refl Hlen Hparse Hij eq_refl eq_refl eq_refl).
Defined.

Lemma batch_with_a_non_uuid_operationId_on_sample :
  get "operations" [("operations", JArr [nonUuidItem])] = Some (JArr [nonUuidItem])
  /\ nonUuidItem ∈ [nonUuidItem]
  /\ @operationIdIsUUID sampleRuntime nonUuidItem = false
  /\ let response := Handled (ServiceResponseBuilder.validationError "Invalid sync request") in
     @SyncRequestSchema sampleRuntime (JObj [("operations", JArr [nonUuidItem])]) = None
     /\ @sync sampleRuntime sampleOracle (JObj [("operations", JArr [nonUuidItem])]) emptyStore
        = (Returned response, emptyStore)
     /\ httpStatus response = 400.
Proof.
  assert (nonUuidItem ∈ [nonUuidItem]) as Hin by apply list_elem_of_here.
  assert (@operationIdIsUUID sampleRuntime nonUuidItem = false) as Hbad
    by (vm_compute; reflexivity).
  do 3 (split; [first [exact Hin | exact Hbad | reflexivity]|]).
  exact (@batch_with_a_non_uuid_operationId_is_rejected sampleRuntime sampleOracle
           [("operations", JArr [nonUuidItem])] [nonUuidItem] nonUuidItem emptyStore
           eq_refl Hin Hbad).
Defined.

Lemma resolving_conflictT9_with_SERVER_fails :
  List.find (hasId (uuid laterEnv)) (conflicts storeConflictT9) = Some conflictT9
  /\ Conflict.status conflictT9 = PENDING
  /\ Conflict.serverData conflictT9 = None
  /\ ResolveConflictDTO.resolution (ResolveConflictDTO.mk None SERVER) = SERVER
  /\ @resolveConflict sampleRuntime sampleEnv (uuid laterEnv) (ResolveConflictDTO.mk None SERVER)
       storeConflictT9
     = (Returned (ServiceResponse.mk false "Failed to resolve conflict" None 500),
        storeConflictT9).
Proof.
  assert (List.find (hasId (uuid laterEnv)) (conflicts storeConflictT9) = Some conflictT9)
    as Hc by (vm_compute; reflexivity).
  do 4 (split; [first [exact Hc | reflexivity]|]).
  exact (@resolving_an_absent_record_conflict_with_SERVER_fails sampleRuntime sampleEnv
           (uuid laterEnv) (ResolveConflictDTO.mk None SERVER) storeConflictT9 conflictT9
           Hc eq_refl eq_refl eq_refl).
Defined.

(** * Further properties of the sync processor, the resolver and the CRUD services *)

(** ** Lists and objects *)

Lemma filter_length_Permutation {A} (f : A -> bool) (l l' : list A) :
  l ≡ₚ l' -> length (List.filter f l) = length (List.filter f l').
Proof.
  induction 1 as [|x l l' _ IH|x y l|l l' l'' _ IH1 _ IH2]; simpl.
  - done.
  - destruct (f x); simpl; by rewrite IH.
  - by destruct (f x), (f y).
  - by rewrite IH1.
Qed.

Lemma get_rowObject_version r : get "version" (rowObject r) = Some (JNum (Row.version r)).
Proof. unfold rowObject. by destruct (Row.status r). Qed.

Lemma get_rowObject_id r : get "id" (rowObject r) = Some (JStr (Row.id r)).
Proof. done. Qed.

Lemma find_replaceConflict id c' cs c :
  List.find (hasId id) cs = Some c ->
  hasId id c' = true ->
  List.find (hasId id) (replaceConflict id c' cs) = Some c'.
Proof.
  intros Hfind Hid. induction cs as [|x cs IH]; simpl in *; [done|].
  destruct (hasId id x) eqn:Hx; simpl.
  - by rewrite Hid.
  - rewrite Hx. by apply IH.
Qed.

Lemma map_replaceConflict {B} (f : Conflict.t -> B) id c' cs c :
  List.find (hasId id) cs = Some c ->
  f c' = f c ->
  map f (replaceConflict id c' cs) = map f cs.
Proof.
  intros Hfind Hf. induction cs as [|x cs IH]; simpl in *; [done|].
  destruct (hasId id x) eqn:Hx; simpl.
  - simplify_eq. by rewrite Hf.
  - by rewrite IH.
Qed.

Lemma elem_of_replaceConflict id c' cs x :
  x ∈ replaceConflict id c' cs -> x = c' \/ x ∈ cs.
Proof.
  induction cs as [|y cs IH]; simpl; [by right|].
  destruct (hasId id y).
  - intros [->|?]%elem_of_cons; [by left|]. right. by apply elem_of_cons; right.
  - intros [->|Hin]%elem_of_cons.
    + right. by apply elem_of_cons; left.
    + destruct (IH Hin) as [?|?]; [by left|]. right. by apply elem_of_cons; right.
Qed.

Lemma find_hasId id cs c : List.find (hasId id) cs = Some c -> c ∈ cs /\ Conflict.id c = id.
Proof.
  intros [Hin Hid]%find_some. split; [by apply list_elem_of_In|].
  by apply String.eqb_eq in Hid.
Qed.

(** A conflict that is not the one looked up keeps its place. *)
Lemma lookup_replaceConflict id c' cs c i x :
  List.find (hasId id) cs = Some c ->
  cs !! i = Some x ->
  x <> c ->
  replaceConflict id c' cs !! i = Some x.
Proof.
  revert i. induction cs as [|y cs IH]; intros i Hfind Hi Hne; simpl in *; [done|].
  destruct (hasId id y) eqn:Hy.
  - simplify_eq. destruct i; simpl in *; [by simplify_eq|done].
  - destruct i; simpl in *; [done|]. by apply IH.
Qed.

Section MoreProperties.
Context `{R : Runtime}.

(** ** What each repository call writes *)

Lemma prismaCreate_row env t data s row s' :
  prismaCreate env t data s = (Returned row, s') ->
  rows t s !! Row.id row = None
  /\ s' = set_table t (<[Row.id row := row]> (rows t s)) s
  /\ Row.version row = default 1 (default None (optional asInt (get "version" data)))
  /\ (is_Some (Row.status row) <-> t = Todos)
  /\ Row.deletedAt row
     = match get "deletedAt" data with
       | Some (JStr d) => parseDateTime d
       | _ => None
       end.
Proof.
  intros H. pose proof H as Hspec.
  apply prismaCreate_spec in Hspec as (over & p & Hover & Hp & Hv & Hd & Hnew & ->).
  rewrite Hover. repeat split; try done.
  - unfold prismaCreate in H. repeat case_match; simplify_eq; simpl; by intros [].
  - unfold prismaCreate in H. repeat case_match; simplify_eq; simpl; by eauto.
  - rewrite Hd. by apply readPatch_deletedAt.
Qed.

Lemma createRecord_row env t data s row s' :
  createRecord env t data s = (Returned row, s') ->
  rows t s !! Row.id row = None
  /\ s' = set_table t (<[Row.id row := row]> (rows t s)) s
  /\ Row.version row = 1
  /\ (is_Some (Row.status row) <-> t = Todos).
Proof.
  unfold createRecord. intros (? & ? & Hv & ? & _)%prismaCreate_row.
  rewrite get_assign_eq in Hv. cbn in Hv. by split_and!.
Qed.

Lemma createRecord_thrown env t data s e s' :
  createRecord env t data s = (Thrown e, s') -> s' = s.
Proof. unfold createRecord. by intros ?%prismaCreate_spec. Qed.

Lemma createConflict_row env oid t rid sd cd sv cv s c s' :
  createConflict env oid t rid sd cd sv cv s = (Returned c, s') ->
  exists recordId clientVersion,
    asString rid = Some recordId
    /\ asInt cv = Some clientVersion
    /\ c = Conflict.mk (uuid env) oid t recordId sd cd sv clientVersion PENDING None None
             (now env)
    /\ (oid ∉ map Conflict.operationId (conflicts s))
    /\ s' = set_conflicts (conflicts s ++ [c])%list s.
Proof.
  unfold createConflict. intros H.
  destruct (asString rid) as [recordId|]; [|done].
  destruct (asInt cv) as [clientVersion|]; [|done].
  destruct (negb _); [done|].
  destruct (existsb _ _) eqn:Hex; simplify_eq.
  exists recordId, clientVersion. repeat split; try done.
  intros (c & Hc & Hin)%list_elem_of_fmap.
  apply not_true_iff_false in Hex. apply Hex, existsb_exists.
  exists c. split; [by apply list_elem_of_In|]. subst. apply String.eqb_refl.
Qed.

Lemma updateRecordWithVersionCheck_effect env t id cv data s o s' :
  updateRecordWithVersionCheck env t id cv data s = (o, s') ->
  match o with
  | Returned (Some row') =>
      exists key old,
        asString id = Some key
        /\ optional asInt (Some cv) = Some (Some (Row.version old))
        /\ rows t s !! key = Some old
        /\ Row.deletedAt old = None
        /\ Row.id row' = Row.id old
        /\ (is_Some (Row.status row') <-> is_Some (Row.status old))
        /\ Row.version row' = Row.version old + 1
        /\ Row.version row' <= INT4_MAX
        /\ s' = set_table t (<[key := row']> (rows t s)) s
  | Returned None => s' = s
  | Thrown _ => False
  end.
Proof.
  unfold updateRecordWithVersionCheck, try_catch, bind, ret.
  destruct (prismaUpdate _ _ _ _ s) as [[row'|e] s1] eqn:Hp; intros [= <- <-].
  - pose proof Hp as Hspec.
    apply prismaUpdate_spec in Hspec
      as (key & wv & vw & p & old & Hkey & Hwv & Hvw & Hp' & Hold & Hm & -> & ->).
    rewrite increment_is_read in Hvw. simplify_eq.
    cbn [w_id w_version w_live] in *.
    unfold matches in Hm. apply andb_true_iff in Hm as [Hm1 Hm2].
    destruct wv as [v|]; [|by (simpl in Hwv; destruct (asInt cv))].
    apply Z.eqb_eq in Hm1. subst v.
    destruct (Row.deletedAt old) eqn:Hdel; [done|].
    exists key, old. repeat split; try done.
    + unfold applyPatch; simpl. destruct (Row.status old); [by eexists|by intros []].
    + unfold applyPatch; simpl. destruct (Row.status old); [by eexists|by intros []].
    + unfold prismaUpdate in Hp. rewrite increment_is_read in Hp.
      cbn [w_id w_version w_live] in Hp. rewrite Hkey, Hwv in Hp.
      destruct (negb _); [done|]. destruct (readPatch _ _); [|done].
      unfold updateRow in Hp. destruct (negb (storablePatch _)); [done|].
      rewrite Hold in Hp.
      destruct (matches _ _ _); [|done].
      destruct (_ && _) eqn:Hrange; [|done].
      apply andb_true_iff in Hrange as [_ Hmax]. apply Z.leb_le in Hmax.
      by simplify_eq.
  - by apply prismaUpdate_spec in Hp.
Qed.

Lemma deleteRecordWithVersionCheck_effect env t id cv s o s' :
  deleteRecordWithVersionCheck env t id cv s = (o, s') ->
  match o with
  | Returned (Some row') =>
      exists key old,
        asString id = Some key
        /\ asInt cv = Some (Row.version old)
        /\ rows t s !! key = Some old
        /\ Row.deletedAt old = None
        /\ row' = Row.mk (Row.id old) (Row.title old) (Row.content old) (Row.status old)
                    (Row.version old + 1) (Row.createdAt old) (now env) (Some (now env))
        /\ Row.version row' <= INT4_MAX
        /\ s' = set_table t (<[key := row']> (rows t s)) s
  | Returned None => s' = s
  | Thrown _ => False
  end.
Proof.
  unfold deleteRecordWithVersionCheck, try_catch, bind, ret.
  destruct (asString id) as [key|]; [|by intros [= <- <-]].
  destruct (asInt cv) as [v|]; [|by intros [= <- <-]].
  unfold updateRow.
  cbn [storablePatch p_title p_content p_status storableOption andb negb].
  destruct (rows t s !! key) as [old|] eqn:Hold; [|by intros [= <- <-]].
  unfold matches.
  destruct (Row.version old =? v) eqn:Hv; [|by intros [= <- <-]].
  destruct (Row.deletedAt old) eqn:Hdel; [by intros [= <- <-]|].
  apply Z.eqb_eq in Hv. subst v. cbn [andb].
  destruct (_ && _) eqn:Hrange; intros [= <- <-]; [|done].
  apply andb_true_iff in Hrange as [_ Hmax]. apply Z.leb_le in Hmax.
  exists key, old. repeat split; try done.
  unfold applyPatch. simpl. by destruct (Row.status old).
Qed.

(** ** What an operation writes, by its result *)

Lemma rows_set_processedOperations t l s : rows t (set_processedOperations l s) = rows t s.
Proof. by destruct t. Qed.

Lemma set_table_other t t' m s : t' <> t -> rows t' (set_table t m s) = rows t' s.
Proof. by destruct t, t'. Qed.

Lemma set_table_same t m s : rows t (set_table t m s) = m.
Proof. by destruct t. Qed.

Lemma markOperationProcessed_fresh env oid a t s :
  processedOperations s !! oid = None ->
  markOperationProcessed env oid a t s
  = (Returned tt,
     set_processedOperations
       (<[oid := ProcessedOperation.mk a t (now env)]> (processedOperations s)) s).
Proof. intros H. unfold markOperationProcessed. by rewrite H. Qed.

Lemma processedOperations_set_table t m s :
  processedOperations (set_table t m s) = processedOperations s.
Proof. by destruct t. Qed.

Lemma conflicts_set_table t m s : conflicts (set_table t m s) = conflicts s.
Proof. by destruct t. Qed.

Lemma handleCreate_effect env oid t data s r s' :
  processedOperations s !! oid = None ->
  handleCreate env oid t data s = (Returned r, s') ->
  operationEffect env oid CREATE t data r s s'.
Proof.
  intros Hfresh. unfold handleCreate, try_catch, bind, ret.
  destruct (createRecord env t data s) as [[row|e] s1] eqn:Hc.
  - apply createRecord_row in Hc as (Hnew & -> & Hv & Hst).
    rewrite markOperationProcessed_fresh by by rewrite processedOperations_set_table.
    intros [= <- <-]. unfold operationEffect; simpl.
    rewrite processedOperations_set_table, conflicts_set_table.
    split_and!; try done.
    + intros t' Hne. by rewrite rows_set_processedOperations, set_table_other.
    + exists (Row.id row). rewrite rows_set_processedOperations, set_table_same, Hnew.
      by split_and!.
  - apply createRecord_thrown in Hc as ->. by intros [= <- <-].
Qed.

Lemma not_missing id cv :
  missingIdOrVersion id cv = false ->
  exists i v, id = Some i /\ cv = Some v /\ truthy i = true.
Proof.
  destruct id as [i|], cv as [v|]; simpl; try done.
  intros H%negb_false_iff. by exists i, v.
Qed.

Lemma same_version r cv : versionDiffers r cv = false -> cv = JNum (Row.version r).
Proof.
  unfold versionDiffers. destruct cv; try done.
  intros H%negb_false_iff%Z.eqb_eq. by subst.
Qed.

Lemma handleUpdate_effect env oid t data s r s' :
  processedOperations s !! oid = None ->
  handleUpdate env oid t data s = (Returned r, s') ->
  operationEffect env oid UPDATE t data r s s'.
Proof.
  intros Hfresh H. pose proof H as H0. revert H0.
  unfold handleUpdate, bind, ret.
  destruct (missingIdOrVersion _ _) eqn:Hmiss; [by intros [= <- <-]|].
  apply not_missing in Hmiss as (i & v & Hi & Hv & _). rewrite Hi, Hv.
  cbn [default from_option Datatypes.id].
  destruct (findRecordById _ _ s) as [[rec|e] s1] eqn:Hf; [|done].
  pose proof Hf as Hstore. apply findRecordById_store in Hstore as ->.
  assert (exists key, i = JStr key) as [key ->].
  { unfold findRecordById in Hf. destruct i; try done. by eexists. }
  apply findRecordById_found in Hf as ->.
  destruct (rows t s !! key) as [old|] eqn:Hold.
  - destruct (versionDiffers _ _) eqn:Hdiff.
    + destruct (createConflict _ _ _ _ _ _ _ _ s) as [[c|e] s2]; [|done].
      intros [= <- <-]. unfold operationEffect; simpl. by eapply handleUpdate_conflict.
    + apply same_version in Hdiff as ->.
      destruct (updateRecordWithVersionCheck _ _ _ _ _ s) as [[[row'|]|e] s2] eqn:Hu;
        apply updateRecordWithVersionCheck_effect in Hu; [| |done].
      * destruct Hu as (key' & old' & Hkey' & Hcv & Hold' & Hlive & Hid & Hst & Hver & Hmax & ->).
        cbn in Hkey'. simplify_eq.
        rewrite markOperationProcessed_fresh by by rewrite processedOperations_set_table.
        intros [= <- <-]. unfold operationEffect; simpl.
        rewrite processedOperations_set_table, conflicts_set_table.
        split_and!; try done.
        -- intros t' Hne. by rewrite rows_set_processedOperations, set_table_other.
        -- exists key'. rewrite rows_set_processedOperations, set_table_same, Hold.
           by split_and!.
      * subst. by intros [= <- <-].
  - destruct (createConflict _ _ _ _ _ _ _ _ s) as [[c|e] s2]; [|done].
    intros [= <- <-]. unfold operationEffect; simpl. by eapply handleUpdate_conflict.
Qed.

Lemma handleDelete_effect env oid t data s r s' :
  processedOperations s !! oid = None ->
  handleDelete env oid t data s = (Returned r, s') ->
  operationEffect env oid DELETE t data r s s'.
Proof.
  intros Hfresh H. pose proof H as H0. revert H0.
  unfold handleDelete, bind, ret.
  destruct (missingIdOrVersion _ _) eqn:Hmiss; [by intros [= <- <-]|].
  apply not_missing in Hmiss as (i & v & Hi & Hv & _). rewrite Hi, Hv.
  cbn [default from_option Datatypes.id].
  destruct (findRecordById _ _ s) as [[rec|e] s1] eqn:Hf; [|done].
  pose proof Hf as Hstore. apply findRecordById_store in Hstore as ->.
  assert (exists key, i = JStr key) as [key ->].
  { unfold findRecordById in Hf. destruct i; try done. by eexists. }
  apply findRecordById_found in Hf as ->.
  assert (forall s0,
            s0 = set_processedOperations
                   (<[oid := ProcessedOperation.mk DELETE t (now env)]> (processedOperations s)) s ->
            operationEffect env oid DELETE t data
              (result oid APPLIED "Record already deleted" None None) s s0) as Htolerant.
  { intros s0 ->. unfold operationEffect; simpl.
    split_and!; try done; intros; apply rows_set_processedOperations. }
  destruct (rows t s !! key) as [old|] eqn:Hold.
  - destruct (tombstoned old) eqn:Htomb.
    { rewrite markOperationProcessed_fresh by done. intros [= <- <-]. by apply Htolerant. }
    destruct (versionDiffers _ _) eqn:Hdiff.
    + destruct (createConflict _ _ _ _ _ _ _ _ s) as [[c|e] s2]; [|done].
      intros [= <- <-]. unfold operationEffect; simpl. by eapply handleDelete_conflict.
    + apply same_version in Hdiff as ->.
      destruct (deleteRecordWithVersionCheck _ _ _ _ s) as [[[row'|]|e] s2] eqn:Hu;
        apply deleteRecordWithVersionCheck_effect in Hu; [| |done].
      * destruct Hu as (key' & old' & Hkey' & Hcv & Hold' & Hlive & -> & Hmax & ->).
        cbn in Hkey'. simplify_eq.
        rewrite markOperationProcessed_fresh by by rewrite processedOperations_set_table.
        intros [= <- <-]. unfold operationEffect; simpl.
        rewrite processedOperations_set_table, conflicts_set_table.
        split_and!; try done.
        -- intros t' Hne. by rewrite rows_set_processedOperations, set_table_other.
        -- exists key'. rewrite rows_set_processedOperations, set_table_same, Hold.
           by split_and!.
      * subst. by intros [= <- <-].
  - rewrite markOperationProcessed_fresh by done. intros [= <- <-]. by apply Htolerant.
Qed.

Lemma processSingleOperation_effect env (op : SyncOperation.t) s :
  exists r s',
    processSingleOperation env op s = (Returned r, s')
    /\ OperationResult.operationId r = SyncOperation.operationId op
    /\ operationEffect env (SyncOperation.operationId op) (SyncOperation.action op)
         (SyncOperation.table op) (SyncOperation.data op) r s s'.
Proof.
  destruct (processSingleOperation_returns env op s) as (r & s' & Hrun & Hid).
  exists r, s'. split_and!; try done. revert Hrun.
  unfold processSingleOperation, try_catch, bind, conflictExists.
  rewrite operationExists_spec.
  destruct (processedOperations s !! _) eqn:Hfresh; [by intros [= <- <-]|].
  destruct (SyncOperation.action op).
  - destruct (handleCreate _ _ _ _ s) as [[r0|e] s1] eqn:H.
    + intros [= <- <-]. by apply handleCreate_effect.
    + by destruct (handleCreate_status _ _ _ _ _ _ _ H) as (? & ? & _).
  - destruct (handleUpdate _ _ _ _ s) as [[r0|e] s1] eqn:H.
    + intros [= <- <-]. by apply handleUpdate_effect.
    + intros [= <- <-]. unfold operationEffect; simpl.
      revert H. unfold handleUpdate, bind, ret.
      destruct (missingIdOrVersion _ _); [done|].
      destruct (findRecordById _ _ s) as [[rec|e0] s2] eqn:Hf;
        apply findRecordById_store in Hf as ->; [|by intros [= _ <-]].
      destruct rec as [rec|].
      * destruct (versionDiffers _ _).
        -- destruct (createConflict _ _ _ _ _ _ _ _ s) as [[c|e0] s2] eqn:Hc; [done|].
           apply createConflict_spec in Hc as ->. by intros [= _ <-].
        -- destruct (updateRecordWithVersionCheck _ _ _ _ _ s) as [[[row'|]|e0] s2] eqn:Hu;
             apply updateRecordWithVersionCheck_effect in Hu; [| done | done].
           destruct Hu as (key' & old' & _ & _ & _ & _ & _ & _ & _ & _ & ->).
           by rewrite markOperationProcessed_fresh
             by by rewrite processedOperations_set_table.
      * destruct (createConflict _ _ _ _ _ _ _ _ s) as [[c|e0] s2] eqn:Hc; [done|].
        apply createConflict_spec in Hc as ->. by intros [= _ <-].
  - destruct (handleDelete _ _ _ _ s) as [[r0|e] s1] eqn:H.
    + intros [= <- <-]. by apply handleDelete_effect.
    + intros [= <- <-]. unfold operationEffect; simpl.
      revert H. unfold handleDelete, bind, ret.
      destruct (missingIdOrVersion _ _); [done|].
      destruct (findRecordById _ _ s) as [[rec|e0] s2] eqn:Hf;
        apply findRecordById_store in Hf as ->; [|by intros [= _ <-]].
      destruct rec as [rec|].
      * destruct (tombstoned rec).
        { by rewrite markOperationProcessed_fresh by done. }
        destruct (versionDiffers _ _).
        -- destruct (createConflict _ _ _ _ _ _ _ _ s) as [[c|e0] s2] eqn:Hc; [done|].
           apply createConflict_spec in Hc as ->. by intros [= _ <-].
        -- destruct (deleteRecordWithVersionCheck _ _ _ _ s) as [[[row'|]|e0] s2] eqn:Hu;
             apply deleteRecordWithVersionCheck_effect in Hu; [| done | done].
           destruct Hu as (key' & old' & _ & _ & _ & _ & _ & _ & ->).
           by rewrite markOperationProcessed_fresh
             by by rewrite processedOperations_set_table.
      * by rewrite markOperationProcessed_fresh by done.
Qed.

Lemma operation_effect env (op : SyncOperation.t) s r s' :
  processSingleOperation env op s = (Returned r, s') ->
  operationEffect env (SyncOperation.operationId op) (SyncOperation.action op)
    (SyncOperation.table op) (SyncOperation.data op) r s s'.
Proof.
  intros Hrun.
  destruct (processSingleOperation_effect env op s) as (r0 & s0 & Hrun0 & _ & Heff).
  rewrite Hrun in Hrun0. by injection Hrun0 as <- <-.
Qed.

(** ** The batch and its summary *)

(** X1.  A batch never fails as a whole: whatever the operations and the
    store, [processSyncOperations] returns one result for each operation,
    in the order of the batch, each carrying the [operationId] of its
    operation. *)
Theorem batch_has_one_result_per_operation oracle (ops : list SyncOperation.t) s :
  exists results s',
    processSyncOperations oracle ops s = (Returned results, s')
    /\ length results = length ops
    /\ map OperationResult.operationId results = map SyncOperation.operationId ops.
Proof.
  destruct (processSyncOperations_returns oracle ops s) as (results & s' & Hrun & Hids).
  exists results, s'. split_and!; try done.
  by rewrite <- (length_map OperationResult.operationId), Hids, length_map.
Qed.

Lemma summarize_partition results :
  (Summary.applied (summarize results) + Summary.conflicts (summarize results)
   + Summary.errors (summarize results) = Summary.total (summarize results))%nat.
Proof.
  unfold summarize; cbn [Summary.applied Summary.conflicts Summary.errors Summary.total].
  induction results as [|r results IH]; [done|].
  cbn [List.filter].
  assert ((hasStatus APPLIED r = true /\ hasStatus CONFLICT r = false
           /\ hasStatus ERROR r = false)
          \/ (hasStatus APPLIED r = false /\ hasStatus CONFLICT r = true
              /\ hasStatus ERROR r = false)
          \/ (hasStatus APPLIED r = false /\ hasStatus CONFLICT r = false
              /\ hasStatus ERROR r = true)) as Hone.
  { unfold hasStatus. destruct (OperationResult.status r); auto. }
  destruct Hone as [(-> & -> & ->)|[(-> & -> & ->)|(-> & -> & ->)]]; cbn [length]; lia.
Qed.

(** X2.  The summary of an accepted batch accounts for every operation:
    [total] is the number of operations sent, and the three counts
    [applied], [conflicts] and [errors] add up to it. *)
Theorem summary_accounts_for_every_operation oracle body (ops : list SyncOperation.t) s :
  SyncRequestSchema body = Some ops ->
  exists results summary s',
    sync oracle body s = (Returned (SyncCompleted results summary), s')
    /\ Summary.total summary = length ops
    /\ (Summary.applied summary + Summary.conflicts summary + Summary.errors summary
        = Summary.total summary)%nat.
Proof.
  intros Hschema.
  destruct (processSyncOperations_returns oracle ops s) as (results & s' & Hrun & Hids).
  exists results, (summarize results), s'. split_and!.
  - unfold sync, try_catch, bind. rewrite Hschema. cbn [lift]. unfold ret at 1.
    by rewrite Hrun.
  - simpl. by rewrite <- (length_map OperationResult.operationId), Hids, length_map.
  - apply summarize_partition.
Qed.

(** ** Results and what they wrote *)

(** X3.  An operation whose result is ERROR has written nothing: the
    store after it is the store before it, although the handlers run
    outside any transaction. *)
Theorem error_result_leaves_the_store_unchanged env (op : SyncOperation.t) s r s' :
  processSingleOperation env op s = (Returned r, s') ->
  OperationResult.status r = ERROR ->
  s' = s.
Proof.
  intros Hrun Hstatus.
  pose proof (operation_effect _ _ _ _ _ Hrun) as Heff.
  unfold operationEffect in Heff. by rewrite Hstatus in Heff.
Qed.

(** X4.  An operation whose result is APPLIED is in the ledger afterwards,
    under its [operationId], with its action and table; sent again, at
    any later time, it gets ERROR "Operation already processed" and
    changes nothing. *)
Theorem applied_operation_is_recorded_and_not_applied_again env (op : SyncOperation.t) s r s' :
  processSingleOperation env op s = (Returned r, s') ->
  OperationResult.status r = APPLIED ->
  processedOperations s' !! SyncOperation.operationId op
  = Some (ProcessedOperation.mk (SyncOperation.action op) (SyncOperation.table op) (now env))
  /\ forall env',
       processSingleOperation env' op s'
       = (Returned (OperationResult.mk (SyncOperation.operationId op) ERROR
                      (Some (Text "Operation already processed")) None None), s').
Proof.
  intros Hrun Hstatus.
  pose proof (operation_effect _ _ _ _ _ Hrun) as Heff.
  unfold operationEffect in Heff. rewrite Hstatus in Heff.
  destruct Heff as (_ & Hledger & _).
  assert (processedOperations s' !! SyncOperation.operationId op
          = Some (ProcessedOperation.mk (SyncOperation.action op) (SyncOperation.table op)
                    (now env))) as Hin.
  { rewrite Hledger. apply lookup_insert_eq. }
  split; [done|]. intros env'.
  unfold processSingleOperation, try_catch, bind, conflictExists.
  by rewrite operationExists_spec, Hin.
Qed.

(** X5.  An UPDATE is APPLIED only against a live record at exactly the
    version the client sent: the record existed under the payload's
    [id], was not a tombstone, the payload's [version] was its version,
    and the row returned, one version higher, has taken its place. *)
Theorem applied_update_matched_the_current_version env (op : SyncOperation.t) s r s' :
  processSingleOperation env op s = (Returned r, s') ->
  SyncOperation.action op = UPDATE ->
  OperationResult.status r = APPLIED ->
  exists id old row,
    get "id" (SyncOperation.data op) = Some (JStr id)
    /\ rows (SyncOperation.table op) s !! id = Some old
    /\ Row.deletedAt old = None
    /\ get "version" (SyncOperation.data op) = Some (JNum (Row.version old))
    /\ OperationResult.data r = Some row
    /\ Row.version row = Row.version old + 1
    /\ rows (SyncOperation.table op) s' = <[id := row]> (rows (SyncOperation.table op) s).
Proof.
  intros Hrun Hact Hstatus.
  pose proof (operation_effect _ _ _ _ _ Hrun) as Heff.
  unfold operationEffect in Heff. rewrite Hstatus, Hact in Heff.
  destruct Heff as (_ & _ & _ & _ & Hrow).
  destruct (OperationResult.data r) as [row|]; [|by destruct Hrow].
  destruct Hrow as (key & Hrows & Hold).
  destruct (rows (SyncOperation.table op) s !! key) as [old|] eqn:Hkey;
    [|by destruct Hold].
  destruct Hold as (_ & ? & ? & ? & ? & ? & _).
  by exists key, old, row.
Qed.

(** X6.  An operation writes at most one record: there is a key of the
    operation's table such that every other record, there and in the
    other table, is after the operation what it was before. *)
Theorem operation_writes_at_most_one_record env (op : SyncOperation.t) s r s' :
  processSingleOperation env op s = (Returned r, s') ->
  exists key, forall t k,
    (t, k) <> (SyncOperation.table op, key) -> rows t s' !! k = rows t s !! k.
Proof.
  intros Hrun.
  pose proof (operation_effect _ _ _ _ _ Hrun) as Heff.
  unfold operationEffect in Heff.
  destruct (OperationResult.status r).
  - destruct Heff as (_ & _ & _ & Hother & Hrow).
    destruct (OperationResult.data r) as [row|].
    + destruct Hrow as (key & Hrows & _). exists key. intros t k Hne.
      destruct (decide (t = SyncOperation.table op)) as [->|Ht].
      * rewrite Hrows, lookup_insert_ne; [done|congruence].
      * by rewrite Hother.
    + destruct Hrow as [_ Hrows]. exists "". intros t k _.
      destruct (decide (t = SyncOperation.table op)) as [->|Ht].
      * by rewrite Hrows.
      * by rewrite Hother.
  - destruct Heff as (Ht & Hn & _). exists "". intros [] k _; simpl; by rewrite ?Ht, ?Hn.
  - subst. by exists "".
Qed.

(** ** Version mismatch, matching delete, duplicate create *)

Lemma createConflict_fresh env oid t key sd cd sv v s :
  (forall c, c ∈ conflicts s -> Conflict.operationId c <> oid) ->
  storable key = true ->
  storableObject cd = true ->
  INT4_MIN <= v <= INT4_MAX ->
  createConflict env oid t (JStr key) sd cd sv (JNum v) s
  = (Returned (Conflict.mk (uuid env) oid t key sd cd sv v PENDING None None (now env)),
     set_conflicts (conflicts s ++ [Conflict.mk (uuid env) oid t key sd cd sv v PENDING None
                                      None (now env)])%list s).
Proof.
  intros Hnew Hkey Hcd Hrange. unfold createConflict. cbn [asString asInt].
  replace ((INT4_MIN <=? v) && (v <=? INT4_MAX)) with true
    by (symmetry; apply andb_true_iff; lia).
  rewrite Hkey, Hcd. cbn [andb negb].
  replace (existsb _ (conflicts s)) with false; [done|].
  symmetry. apply not_true_is_false. intros (c & Hin & Heq)%existsb_exists.
  apply String.eqb_eq in Heq. apply (Hnew c); [|done]. by apply list_elem_of_In.
Qed.

Lemma version_mismatch_conflict
    env (op : SyncOperation.t) s id v rec :
  SyncOperation.action op = UPDATE
  \/ (SyncOperation.action op = DELETE /\ Row.deletedAt rec = None) ->
  processedOperations s !! SyncOperation.operationId op = None ->
  (forall c, c ∈ conflicts s -> Conflict.operationId c <> SyncOperation.operationId op) ->
  storableObject (SyncOperation.data op) = true ->
  get "id" (SyncOperation.data op) = Some (JStr id) ->
  id <> "" ->
  get "version" (SyncOperation.data op) = Some (JNum v) ->
  INT4_MIN <= v <= INT4_MAX ->
  rows (SyncOperation.table op) s !! id = Some rec ->
  v <> Row.version rec ->
  let c := Conflict.mk (uuid env) (SyncOperation.operationId op) (SyncOperation.table op) id
             (Some (rowObject rec)) (SyncOperation.data op) (Row.version rec) v
             PENDING None None (now env) in
  processSingleOperation env op s
  = (Returned (OperationResult.mk (SyncOperation.operationId op) CONFLICT
                 (Some (Text "Version conflict detected")) None (Some (uuid env))),
     set_conflicts (conflicts s ++ [c])%list s).
Proof.
  intros Hact Hfresh Hnew Hdata Hid Hne Hv Hrange Hrec Hdiff c.
  pose proof (storableObject_get _ _ _ Hdata Hid) as Hstorable. cbn in Hstorable.
  unfold processSingleOperation, try_catch, bind, conflictExists.
  rewrite operationExists_spec, Hfresh.
  assert (versionDiffers rec (JNum v) = true) as Hvd.
  { unfold versionDiffers. apply negb_true_iff, Z.eqb_neq. congruence. }
  destruct Hact as [-> | [-> Hlive]].
  - unfold handleUpdate. rewrite Hid, Hv.
    cbn [missingIdOrVersion default from_option Datatypes.id].
    rewrite (nonempty_truthy _ Hne). cbn [negb].
    unfold bind. rewrite (findRecordById_hit _ _ _ _ Hrec), Hvd.
    by rewrite createConflict_fresh.
  - unfold handleDelete. rewrite Hid, Hv.
    cbn [missingIdOrVersion default from_option Datatypes.id].
    rewrite (nonempty_truthy _ Hne). cbn [negb].
    unfold bind. rewrite (findRecordById_hit _ _ _ _ Hrec).
    unfold tombstoned. rewrite Hlive, Hvd.
    by rewrite createConflict_fresh.
Qed.

(** X7.  An UPDATE, or a DELETE of a live record, that has not been
    processed and has no conflict yet, whose payload has no U+0000 in
    its strings and carries a non-empty [id] and another 32-bit integer
    version than the record's current one, gets the result CONFLICT
    "Version conflict detected", and the conflict written holds the
    server's snapshot of the record, its version as [serverVersion] and the
    client's as [clientVersion]; the record and the ledger are untouched.
    For an UPDATE this holds for a tombstone as well. *)
Theorem version_mismatch_is_a_conflict_with_the_server_snapshot
    env (op : SyncOperation.t) s id v rec :
  SyncOperation.action op = UPDATE
  \/ (SyncOperation.action op = DELETE /\ Row.deletedAt rec = None) ->
  processedOperations s !! SyncOperation.operationId op = None ->
  (forall c, c ∈ conflicts s -> Conflict.operationId c <> SyncOperation.operationId op) ->
  storableObject (SyncOperation.data op) = true ->
  get "id" (SyncOperation.data op) = Some (JStr id) ->
  id <> "" ->
  get "version" (SyncOperation.data op) = Some (JNum v) ->
  INT4_MIN <= v <= INT4_MAX ->
  rows (SyncOperation.table op) s !! id = Some rec ->
  v <> Row.version rec ->
  let c := Conflict.mk (uuid env) (SyncOperation.operationId op) (SyncOperation.table op) id
             (Some (rowObject rec)) (SyncOperation.data op) (Row.version rec) v
             PENDING None None (now env) in
  processSingleOperation env op s
  = (Returned (OperationResult.mk (SyncOperation.operationId op) CONFLICT
                 (Some (Text "Version conflict detected")) None (Some (uuid env))),
     set_conflicts (conflicts s ++ [c])%list s).
Proof. apply version_mismatch_conflict. Qed.


Lemma prismaCreate_duplicate env t data s id :
  get "id" data = Some (JStr id) ->
  is_Some (rows t s !! id) ->
  exists e, prismaCreate env t data s = (Thrown e, s).
Proof.
  intros Hid [old Hold]. unfold prismaCreate. rewrite Hid. cbn [optional asString].
  destruct (negb _); [by eexists|].
  destruct (optional asInt _); [|by eexists].
  destruct (readPatch Create data) as [p|]; [|by eexists].
  destruct (p_title p); [|by eexists].
  destruct (negb _); [by eexists|].
  cbn [default from_option Datatypes.id]. rewrite Hold. by eexists.
Qed.

(** X9.  A CREATE whose payload names the [id] of a record that is already
    in the table, live or tombstone, gets the result ERROR and nothing is
    written: the existing record is not overwritten and no ledger entry is
    made. *)
Theorem create_of_an_existing_id_is_an_error env (op : SyncOperation.t) s id :
  SyncOperation.action op = CREATE ->
  get "id" (SyncOperation.data op) = Some (JStr id) ->
  is_Some (rows (SyncOperation.table op) s !! id) ->
  exists message,
    processSingleOperation env op s
    = (Returned (OperationResult.mk (SyncOperation.operationId op) ERROR (Some message)
                   None None), s).
Proof.
  intros Hact Hid Hexists.
  unfold processSingleOperation, try_catch, bind, conflictExists.
  rewrite operationExists_spec.
  destruct (processedOperations s !! _); [by eexists|].
  rewrite Hact. unfold handleCreate, try_catch, bind, createRecord.
  destruct (prismaCreate_duplicate env (SyncOperation.table op)
              (assign "version" (JNum 1) (SyncOperation.data op)) s id) as [e ->];
    [by rewrite get_assign_ne|done|].
  by eexists.
Qed.

(** ** The resolver *)

Lemma prismaUpdate_increment_row env t w data s row' s' :
  prismaUpdate env t w (assign "version" increment1 data) s = (Returned row', s') ->
  exists key old,
    asString (w_id w) = Some key
    /\ rows t s !! key = Some old
    /\ Row.id row' = Row.id old
    /\ (is_Some (Row.status row') <-> is_Some (Row.status old))
    /\ Row.version row' = Row.version old + 1
    /\ Row.version row' <= INT4_MAX
    /\ s' = set_table t (<[key := row']> (rows t s)) s.
Proof.
  intros Hp. pose proof Hp as Hspec.
  apply prismaUpdate_spec in Hspec
    as (key & wv & vw & p & old & Hkey & Hwv & Hvw & Hp' & Hold & Hm & -> & ->).
  rewrite increment_is_read in Hvw. simplify_eq.
  exists key, old. split_and!; try done.
  - unfold applyPatch; simpl. by destruct (Row.status old).
  - unfold prismaUpdate in Hp. rewrite increment_is_read, Hkey, Hwv, Hp' in Hp.
    destruct (negb _); [done|].
    unfold updateRow in Hp. destruct (negb (storablePatch _)); [done|].
    rewrite Hold, Hm in Hp.
    destruct (_ && _) eqn:Hrange; [|done].
    apply andb_true_iff in Hrange as [_ Hmax]. by apply Z.leb_le in Hmax.
Qed.

Lemma markResolved_spec env cid o s c' s' :
  markResolved env cid o s = (Returned c', s') ->
  exists c, List.find (hasId cid) (conflicts s) = Some c
            /\ c' = closedAs RESOLVED (now env) (Some o) c
            /\ s' = set_conflicts (replaceConflict cid c' (conflicts s)) s.
Proof.
  unfold markResolved. destruct (negb _); [done|].
  destruct (List.find _ _) as [c|]; [|done].
  intros [= <- <-]. by exists c.
Qed.

Lemma applyResolution_written env cid c dataToApply s c' s' :
  List.find (hasId cid) (conflicts s) = Some c ->
  applyResolution env cid c dataToApply s = (Returned c', s') ->
  exists chosen old row',
    dataToApply = Some chosen
    /\ rows (Conflict.tableName c) s !! Conflict.recordId c = Some old
    /\ Row.id row' = Row.id old
    /\ (is_Some (Row.status row') <-> is_Some (Row.status old))
    /\ Row.version row' = Row.version old + 1
    /\ Row.version row' <= INT4_MAX
    /\ c' = closedAs RESOLVED (now env) (Some chosen) c
    /\ s' = set_conflicts (replaceConflict cid c' (conflicts s))
              (set_table (Conflict.tableName c)
                 (<[Conflict.recordId c := row']> (rows (Conflict.tableName c) s)) s).
Proof.
  intros Hc. unfold applyResolution.
  destruct dataToApply as [o|]; [|done].
  unfold bind, ret.
  destruct (prismaUpdate _ _ _ _ s) as [[row'|e] s1] eqn:Hp; [|done].
  apply prismaUpdate_increment_row in Hp
    as (key & old & Hkey & Hold & Hid & Hst & Hv & Hmax & ->).
  cbn in Hkey. simplify_eq.
  destruct (markResolved _ _ _ _) as [[c1|e] s2] eqn:Hm; [|done].
  apply markResolved_spec in Hm as (c0 & Hc0 & -> & ->).
  rewrite conflicts_set_table in *. simplify_eq.
  intros [= <- <-]. exists o, old, row'. by split_and!.
Qed.

(** What a resolution answered with success has written. *)
Lemma resolveConflict_written env cid dto s response s' :
  resolveConflict env cid dto s = (Returned response, s') ->
  ServiceResponse.success response = true ->
  exists c chosen old row',
    List.find (hasId cid) (conflicts s) = Some c
    /\ Conflict.status c = PENDING
    /\ selectedData dto c = Some chosen
    /\ rows (Conflict.tableName c) s !! Conflict.recordId c = Some old
    /\ Row.id row' = Row.id old
    /\ (is_Some (Row.status row') <-> is_Some (Row.status old))
    /\ Row.version row' = Row.version old + 1
    /\ Row.version row' <= INT4_MAX
    /\ response = ServiceResponseBuilder.success "Conflict resolved successfully"
                    (closedAs RESOLVED (now env) (Some chosen) c)
    /\ s' = set_conflicts
              (replaceConflict cid (closedAs RESOLVED (now env) (Some chosen) c) (conflicts s))
              (set_table (Conflict.tableName c)
                 (<[Conflict.recordId c := row']> (rows (Conflict.tableName c) s)) s).
Proof.
  intros H Hs.
  destruct (resolveConflict_success _ _ _ _ _ _ H Hs)
    as (c & dataToApply & c' & Hc & Hpend & Happ & ->).
  assert (Conflict.status c = PENDING) as Hstatus.
  { unfold isPending in Hpend. by destruct (Conflict.status c). }
  destruct (applyResolution_written _ _ _ _ _ _ _ Hc Happ)
    as (chosen & old & row' & -> & ? & ? & ? & ? & ? & -> & ->).
  exists c, chosen, old, row'. split_and!; try done.
  revert H. unfold resolveConflict, try_catch, bind, ret, findById, transaction.
  rewrite Hc, Hpend. cbn [negb]. unfold selectedData.
  destruct (ResolveConflictDTO.resolution dto).
  - destruct (applyResolution _ _ _ (Some (Conflict.clientData c)) _) as [[c1|e] s1] eqn:Happ1;
      [|done].
    destruct (applyResolution_written _ _ _ _ _ _ _ Hc Happ1)
      as (ch & ? & ? & ? & _ & _ & _ & _ & _ & -> & _).
    intros [= Heq _]. unfold closedAs in Heq. by simplify_eq.
  - destruct (applyResolution _ _ _ (Conflict.serverData c) _) as [[c1|e] s1] eqn:Happ1;
      [|done].
    destruct (applyResolution_written _ _ _ _ _ _ _ Hc Happ1)
      as (ch & ? & ? & -> & _ & _ & _ & _ & _ & -> & _).
    intros [= Heq _]. unfold closedAs in Heq. by simplify_eq.
  - destruct (ResolveConflictDTO.resolvedData dto) as [d|]; [|done].
    destruct (applyResolution _ _ _ (Some d) _) as [[c1|e] s1] eqn:Happ1; [|done].
    destruct (applyResolution_written _ _ _ _ _ _ _ Hc Happ1)
      as (ch & ? & ? & ? & _ & _ & _ & _ & _ & -> & _).
    intros [= Heq _]. unfold closedAs in Heq. by simplify_eq.
Qed.

Lemma resolveConflict_failed env cid dto s response s' :
  resolveConflict env cid dto s = (Returned response, s') ->
  ServiceResponse.success response = false ->
  s' = s.
Proof.
  unfold resolveConflict, try_catch, bind, ret, findById, transaction.
  destruct (List.find _ _) as [c|]; [|by destruct (storable cid); intros [= _ <-]].
  destruct (negb _); [by intros [= _ <-]|].
  destruct (ResolveConflictDTO.resolution dto).
  1,2: destruct (applyResolution _ _ _ _ _) as [[c'|e] s1]; by intros [= <- <-].
  destruct (ResolveConflictDTO.resolvedData dto); [|by intros [= _ <-]].
  destruct (applyResolution _ _ _ _ _) as [[c'|e] s1]; by intros [= <- <-].
Qed.

Lemma resolveConflict_returns env cid dto s :
  exists response s', resolveConflict env cid dto s = (Returned response, s').
Proof.
  unfold resolveConflict, try_catch.
  destruct (bind _ _ s) as [[a|e] s1]; by eexists _, _.
Qed.

(** X10.  A resolution that is not answered with success has written
    nothing, whatever the reason (unknown conflict, conflict no longer
    pending, CUSTOM without data, or a failure inside the transaction,
    which is rolled back). *)
Theorem failed_resolution_leaves_the_store_unchanged env cid dto s response s' :
  resolveConflict env cid dto s = (Returned response, s') ->
  ServiceResponse.success response = false ->
  s' = s.
Proof. apply resolveConflict_failed. Qed.

Lemma closed_conflict_is_refused env cid s c :
  List.find (hasId cid) (conflicts s) = Some c ->
  Conflict.status c <> PENDING ->
  (forall dto,
     resolveConflict env cid dto s
     = (Returned (ServiceResponseBuilder.validationError
                    "Conflict has already been resolved or dismissed"), s))
  /\ dismissConflict env cid s
     = (Returned (ServiceResponseBuilder.validationError
                    "Conflict has already been resolved or dismissed"), s).
Proof.
  intros Hc Hclosed.
  assert (isPending c = false) as Hpend.
  { unfold isPending. by destruct (Conflict.status c). }
  split; [intros dto|].
  - unfold resolveConflict, try_catch, bind, findById. by rewrite Hc, Hpend.
  - unfold dismissConflict, try_catch, bind, findById. by rewrite Hc, Hpend.
Qed.

(** X11.  A resolution answered with success was made on a PENDING
    conflict with the payload its choice selects (the client's data, the
    server's snapshot or the custom data); the conflict is returned and
    stored as RESOLVED, with [resolvedAt] the time of the call and
    [resolvedData] that payload, all its other columns as before; no
    conflict is added or removed and the ledger is untouched. *)
Theorem successful_resolution_marks_the_conflict_resolved env cid dto s response s' :
  resolveConflict env cid dto s = (Returned response, s') ->
  ServiceResponse.success response = true ->
  exists c chosen,
    List.find (hasId cid) (conflicts s) = Some c
    /\ Conflict.status c = PENDING
    /\ selectedData dto c = Some chosen
    /\ ServiceResponse.responseObject response
       = Some (closedAs RESOLVED (now env) (Some chosen) c)
    /\ List.find (hasId cid) (conflicts s')
       = Some (closedAs RESOLVED (now env) (Some chosen) c)
    /\ map Conflict.operationId (conflicts s') = map Conflict.operationId (conflicts s)
    /\ processedOperations s' = processedOperations s.
Proof.
  intros H Hs.
  destruct (resolveConflict_written _ _ _ _ _ _ H Hs)
    as (c & chosen & old & row' & Hc & Hpend & Hsel & _ & _ & _ & _ & _ & -> & ->).
  exists c, chosen. split_and!; try done.
  - simpl. apply (find_replaceConflict _ _ _ c); [done|].
    unfold hasId, closedAs; simpl. apply find_hasId in Hc as [_ ->]. apply String.eqb_refl.
  - simpl. by apply (map_replaceConflict _ _ _ _ c).
  - simpl. by rewrite processedOperations_set_table.
Qed.

(** X12.  A conflict is resolved at most once: after a resolution
    answered with success, every further resolution and every dismissal
    of the same conflict is refused with status 400 and changes nothing. *)
Theorem resolved_conflict_is_final env cid dto s response s' :
  resolveConflict env cid dto s = (Returned response, s') ->
  ServiceResponse.success response = true ->
  forall env',
    (forall dto',
       resolveConflict env' cid dto' s'
       = (Returned (ServiceResponse.mk false "Conflict has already been resolved or dismissed"
                      None 400), s'))
    /\ dismissConflict env' cid s'
       = (Returned (ServiceResponse.mk false "Conflict has already been resolved or dismissed"
                      None 400), s').
Proof.
  intros H Hs env'.
  destruct (resolveConflict_written _ _ _ _ _ _ H Hs)
    as (c & chosen & old & row' & Hc & Hpend & Hsel & _ & _ & _ & _ & _ & -> & ->).
  apply (closed_conflict_is_refused env' cid _ (closedAs RESOLVED (now env) (Some chosen) c));
    [|done].
  simpl. apply (find_replaceConflict _ _ _ c); [done|].
  unfold hasId, closedAs; simpl. by apply find_hasId in Hc as [_ ->%String.eqb_eq].
Qed.

Lemma dismiss_pending env cid s c :
  List.find (hasId cid) (conflicts s) = Some c ->
  Conflict.status c = PENDING ->
  dismissConflict env cid s
  = (Returned (ServiceResponseBuilder.success "Conflict dismissed successfully"
                 (closedAs DISMISSED (now env) (Conflict.resolvedData c) c)),
     set_conflicts
       (replaceConflict cid (closedAs DISMISSED (now env) (Conflict.resolvedData c) c)
          (conflicts s)) s).
Proof.
  intros Hc Hpend.
  unfold dismissConflict, try_catch, bind, findById, ConflictsRepository.dismiss, isPending.
  rewrite Hc, Hpend. cbn [negb]. unfold try_catch. by rewrite Hc.
Qed.

(** X13.  Dismissing a PENDING conflict succeeds: the conflict is returned
    and stored as DISMISSED with [resolvedAt] the time of the call, and
    nothing else changes: no record of either table is touched, the
    ledger is as before, and no conflict is added or removed. *)
Theorem dismissal_closes_the_conflict_and_touches_no_record env cid s c :
  List.find (hasId cid) (conflicts s) = Some c ->
  Conflict.status c = PENDING ->
  exists s',
    dismissConflict env cid s
    = (Returned (ServiceResponse.mk true "Conflict dismissed successfully"
                   (Some (closedAs DISMISSED (now env) (Conflict.resolvedData c) c)) 200), s')
    /\ List.find (hasId cid) (conflicts s')
       = Some (closedAs DISMISSED (now env) (Conflict.resolvedData c) c)
    /\ map Conflict.operationId (conflicts s') = map Conflict.operationId (conflicts s)
    /\ todos s' = todos s
    /\ notes s' = notes s
    /\ processedOperations s' = processedOperations s.
Proof.
  intros Hc Hpend. eexists. split; [by apply dismiss_pending|].
  split_and!; try done; simpl.
  - apply (find_replaceConflict _ _ _ c); [done|].
    unfold hasId, closedAs; simpl. apply find_hasId in Hc as [_ ->]. apply String.eqb_refl.
  - by apply (map_replaceConflict _ _ _ _ c).
Qed.

(** X14.  A dismissed conflict is final: after a dismissal answered with
    success, every resolution and every further dismissal of the same
    conflict is refused with status 400 and changes nothing. *)
Theorem dismissed_conflict_is_final env cid s response s' :
  dismissConflict env cid s = (Returned response, s') ->
  ServiceResponse.success response = true ->
  forall env',
    (forall dto,
       resolveConflict env' cid dto s'
       = (Returned (ServiceResponse.mk false "Conflict has already been resolved or dismissed"
                      None 400), s'))
    /\ dismissConflict env' cid s'
       = (Returned (ServiceResponse.mk false "Conflict has already been resolved or dismissed"
                      None 400), s').
Proof.
  intros H Hs env'.
  destruct (List.find (hasId cid) (conflicts s)) as [c|] eqn:Hc.
  2:{ revert H. unfold dismissConflict, try_catch, bind, findById. rewrite Hc.
      destruct (storable cid); intros [= <- _]; done. }
  assert (Conflict.status c = PENDING \/ Conflict.status c <> PENDING) as [Hpend|Hclosed]
    by (destruct (Conflict.status c); (by left) || by right).
  2:{ destruct (closed_conflict_is_refused env cid s c Hc Hclosed) as [_ Hd].
      rewrite Hd in H. by injection H as <- _. }
  rewrite (dismiss_pending env cid s c Hc Hpend) in H. injection H as <- <-.
  apply (closed_conflict_is_refused env' cid _
           (closedAs DISMISSED (now env) (Conflict.resolvedData c) c)); [|done].
  simpl. apply (find_replaceConflict _ _ _ c); [done|].
  unfold hasId, closedAs; simpl. by apply find_hasId in Hc as [_ ->%String.eqb_eq].
Qed.

(** X15.  An id without U+0000 that no conflict has is answered with
    status 404 "Conflict not found" by the lookup, the resolution and the
    dismissal alike, and nothing is written. *)
Theorem unknown_conflict_is_not_found env cid dto s :
  storable cid = true ->
  (forall c, c ∈ conflicts s -> Conflict.id c <> cid) ->
  let notFound := ServiceResponse.mk false "Conflict not found" None 404 in
  getConflictById cid s = (Returned notFound, s)
  /\ resolveConflict env cid dto s = (Returned notFound, s)
  /\ dismissConflict env cid s = (Returned notFound, s).
Proof.
  intros Hstorable Hnone notFound.
  assert (List.find (hasId cid) (conflicts s) = None) as Hfind.
  { destruct (List.find _ _) as [c|] eqn:Hc; [|done].
    apply find_hasId in Hc as [Hin Hid]. by destruct (Hnone c Hin). }
  unfold getConflictById, resolveConflict, dismissConflict, try_catch, bind, findById.
  by rewrite Hfind, Hstorable.
Qed.


(** ** What every call does to the store *)

Lemma step_refl s : step s s.
Proof. split_and!; [by left|done|by left]. Qed.

Lemma rowStep_insert t (m : gmap string Row.t) key row' k :
  rowStep t key (m !! key) (Some row') ->
  rowStep t k (m !! k) (<[key := row']> m !! k).
Proof.
  intros H. destruct (decide (k = key)) as [->|Hne].
  - by rewrite lookup_insert_eq.
  - rewrite lookup_insert_ne by done. by left.
Qed.

Lemma rows_step t (m : gmap string Row.t) s k t' :
  (forall k, rowStep t k (rows t s !! k) (m !! k)) ->
  rowStep t' k (rows t' s !! k) (rows t' (set_table t m s) !! k).
Proof.
  intros H. destruct (decide (t' = t)) as [->|Hne].
  - by rewrite set_table_same.
  - rewrite set_table_other by done. by left.
Qed.

Lemma createConflict_opens env oid t key sd cd sv cv s c s' :
  createConflict env oid t (JStr key) sd cd sv cv s = (Returned c, s') ->
  match sd with
  | None => sv = 0
  | Some snapshot => exists rec, rows t s !! key = Some rec
                                 /\ snapshot = rowObject rec /\ sv = Row.version rec
  end ->
  conflicts s' = (conflicts s ++ [c])%list
  /\ todos s' = todos s /\ notes s' = notes s
  /\ processedOperations s' = processedOperations s
  /\ opened s c
  /\ Conflict.operationId c = oid
  /\ Conflict.tableName c = t
  /\ Conflict.recordId c = key
  /\ Conflict.clientData c = cd.
Proof.
  intros (rid & v & Hrid & _ & -> & Hfresh & ->)%createConflict_row Hsnap.
  cbn in Hrid. simplify_eq. by split_and!.
Qed.

Lemma handleUpdate_opens env oid t data s r s' :
  handleUpdate env oid t data s = (Returned r, s') ->
  OperationResult.status r = CONFLICT ->
  exists c,
    conflicts s' = (conflicts s ++ [c])%list
    /\ todos s' = todos s /\ notes s' = notes s
    /\ processedOperations s' = processedOperations s
    /\ opened s c
    /\ Conflict.operationId c = oid
    /\ Conflict.tableName c = t
    /\ get "id" data = Some (JStr (Conflict.recordId c))
    /\ Conflict.clientData c = data.
Proof.
  unfold handleUpdate, bind, ret.
  destruct (missingIdOrVersion _ _) eqn:Hmiss; [by intros [= <- <-]|].
  apply not_missing in Hmiss as (i & v & Hi & Hv & _). rewrite Hi, Hv.
  cbn [default from_option Datatypes.id].
  destruct (findRecordById _ _ s) as [[rec|e] s1] eqn:Hf; [|done].
  pose proof Hf as Hstore. apply findRecordById_store in Hstore as ->.
  assert (exists key, i = JStr key) as [key ->].
  { unfold findRecordById in Hf. destruct i; try done. by eexists. }
  apply findRecordById_found in Hf as ->.
  destruct (rows t s !! key) as [old|] eqn:Hold.
  - destruct (versionDiffers _ _) eqn:Hdiff.
    + destruct (createConflict _ _ _ _ _ _ _ _ s) as [[c|e] s2] eqn:Hc; [|done].
      intros [= <- <-] _. exists c.
      apply createConflict_opens in Hc; [|by exists old].
      destruct Hc as (? & ? & ? & ? & ? & ? & ? & <- & ?). by split_and!.
    + destruct (updateRecordWithVersionCheck _ _ _ _ _ s) as [[[row'|]|e] s2]; [| |done].
      * destruct (markOperationProcessed _ _ _ _ s2) as [[[]|e] s3]; [|done].
        by intros [= <- <-].
      * by intros [= <- <-].
  - destruct (createConflict _ _ _ _ _ _ _ _ s) as [[c|e] s2] eqn:Hc; [|done].
    intros [= <- <-] _. exists c.
    apply createConflict_opens in Hc; [|done].
    destruct Hc as (? & ? & ? & ? & ? & ? & ? & <- & ?). by split_and!.
Qed.

Lemma handleDelete_opens env oid t data s r s' :
  handleDelete env oid t data s = (Returned r, s') ->
  OperationResult.status r = CONFLICT ->
  exists c,
    conflicts s' = (conflicts s ++ [c])%list
    /\ todos s' = todos s /\ notes s' = notes s
    /\ processedOperations s' = processedOperations s
    /\ opened s c
    /\ Conflict.operationId c = oid
    /\ Conflict.tableName c = t
    /\ get "id" data = Some (JStr (Conflict.recordId c))
    /\ Conflict.clientData c = data.
Proof.
  unfold handleDelete, bind, ret.
  destruct (missingIdOrVersion _ _) eqn:Hmiss; [by intros [= <- <-]|].
  apply not_missing in Hmiss as (i & v & Hi & Hv & _). rewrite Hi, Hv.
  cbn [default from_option Datatypes.id].
  destruct (findRecordById _ _ s) as [[rec|e] s1] eqn:Hf; [|done].
  pose proof Hf as Hstore. apply findRecordById_store in Hstore as ->.
  assert (exists key, i = JStr key) as [key ->].
  { unfold findRecordById in Hf. destruct i; try done. by eexists. }
  apply findRecordById_found in Hf as ->.
  destruct (rows t s !! key) as [old|] eqn:Hold.
  - destruct (tombstoned old).
    { destruct (markOperationProcessed _ _ _ _ s) as [[[]|e] s3]; [|done].
      by intros [= <- <-]. }
    destruct (versionDiffers _ _) eqn:Hdiff.
    + destruct (createConflict _ _ _ _ _ _ _ _ s) as [[c|e] s2] eqn:Hc; [|done].
      intros [= <- <-] _. exists c.
      apply createConflict_opens in Hc; [|by exists old].
      destruct Hc as (? & ? & ? & ? & ? & ? & ? & <- & ?). by split_and!.
    + destruct (deleteRecordWithVersionCheck _ _ _ _ s) as [[[row'|]|e] s2]; [| |done].
      * destruct (markOperationProcessed _ _ _ _ s2) as [[[]|e] s3]; [|done].
        by intros [= <- <-].
      * by intros [= <- <-].
  - destruct (markOperationProcessed _ _ _ _ s) as [[[]|e] s3]; [|done].
    by intros [= <- <-].
Qed.

Lemma conflict_result_opens env (op : SyncOperation.t) s r s' :
  processSingleOperation env op s = (Returned r, s') ->
  OperationResult.status r = CONFLICT ->
  SyncOperation.action op <> CREATE
  /\ exists c,
       conflicts s' = (conflicts s ++ [c])%list
       /\ todos s' = todos s /\ notes s' = notes s
       /\ processedOperations s' = processedOperations s
       /\ opened s c
       /\ Conflict.operationId c = SyncOperation.operationId op
       /\ Conflict.tableName c = SyncOperation.table op
       /\ get "id" (SyncOperation.data op) = Some (JStr (Conflict.recordId c))
       /\ Conflict.clientData c = SyncOperation.data op.
Proof.
  unfold processSingleOperation, try_catch, bind, conflictExists.
  rewrite operationExists_spec.
  destruct (processedOperations s !! _) eqn:Hfresh; [by intros [= <- <-]|].
  destruct (SyncOperation.action op).
  - destruct (handleCreate _ _ _ _ s) as [[r0|e] s1] eqn:H.
    + destruct (handleCreate_status _ _ _ _ _ _ _ H) as (? & [= <-] & Hst).
      by intros [= <- <-].
    + by intros [= <- <-].
  - destruct (handleUpdate _ _ _ _ s) as [[r0|e] s1] eqn:H; [|by intros [= <- <-]].
    intros [= <- <-] Hst. split; [done|]. by eapply handleUpdate_opens.
  - destruct (handleDelete _ _ _ _ s) as [[r0|e] s1] eqn:H; [|by intros [= <- <-]].
    intros [= <- <-] Hst. split; [done|]. by eapply handleDelete_opens.
Qed.

Lemma processSingleOperation_step env (op : SyncOperation.t) s :
  step s (snd (processSingleOperation env op s)).
Proof.
  destruct (processSingleOperation_effect env op s) as (r & s' & Hrun & _ & Heff).
  rewrite Hrun; simpl. unfold operationEffect in Heff.
  destruct (OperationResult.status r) eqn:Hst.
  - destruct Heff as (Hfresh & Hledger & Hconf & Hother & Hrow). split_and!.
    + intros t key. destruct (decide (t = SyncOperation.table op)) as [->|Hne].
      2:{ rewrite Hother by done. by left. }
      destruct (OperationResult.data r) as [row|].
      * destruct Hrow as (k & -> & Hk). apply rowStep_insert. right.
        destruct (rows _ s !! k) as [old|].
        -- by destruct Hk as (_ & _ & _ & _ & ? & ? & ? & ?).
        -- by destruct Hk as (_ & ? & ? & ?).
      * destruct Hrow as [_ ->]. by left.
    + rewrite Hledger. by apply insert_subseteq.
    + by left.
  - destruct (conflict_result_opens _ _ _ _ _ Hrun Hst)
      as (_ & c & Hc & Ht & Hn & Hl & Hopen & _).
    split_and!.
    + intros [] key; simpl; [rewrite Ht|rewrite Hn]; by left.
    + by rewrite Hl.
    + right; left. by exists c.
  - subst. apply step_refl.
Qed.

Lemma resolveConflict_step env cid dto s : step s (snd (resolveConflict env cid dto s)).
Proof.
  destruct (resolveConflict_returns env cid dto s) as (response & s' & H).
  rewrite H; simpl. destruct (ServiceResponse.success response) eqn:Hs.
  2:{ rewrite (resolveConflict_failed _ _ _ _ _ _ H Hs). apply step_refl. }
  destruct (resolveConflict_written _ _ _ _ _ _ H Hs)
    as (c & chosen & old & row' & Hc & Hpend & Hsel & Hold & Hid & Hst & Hv & Hmax & -> & ->).
  split_and!.
  - intros t key.
    change (rowStep t key (rows t s !! key)
              (rows t (set_table (Conflict.tableName c)
                         (<[Conflict.recordId c := row']> (rows (Conflict.tableName c) s)) s)
               !! key)).
    apply rows_step. intros k. apply rowStep_insert. right. by rewrite Hold.
  - simpl. by rewrite processedOperations_set_table.
  - right; right. exists cid, c, (closedAs RESOLVED (now env) (Some chosen) c).
    split_and!; try done. exists (now env). right. by exists chosen.
Qed.

Lemma dismissConflict_step env cid s : step s (snd (dismissConflict env cid s)).
Proof.
  destruct (List.find (hasId cid) (conflicts s)) as [c|] eqn:Hc.
  2:{ unfold dismissConflict, try_catch, bind, findById. rewrite Hc.
      destruct (storable cid); apply step_refl. }
  assert (Conflict.status c = PENDING \/ Conflict.status c <> PENDING) as [Hpend|Hclosed]
    by (destruct (Conflict.status c); (by left) || by right).
  2:{ destruct (closed_conflict_is_refused env cid s c Hc Hclosed) as [_ ->].
      apply step_refl. }
  rewrite (dismiss_pending env cid s c Hc Hpend). split_and!; try done.
  - intros [] key; by left.
  - right; right. exists cid, c, (closedAs DISMISSED (now env) (Conflict.resolvedData c) c).
    split_and!; try done. exists (now env). by left.
Qed.


(** The CRUD repositories issue the queries of the sync repository. *)
Lemma create_createRecord env t data :
  BaseRepository.create env t data = createRecord env t data.
Proof. done. Qed.

Lemma updateWithVersionCheck_updateRecord env t id v data :
  BaseRepository.updateWithVersionCheck env t id v data
  = updateRecordWithVersionCheck env t (JStr id) (JNum v) data.
Proof. done. Qed.

Lemma softDeleteWithVersionCheck_deleteRecord env t id v :
  BaseRepository.softDeleteWithVersionCheck env t id v
  = deleteRecordWithVersionCheck env t (JStr id) (JNum v).
Proof. done. Qed.

Lemma asInt_JNum v n : asInt (JNum v) = Some n -> n = v /\ INT4_MIN <= v <= INT4_MAX.
Proof.
  unfold asInt. destruct (_ && _) eqn:E; [|done].
  apply andb_true_iff in E as [?%Z.leb_le ?%Z.leb_le]. by intros [= <-].
Qed.

Lemma create_effect env t data s :
  match BaseRepository.create env t data s with
  | (Returned row, s') =>
      rows t s !! Row.id row = None
      /\ s' = set_table t (<[Row.id row := row]> (rows t s)) s
      /\ Row.version row = 1
      /\ (is_Some (Row.status row) <-> t = Todos)
  | (Thrown _, s') => s' = s
  end.
Proof.
  rewrite create_createRecord.
  destruct (createRecord env t data s) as [[row|e] s'] eqn:H.
  - by apply createRecord_row in H.
  - by apply createRecord_thrown in H.
Qed.

Lemma updateWithVersionCheck_effect env t id v data s :
  exists o s',
    BaseRepository.updateWithVersionCheck env t id v data s = (Returned o, s')
    /\ match o with
       | None => s' = s
       | Some row' =>
           exists old,
             rows t s !! id = Some old
             /\ Row.deletedAt old = None
             /\ Row.version old = v
             /\ Row.id row' = Row.id old
             /\ (is_Some (Row.status row') <-> is_Some (Row.status old))
             /\ Row.version row' = v + 1
             /\ Row.version row' <= INT4_MAX
             /\ s' = set_table t (<[id := row']> (rows t s)) s
       end.
Proof.
  rewrite updateWithVersionCheck_updateRecord.
  destruct (updateRecordWithVersionCheck env t (JStr id) (JNum v) data s) as [[o|e] s'] eqn:H;
    apply updateRecordWithVersionCheck_effect in H; [|done].
  exists o, s'. split; [done|]. destruct o as [row'|]; [|done].
  destruct H as (key & old & Hkey & Hcv & Hold & Hlive & Hid & Hst & Hver & Hmax & ->).
  cbn in Hkey. simplify_eq. unfold optional in Hcv.
  destruct (asInt (JNum v)) as [n|] eqn:Hn; [|done].
  apply asInt_JNum in Hn as [-> _]. simplify_eq.
  exists old. by split_and!.
Qed.

Lemma softDeleteWithVersionCheck_effect env t id v s :
  exists o s',
    BaseRepository.softDeleteWithVersionCheck env t id v s = (Returned o, s')
    /\ match o with
       | None => s' = s
       | Some row' =>
           exists old,
             rows t s !! id = Some old
             /\ Row.deletedAt old = None
             /\ Row.version old = v
             /\ row' = Row.mk (Row.id old) (Row.title old) (Row.content old) (Row.status old)
                         (v + 1) (Row.createdAt old) (now env) (Some (now env))
             /\ v + 1 <= INT4_MAX
             /\ s' = set_table t (<[id := row']> (rows t s)) s
       end.
Proof.
  rewrite softDeleteWithVersionCheck_deleteRecord.
  destruct (deleteRecordWithVersionCheck env t (JStr id) (JNum v) s) as [[o|e] s'] eqn:H;
    apply deleteRecordWithVersionCheck_effect in H; [|done].
  exists o, s'. split; [done|]. destruct o as [row'|]; [|done].
  destruct H as (key & old & Hkey & Hcv & Hold & Hlive & -> & Hmax & ->).
  cbn in Hkey. simplify_eq.
  apply asInt_JNum in Hcv as [Hv _]. cbn in Hmax.
  exists old. rewrite <- Hv. by split_and!.
Qed.

Lemma created_step t s row :
  rows t s !! Row.id row = None ->
  Row.version row = 1 ->
  (is_Some (Row.status row) <-> t = Todos) ->
  step s (set_table t (<[Row.id row := row]> (rows t s)) s).
Proof.
  intros Hnew Hv Hst. split_and!.
  - intros t' key. apply rows_step. intros k. apply rowStep_insert. right. by rewrite Hnew.
  - by rewrite processedOperations_set_table.
  - left. by rewrite conflicts_set_table.
Qed.

Lemma updated_step t s id old row' :
  rows t s !! id = Some old ->
  Row.id row' = Row.id old ->
  (is_Some (Row.status row') <-> is_Some (Row.status old)) ->
  Row.version row' = Row.version old + 1 ->
  Row.version row' <= INT4_MAX ->
  step s (set_table t (<[id := row']> (rows t s)) s).
Proof.
  intros Hold Hid Hst Hv Hmax. split_and!.
  - intros t' key. apply rows_step. intros k. apply rowStep_insert. right. by rewrite Hold.
  - by rewrite processedOperations_set_table.
  - left. by rewrite conflicts_set_table.
Qed.

Lemma create_step {T} env t data (k : Row.t -> M T) (h : error -> M T) s :
  (forall row s', k row s' = ((k row s').1, s')) ->
  (forall e s', h e s' = ((h e s').1, s')) ->
  step s (snd (try_catch (bind (BaseRepository.create env t data) k) h s)).
Proof.
  intros Hk Hh. unfold try_catch, bind.
  pose proof (create_effect env t data s) as H.
  destruct (BaseRepository.create env t data s) as [[row|e] s'].
  - destruct H as (Hnew & -> & Hv & Hst). rewrite Hk.
    destruct (k row _).1; simpl; [|rewrite Hh; simpl]; by apply created_step.
  - subst. rewrite Hh. apply step_refl.
Qed.

Lemma versioned_step {T} t id (m : M (option Row.t)) (k : option Row.t -> M T)
    (h : error -> M T) s :
  (exists o s',
     m s = (Returned o, s')
     /\ match o with
        | None => s' = s
        | Some row' =>
            exists old,
              rows t s !! id = Some old
              /\ Row.id row' = Row.id old
              /\ (is_Some (Row.status row') <-> is_Some (Row.status old))
              /\ Row.version row' = Row.version old + 1
              /\ Row.version row' <= INT4_MAX
              /\ s' = set_table t (<[id := row']> (rows t s)) s
        end) ->
  (forall o s', k o s' = ((k o s').1, s')) ->
  (forall e s', h e s' = ((h e s').1, s')) ->
  step s (snd (try_catch (bind m k) h s)).
Proof.
  intros (o & s' & Hm & Ho) Hk Hh. unfold try_catch, bind. rewrite Hm, Hk.
  assert (step s s') as Hstep.
  { destruct o as [row'|]; [|subst; apply step_refl].
    destruct Ho as (old & Hold & Hid & Hst & Hv & Hmax & ->). by eapply updated_step. }
  destruct (k o s').1; simpl; [done|]. by rewrite Hh.
Qed.

Lemma update_versioned env t id v data s :
  exists o s',
    BaseRepository.updateWithVersionCheck env t id v data s = (Returned o, s')
    /\ match o with
       | None => s' = s
       | Some row' =>
           exists old,
             rows t s !! id = Some old
             /\ Row.id row' = Row.id old
             /\ (is_Some (Row.status row') <-> is_Some (Row.status old))
             /\ Row.version row' = Row.version old + 1
             /\ Row.version row' <= INT4_MAX
             /\ s' = set_table t (<[id := row']> (rows t s)) s
       end.
Proof.
  destruct (updateWithVersionCheck_effect env t id v data s) as (o & s' & H & Ho).
  exists o, s'. split; [done|]. destruct o as [row'|]; [|done].
  destruct Ho as (old & ? & ? & <- & ? & ? & ? & ? & ?). exists old. by split_and!.
Qed.

Lemma softDelete_versioned env t id v s :
  exists o s',
    BaseRepository.softDeleteWithVersionCheck env t id v s = (Returned o, s')
    /\ match o with
       | None => s' = s
       | Some row' =>
           exists old,
             rows t s !! id = Some old
             /\ Row.id row' = Row.id old
             /\ (is_Some (Row.status row') <-> is_Some (Row.status old))
             /\ Row.version row' = Row.version old + 1
             /\ Row.version row' <= INT4_MAX
             /\ s' = set_table t (<[id := row']> (rows t s)) s
       end.
Proof.
  destruct (softDeleteWithVersionCheck_effect env t id v s) as (o & s' & H & Ho).
  exists o, s'. split; [done|]. destruct o as [row'|]; [|done].
  destruct Ho as (old & ? & ? & <- & -> & ? & ?). exists old. by split_and!.
Qed.

Lemma perform_step (c : call) s : step s (perform c s).
Proof.
  destruct c; simpl.
  - apply processSingleOperation_step.
  - apply resolveConflict_step.
  - apply dismissConflict_step.
  - by apply create_step.
  - apply (versioned_step Todos id); [eapply update_versioned| |done].
    by intros [row'|] s'.
  - apply (versioned_step Todos id); [eapply softDelete_versioned| |done].
    by intros [row'|] s'.
  - by apply create_step.
  - apply (versioned_step Notes id); [eapply update_versioned| |done].
    by intros [row'|] s'.
  - apply (versioned_step Notes id); [eapply softDelete_versioned| |done].
    by intros [row'|] s'.
Qed.


(** ** Invariants of the store *)

Lemma step_wellFormed s s' : step s s' -> wellFormed s -> wellFormed s'.
Proof.
  intros (Hrows & _ & Hconf) (Hwf & Hcs & Hnodup). split_and!.
  - intros t key r Hr. specialize (Hrows t key). rewrite Hr in Hrows.
    destruct Hrows as [Hsame|Hnew]; [by apply Hwf|].
    destruct (rows t s !! key) as [old|] eqn:Hold.
    + destruct Hnew as (Hid & Hv & Hmax & Hst).
      destruct (Hwf t key old Hold) as (Hid' & Hv' & Hst').
      split_and!; [congruence|lia|done|by rewrite Hst].
    + destruct Hnew as (Hid & Hv & Hst). unfold rowWellFormed. rewrite Hv. by split_and!.
  - intros x Hx. destruct Hconf as [Hsame|[(c & Hc & Hopen)|(cid & c & c' & Hfind & Hpend & Hc & at_ & Hc')]].
    + rewrite Hsame in Hx. by apply Hcs.
    + rewrite Hc in Hx. apply elem_of_app in Hx as [Hx|Hx%list_elem_of_singleton];
        [by apply Hcs|subst x].
      destruct Hopen as (Hst & Hat & Hdata & _ & Hsnap). split.
      * unfold lifecycleConsistent. by rewrite Hst.
      * unfold snapshotConsistent. destruct (Conflict.serverData c) as [snapshot|]; [|done].
        destruct Hsnap as (rec & Hrec & -> & ->).
        destruct (Hwf _ _ _ Hrec) as (Hid & Hv & _).
        rewrite get_rowObject_version, get_rowObject_id, Hid. split_and!; [lia|done|done].
    + rewrite Hc in Hx. apply elem_of_replaceConflict in Hx as [->|Hx]; [|by apply Hcs].
      apply find_hasId in Hfind as [Hin _]. destruct (Hcs c Hin) as [Hlife Hsnap].
      unfold lifecycleConsistent in Hlife. rewrite Hpend in Hlife. destruct Hlife as [_ Hnone].
      split.
      * destruct Hc' as [->|[chosen ->]]; unfold lifecycleConsistent, closedAs; simpl; [|done].
        by rewrite Hnone.
      * by destruct Hc' as [->|[chosen ->]].
  - destruct Hconf as [->|[(c & -> & Hopen)|(cid & c & c' & Hfind & Hpend & -> & at_ & Hc')]].
    + done.
    + destruct Hopen as (_ & _ & _ & Hfresh & _).
      rewrite map_app. apply NoDup_app. split_and!; [done| |apply NoDup_singleton].
      intros o Ho ->%list_elem_of_singleton. done.
    + rewrite (map_replaceConflict _ _ _ _ c); [done|done|].
      by destruct Hc' as [->|[chosen ->]].
Qed.

Lemma wellFormed_emptyStore : wellFormed emptyStore.
Proof.
  split_and!.
  - intros [] key r; simpl; by rewrite lookup_empty.
  - by intros c ?%elem_of_nil.
  - apply NoDup_nil_2.
Qed.

Lemma performAll_cons c cs s : performAll (c :: cs) s = performAll cs (perform c s).
Proof. done. Qed.

Lemma lookup_replaceConflict_cases id c' cs c i x :
  List.find (hasId id) cs = Some c ->
  cs !! i = Some x ->
  replaceConflict id c' cs !! i = Some x
  \/ (x = c /\ replaceConflict id c' cs !! i = Some c').
Proof.
  revert i. induction cs as [|a rest IH]; intros i; simpl; [done|].
  destruct (hasId id a).
  - intros [= ->]. destruct i as [|j]; simpl; [|by left]. intros [= ->]. by right.
  - intros Hfind. destruct i as [|j]; simpl; [by left|]. by apply IH.
Qed.


(** X16.  Every call keeps the store well formed: each record sits
    under its own id with a version between 1 and the INTEGER maximum
    and has a [status] exactly when it is a todo; each conflict's
    resolution columns agree with its status, its [serverVersion] and
    [recordId] agree with its snapshot; and no two conflicts share an
    [operationId].  This holds after any sequence of sync operations,
    resolutions, dismissals and CRUD writes, whatever their arguments
    and outcomes. *)
Theorem calls_keep_the_store_well_formed (cs : list call) s :
  wellFormed s -> wellFormed (performAll cs s).
Proof.
  revert s. induction cs as [|c cs IH]; intros s Hwf; [done|].
  rewrite performAll_cons. apply IH. eapply step_wellFormed; [apply perform_step|done].
Qed.

(** X17.  No call removes a record, changes its id or lets its version
    fall, and any change to a stored record raises its version: after
    any sequence of calls the record is either exactly as it was or has
    a higher version. *)
Theorem stored_record_changes_only_with_a_higher_version (cs : list call) s t key old :
  rows t s !! key = Some old ->
  exists new,
    rows t (performAll cs s) !! key = Some new
    /\ Row.id new = Row.id old
    /\ (is_Some (Row.status new) <-> is_Some (Row.status old))
    /\ (new = old \/ Row.version old < Row.version new).
Proof.
  revert s old. induction cs as [|c cs IH]; intros s old Hold.
  { exists old. split_and!; try done. by left. }
  rewrite performAll_cons.
  destruct (perform_step c s) as (Hrows & _ & _). specialize (Hrows t key).
  rewrite Hold in Hrows.
  destruct Hrows as [Hsame|Hnew].
  { by apply IH. }
  destruct (rows t (perform c s) !! key) as [mid|] eqn:Hmid; [|done].
  destruct Hnew as (Hid & Hv & _ & Hst).
  destruct (IH _ _ Hmid) as (new & Hnew & Hid' & Hst' & Hver).
  exists new. split_and!; [done|congruence|by rewrite Hst'|].
  right. destruct Hver as [->|Hlt]; lia.
Qed.

(** X18.  An operation is applied at most once, for good: once it got
    the result APPLIED, every later operation that carries its
    [operationId] is answered ERROR "Operation already processed" and
    changes nothing, whatever calls were served in between and whatever
    the action, table and payload of the repetition. *)
Theorem applied_operation_is_rejected_ever_after
    env (op : SyncOperation.t) s r s' (cs : list call) env' (op' : SyncOperation.t) :
  processSingleOperation env op s = (Returned r, s') ->
  OperationResult.status r = APPLIED ->
  SyncOperation.operationId op' = SyncOperation.operationId op ->
  processSingleOperation env' op' (performAll cs s')
  = (Returned (OperationResult.mk (SyncOperation.operationId op) ERROR
                 (Some (Text "Operation already processed")) None None),
     performAll cs s').
Proof.
  intros Hrun Hst Hid.
  pose proof (operation_effect _ _ _ _ _ Hrun) as Heff.
  unfold operationEffect in Heff. rewrite Hst in Heff. destruct Heff as (_ & Hledger & _).
  assert (forall cs s0 p, processedOperations s0 !! SyncOperation.operationId op = Some p ->
            processedOperations (performAll cs s0) !! SyncOperation.operationId op = Some p)
    as Hkept.
  { clear. intros cs. induction cs as [|c cs IH]; intros s0 p Hp; [done|].
    rewrite performAll_cons. apply IH.
    destruct (perform_step c s0) as (_ & Hsub & _).
    by eapply lookup_weaken. }
  unfold processSingleOperation, try_catch, bind, conflictExists.
  rewrite operationExists_spec, Hid.
  erewrite Hkept; [done|]. rewrite Hledger. apply lookup_insert_eq.
Qed.

(** X19.  A conflict is never removed or moved and what it records of
    the collision is never rewritten: after any sequence of calls the
    conflict is at its place either exactly as it was, or, if it was
    PENDING, closed once as RESOLVED or DISMISSED with only its three
    resolution columns changed.  A closed conflict never changes. *)
Theorem conflict_is_kept_and_closed_at_most_once (cs : list call) s i c :
  conflicts s !! i = Some c ->
  exists c',
    conflicts (performAll cs s) !! i = Some c'
    /\ (c' = c
        \/ (Conflict.status c = PENDING
            /\ exists st at_ data, st <> PENDING /\ c' = closedAs st at_ data c)).
Proof.
  revert s c. induction cs as [|call cs IH]; intros s c Hc.
  { exists c. split; [done|by left]. }
  rewrite performAll_cons.
  destruct (perform_step call s) as (_ & _ & Hconf).
  destruct Hconf as [Hsame|[(x & Hx & _)|(cid & c0 & c1 & Hfind & Hpend & Hrep & at_ & Hc1)]].
  - apply IH. by rewrite Hsame.
  - apply IH. rewrite Hx. by apply lookup_app_l_Some.
  - destruct (lookup_replaceConflict_cases cid c1 _ _ _ _ Hfind Hc) as [Hkept|[-> Hclosed]].
    + apply IH. by rewrite Hrep.
    + rewrite <- Hrep in Hclosed. destruct (IH _ _ Hclosed) as (c' & Hc' & Hfinal).
      exists c'. split; [done|]. right. split; [done|].
      assert (Conflict.status c1 <> PENDING) as Hst
        by by destruct Hc1 as [->|[chosen ->]].
      destruct Hfinal as [->|[Hpend1 _]]; [|done].
      destruct Hc1 as [->|[chosen ->]]; by eexists _, _, _.
Qed.

(** X20.  A batch is its operations served one after the other: the
    batch [ops1 ++ ops2] gives the results and leaves the store that
    [ops1] followed by [ops2] give, so nothing an earlier operation wrote
    is undone when a later one conflicts or fails. *)
Theorem batch_is_served_one_operation_after_the_other
    oracle (ops1 ops2 : list SyncOperation.t) s :
  exists rs1 s1 rs2 s2,
    processSyncOperations oracle ops1 s = (Returned rs1, s1)
    /\ processSyncOperations (fun i => oracle (length ops1 + i)%nat) ops2 s1 = (Returned rs2, s2)
    /\ processSyncOperations oracle (ops1 ++ ops2)%list s = (Returned (rs1 ++ rs2)%list, s2).
Proof.
  revert oracle s. induction ops1 as [|op ops1 IH]; intros oracle s.
  - destruct (processSyncOperations_returns oracle ops2 s) as (rs2 & s2 & H2 & _).
    by exists [], s, rs2, s2.
  - destruct (processSingleOperation_returns (oracle O) op s) as (r & s0 & Hr & _).
    destruct (IH (fun i => oracle (S i)) s0) as (rs1 & s1 & rs2 & s2 & H1 & H2 & H12).
    exists (r :: rs1), s1, rs2, s2.
    cbn [processSyncOperations app length]. unfold bind. rewrite Hr, H1, H12.
    by split_and!.
Qed.


(** ** Listings and statistics *)

Lemma filter_all {A} (f : A -> bool) (l : list A) :
  (forall x, f x = true) -> List.filter f l = l.
Proof. intros Hf. induction l as [|x l IH]; simpl; by rewrite ?Hf, ?IH. Qed.

Lemma findAll_everything s :
  ConflictsRepository.findAll None None s
  = (Returned (merge_sort (newestFirst Conflict.createdAt) (conflicts s)), s).
Proof.
  unfold ConflictsRepository.findAll.
  by rewrite filter_all.
Qed.

Lemma statuses_partition (cs : list Conflict.t) :
  (length (List.filter (statusIs PENDING) cs) + length (List.filter (statusIs RESOLVED) cs)
   + length (List.filter (statusIs DISMISSED) cs) = length cs)%nat.
Proof.
  induction cs as [|c cs IH]; [done|]. cbn [List.filter].
  assert ((statusIs PENDING c, statusIs RESOLVED c, statusIs DISMISSED c) = (true, false, false)
          \/ (statusIs PENDING c, statusIs RESOLVED c, statusIs DISMISSED c)
             = (false, true, false)
          \/ (statusIs PENDING c, statusIs RESOLVED c, statusIs DISMISSED c)
             = (false, false, true)) as Hone.
  { unfold statusIs. destruct (Conflict.status c); cbn; auto. }
  destruct Hone as [[= -> -> ->]|[[= -> -> ->]|[= -> -> ->]]]; cbn [length]; lia.
Qed.

Lemma pending_by_table (cs : list Conflict.t) :
  (length (List.filter (statusIs PENDING) cs)
   = length (List.filter (ConflictsRepository.pendingIn Todos) cs)
     + length (List.filter (ConflictsRepository.pendingIn Notes) cs))%nat.
Proof.
  induction cs as [|c cs IH]; [done|]. cbn [List.filter].
  assert ((statusIs PENDING c, ConflictsRepository.pendingIn Todos c,
           ConflictsRepository.pendingIn Notes c) = (true, true, false)
          \/ (statusIs PENDING c, ConflictsRepository.pendingIn Todos c,
              ConflictsRepository.pendingIn Notes c) = (true, false, true)
          \/ (statusIs PENDING c, ConflictsRepository.pendingIn Todos c,
              ConflictsRepository.pendingIn Notes c) = (false, false, false)) as Hone.
  { unfold statusIs, ConflictsRepository.pendingIn, isPending.
    destruct (Conflict.status c), (Conflict.tableName c); cbn; auto. }
  destruct Hone as [[= -> -> ->]|[[= -> -> ->]|[= -> -> ->]]]; cbn [length]; lia.
Qed.

Lemma getPendingCountByTable_spec s :
  exists byTable,
    ConflictsRepository.getPendingCountByTable s = (Returned byTable, s)
    /\ (forall t, default O (byTable !! TableName_text t)
                  = length (List.filter (ConflictsRepository.pendingIn t) (conflicts s)))
    /\ (forall name n, byTable !! name = Some n -> (0 < n)%nat).
Proof.
  unfold ConflictsRepository.getPendingCountByTable. eexists. split; [done|].
  cbn [map TableName_text List.filter snd fst].
  destruct (length (List.filter (ConflictsRepository.pendingIn Todos) (conflicts s)))
    as [|n1] eqn:H1;
  destruct (length (List.filter (ConflictsRepository.pendingIn Notes) (conflicts s)))
    as [|n2] eqn:H2; cbn [Nat.eqb negb List.filter foldl fst snd].
  - split; [by intros []; rewrite lookup_empty|]. intros name n. by rewrite lookup_empty.
  - split.
    + intros []; cbn [TableName_text].
      * by rewrite lookup_insert_ne, lookup_empty.
      * by rewrite lookup_insert_eq.
    + intros name n [[_ <-]|[_ ?]]%lookup_insert_Some; [lia|by rewrite lookup_empty in *].
  - split.
    + intros []; cbn [TableName_text].
      * by rewrite lookup_insert_eq.
      * by rewrite lookup_insert_ne, lookup_empty.
    + intros name n [[_ <-]|[_ ?]]%lookup_insert_Some; [lia|by rewrite lookup_empty in *].
  - split.
    + intros []; cbn [TableName_text].
      * by rewrite lookup_insert_ne, lookup_insert_eq.
      * by rewrite lookup_insert_eq.
    + intros name n [[_ <-]|[_ [[_ <-]|[_ ?]]%lookup_insert_Some]]%lookup_insert_Some;
        [lia|lia|by rewrite lookup_empty in *].
Qed.

(** X21.  The statistics count every stored conflict exactly once:
    [total] is the number of conflicts, which is the sum of [pending],
    [resolved] and [dismissed]; [byTable] holds for each table its number
    of pending conflicts, with no entry for a table that has none, and
    its entries add up to [pending].  The store is not written. *)
Theorem conflict_statistics_count_every_conflict_once s :
  exists stats,
    getConflictStats s
    = (Returned (ServiceResponse.mk true "Statistics fetched successfully" (Some stats) 200), s)
    /\ ConflictStats.total stats = length (conflicts s)
    /\ (ConflictStats.pending stats + ConflictStats.resolved stats
        + ConflictStats.dismissed stats = ConflictStats.total stats)%nat
    /\ (forall t, default O (ConflictStats.byTable stats !! TableName_text t)
                  = length (List.filter (ConflictsRepository.pendingIn t) (conflicts s)))
    /\ (forall name n, ConflictStats.byTable stats !! name = Some n -> (0 < n)%nat)
    /\ (ConflictStats.pending stats
        = default O (ConflictStats.byTable stats !! "todos")
          + default O (ConflictStats.byTable stats !! "notes"))%nat.
Proof.
  destruct (getPendingCountByTable_spec s) as (byTable & Hrun & Hcount & Hpos).
  unfold getConflictStats, try_catch, bind. rewrite Hrun, findAll_everything.
  eexists. split; [done|]. cbn [ConflictStats.total ConflictStats.pending
    ConflictStats.resolved ConflictStats.dismissed ConflictStats.byTable].
  pose proof (merge_sort_Permutation (newestFirst Conflict.createdAt) (conflicts s)) as Hperm.
  split_and!; try done.
  - by apply Permutation_length.
  - apply statuses_partition.
  - pose proof (Hcount Todos) as HT. pose proof (Hcount Notes) as HN.
    cbn [TableName_text] in HT, HN. rewrite HT, HN, <- pending_by_table.
    by apply filter_length_Permutation.
Qed.

#[local] Instance newestFirst_total {A} (createdAt : A -> DateTime) :
  Total (newestFirst createdAt).
Proof. intros a b. unfold newestFirst. destruct (String.le_total (createdAt a) (createdAt b)); auto. Qed.

#[local] Instance newestFirst_trans {A} (createdAt : A -> DateTime) :
  Transitive (newestFirst createdAt).
Proof. intros a b c Hab Hbc. unfold newestFirst in *. by etrans. Qed.

Lemma elem_of_List_filter {A} (f : A -> bool) (l : list A) x :
  x ∈ List.filter f l <-> x ∈ l /\ f x = true.
Proof. rewrite !list_elem_of_In. apply filter_In. Qed.

(** X22.  The listing of a table shows exactly its live records: a row
    is listed if and only if it is stored and has no [deletedAt], a
    listed row comes before every row created earlier, and the store is
    not written.  The listing of the conflicts, when neither filter
    holds U+0000, shows in the same order exactly the conflicts that
    pass the two filters. *)
Theorem listings_show_the_live_records_newest_first t status tableName s :
  (exists listed,
     BaseService.getAll t s
     = (Returned (ServiceResponse.mk true (entityName t ++ "s fetched successfully")%string
                    (Some listed) 200), s)
     /\ (forall r, r ∈ listed <-> (exists key, rows t s !! key = Some r)
                                   /\ Row.deletedAt r = None)
     /\ StronglySorted (fun a b => String.le (Row.createdAt b) (Row.createdAt a)) listed)
  /\ (storableOption status = true ->
      storableOption tableName = true ->
      exists listed,
        getAllConflicts status tableName s
        = (Returned (ServiceResponse.mk true "Conflicts fetched successfully"
                       (Some listed) 200), s)
        /\ listed ≡ₚ List.filter (ConflictsRepository.matching status tableName) (conflicts s)
        /\ StronglySorted
             (fun a b => String.le (Conflict.createdAt b) (Conflict.createdAt a)) listed).
Proof.
  split.
  - eexists. split; [done|]. split.
    + intros r. rewrite merge_sort_Permutation, elem_of_List_filter.
      unfold isLive, tombstoned. split.
      * intros [[[key r'] [-> Hin%elem_of_map_to_list]]%list_elem_of_fmap Hlive].
        split; [by exists key|]. simpl in *. by destruct (Row.deletedAt r').
      * intros [[key Hkey] Hlive]. split; [|by rewrite Hlive].
        apply list_elem_of_fmap. exists (key, r). split; [done|].
        by apply elem_of_map_to_list.
    + apply (StronglySorted_merge_sort (newestFirst Row.createdAt)); apply _.
  - intros Hstatus Htable. eexists. split.
    + unfold getAllConflicts, try_catch, bind, ConflictsRepository.findAll.
      by rewrite Hstatus, Htable.
    + split.
      * apply merge_sort_Permutation.
      * apply (StronglySorted_merge_sort (newestFirst Conflict.createdAt)); apply _.
Qed.


(** ** The CRUD services *)

Lemma asInt_in_range v : INT4_MIN <= v <= INT4_MAX -> asInt (JNum v) = Some v.
Proof.
  intros [Hmin Hmax]. unfold asInt.
  apply Z.leb_le in Hmin, Hmax. by rewrite Hmin, Hmax.
Qed.

Lemma updateRow_live env t id p s old :
  storablePatch p = true ->
  rows t s !! id = Some old ->
  Row.deletedAt old = None ->
  INT4_MIN <= Row.version old < INT4_MAX ->
  updateRow env t id (Some (Row.version old)) true p (Some (Increment 1)) s
  = (Returned (applyPatch env p (Some (Increment 1)) old),
     set_table t (<[id := applyPatch env p (Some (Increment 1)) old]> (rows t s)) s).
Proof.
  intros Hp Hold Hlive [Hmin Hmax]. unfold updateRow, matches.
  rewrite Hp, Hold, Hlive, Z.eqb_refl.
  cbn [andb negb applyPatch Row.version writeVersion].
  assert ((INT4_MIN <=? Row.version old + 1) = true) as -> by (apply Z.leb_le; lia).
  assert ((Row.version old + 1 <=? INT4_MAX) = true) as -> by (apply Z.leb_le; unfold INT4_MAX in *; lia).
  done.
Qed.

Lemma updateTodo_written env id dto s old :
  storableOption (UpdateTodoDTO.title dto) = true ->
  storableOption (UpdateTodoDTO.content dto) = true ->
  storableOption (UpdateTodoDTO.status dto) = true ->
  rows Todos s !! id = Some old ->
  Row.deletedAt old = None ->
  UpdateTodoDTO.version dto = Row.version old ->
  INT4_MIN <= Row.version old < INT4_MAX ->
  let row' := Row.mk (Row.id old)
                (default (Row.title old) (UpdateTodoDTO.title dto))
                (match UpdateTodoDTO.content dto with
                 | Some c => Some c
                 | None => Row.content old
                 end)
                (match Row.status old with
                 | Some st => Some (default st (UpdateTodoDTO.status dto))
                 | None => None
                 end)
                (Row.version old + 1) (Row.createdAt old) (now env) None in
  TodosService.updateTodo env id dto s
  = (Returned (ServiceResponse.mk true "Todo updated successfully" (Some row') 200),
     set_table Todos (<[id := row']> (rows Todos s)) s).
Proof.
  intros Ht Hc Hs Hold Hlive Hv Hrange row'.
  unfold TodosService.updateTodo, BaseRepository.updateWithVersionCheck, try_catch, bind,
    prismaUpdate.
  rewrite Hv. cbn [w_id w_version w_live asString optional].
  rewrite asInt_in_range by lia.
  destruct dto as [[ttl|] [c|] [st|] v]; cbn in Hv, Ht, Hc, Hs; subst v;
    cbn -[updateRow storable];
    rewrite (updateRow_live _ _ _ _ _ old)
      by (first [done | unfold storablePatch; cbn -[storable]; by rewrite ?Ht, ?Hc, ?Hs]);
    unfold row', applyPatch; cbn -[storable]; rewrite Hlive; done.
Qed.


Lemma updateWithVersionCheck_refused env t id v data s :
  (forall old, rows t s !! id = Some old ->
               Row.version old <> v \/ Row.deletedAt old <> None) ->
  BaseRepository.updateWithVersionCheck env t id v data s = (Returned None, s).
Proof.
  intros Hstale.
  destruct (updateWithVersionCheck_effect env t id v data s) as (o & s' & -> & Ho).
  destruct o as [row'|]; [|by subst].
  destruct Ho as (old & Hold & Hlive & Hv & _). by destruct (Hstale old Hold).
Qed.

Lemma softDeleteWithVersionCheck_refused env t id v s :
  (forall old, rows t s !! id = Some old ->
               Row.version old <> v \/ Row.deletedAt old <> None) ->
  BaseRepository.softDeleteWithVersionCheck env t id v s = (Returned None, s).
Proof.
  intros Hstale.
  destruct (softDeleteWithVersionCheck_effect env t id v s) as (o & s' & -> & Ho).
  destruct o as [row'|]; [|by subst].
  destruct Ho as (old & Hold & Hlive & Hv & _). by destruct (Hstale old Hold).
Qed.

Lemma softDeleteWithVersionCheck_live env t id s old :
  rows t s !! id = Some old ->
  Row.deletedAt old = None ->
  INT4_MIN <= Row.version old < INT4_MAX ->
  let tombstone := Row.mk (Row.id old) (Row.title old) (Row.content old) (Row.status old)
                     (Row.version old + 1) (Row.createdAt old) (now env) (Some (now env)) in
  BaseRepository.softDeleteWithVersionCheck env t id (Row.version old) s
  = (Returned (Some tombstone), set_table t (<[id := tombstone]> (rows t s)) s).
Proof.
  intros Hold Hlive Hrange tombstone.
  unfold BaseRepository.softDeleteWithVersionCheck, try_catch, bind.
  rewrite asInt_in_range by lia.
  rewrite (updateRow_live _ _ _ _ _ old) by done.
  unfold tombstone, applyPatch; cbn. by destruct (Row.status old).
Qed.

(** X23.  A resolution request is validated before the service is
    called: a body that is not an object, or whose [resolution] is not
    one of the texts CLIENT, SERVER and CUSTOM, is answered with status
    400 "Invalid resolution data" and nothing is written. *)
Theorem resolution_request_without_a_valid_resolution_is_refused env id body s :
  (forall o r, body = JObj o -> get "resolution" o = Some (JStr r) ->
               r <> "CLIENT" /\ r <> "SERVER" /\ r <> "CUSTOM") ->
  ConflictsController.resolveConflict env id body s
  = (Returned (ServiceResponse.mk false "Invalid resolution data" None 400), s).
Proof.
  intros Hinvalid.
  assert (ResolveConflictSchema body = None) as Hparse.
  { destruct body as [| | | | | |o]; try done. unfold ResolveConflictSchema.
    destruct (optional asRecord _) as [resolvedData|]; [|done].
    destruct (get "resolution" o) as [[| | | |r| |]|] eqn:Hr; try done.
    destruct (Hinvalid o r eq_refl Hr) as (Hc & Hs & Hu).
    unfold ResolutionSchema.
    apply String.eqb_neq in Hc, Hs, Hu. by rewrite Hc, Hs, Hu. }
  unfold ConflictsController.resolveConflict, try_catch, bind. by rewrite Hparse.
Qed.

(** X24.  A CRUD update that carries the current version (below the
    INTEGER maximum) of a live todo and no string with U+0000
    succeeds: the fields given replace the stored ones, the fields left
    out stay, the version goes up by one and [updatedAt] becomes the
    time of the call; the response (status 200) carries the row that is
    stored. *)
Theorem crud_update_at_the_current_version_writes_the_given_fields env id dto s old :
  storableOption (UpdateTodoDTO.title dto) = true ->
  storableOption (UpdateTodoDTO.content dto) = true ->
  storableOption (UpdateTodoDTO.status dto) = true ->
  rows Todos s !! id = Some old ->
  Row.deletedAt old = None ->
  UpdateTodoDTO.version dto = Row.version old ->
  INT4_MIN <= Row.version old < INT4_MAX ->
  let row' := Row.mk (Row.id old)
                (default (Row.title old) (UpdateTodoDTO.title dto))
                (match UpdateTodoDTO.content dto with
                 | Some c => Some c
                 | None => Row.content old
                 end)
                (match Row.status old with
                 | Some st => Some (default st (UpdateTodoDTO.status dto))
                 | None => None
                 end)
                (Row.version old + 1) (Row.createdAt old) (now env) None in
  TodosService.updateTodo env id dto s
  = (Returned (ServiceResponse.mk true "Todo updated successfully" (Some row') 200),
     set_table Todos (<[id := row']> (rows Todos s)) s).
Proof. apply updateTodo_written. Qed.

(** X25.  A CRUD update or delete is refused unless it carries the
    current version of a live record: when the record is absent, is a
    tombstone or has another version, the todo and the note service
    answer with status 409 and nothing is written. *)
Theorem crud_write_with_a_stale_version_is_refused env t id v s :
  (forall old, rows t s !! id = Some old ->
               Row.version old <> v \/ Row.deletedAt old <> None) ->
  match t with
  | Todos =>
      (forall dto, UpdateTodoDTO.version dto = v ->
         TodosService.updateTodo env id dto s
         = (Returned (ServiceResponse.mk false
                        "Version conflict: Todo has been modified by another client"
                        None 409), s))
      /\ TodosService.deleteTodo env id v s
         = (Returned (ServiceResponse.mk false
                        "Version conflict: Todo has been modified by another client"
                        None 409), s)
  | Notes =>
      (forall dto, UpdateNoteDTO.version dto = v ->
         NotesService.updateNote env id dto s
         = (Returned (ServiceResponse.mk false
                        "Version conflict: Note has been modified by another client"
                        None 409), s))
      /\ NotesService.deleteNote env id v s
         = (Returned (ServiceResponse.mk false
                        "Version conflict: Note has been modified by another client"
                        None 409), s)
  end.
Proof.
  intros Hstale. destruct t; split.
  - intros dto <-. unfold TodosService.updateTodo, try_catch, bind.
    by rewrite updateWithVersionCheck_refused.
  - unfold TodosService.deleteTodo, try_catch, bind.
    by rewrite softDeleteWithVersionCheck_refused.
  - intros dto <-. unfold NotesService.updateNote, try_catch, bind.
    by rewrite updateWithVersionCheck_refused.
  - unfold NotesService.deleteNote, try_catch, bind.
    by rewrite softDeleteWithVersionCheck_refused.
Qed.

(** X26.  A CRUD delete at the current version of a live todo leaves a
    tombstone: the row stays stored with [deletedAt] set and its version
    one higher; from then on the CRUD lookup answers 404 and every CRUD
    update or delete of it 409, while the lookup of the sync repository
    still returns the row. *)
Theorem crud_delete_leaves_a_tombstone_hidden_from_the_crud_routes env id s old :
  rows Todos s !! id = Some old ->
  Row.deletedAt old = None ->
  INT4_MIN <= Row.version old < INT4_MAX ->
  let tombstone := Row.mk (Row.id old) (Row.title old) (Row.content old) (Row.status old)
                     (Row.version old + 1) (Row.createdAt old) (now env) (Some (now env)) in
  let s' := set_table Todos (<[id := tombstone]> (rows Todos s)) s in
  TodosService.deleteTodo env id (Row.version old) s
  = (Returned (ServiceResponse.mk true "Todo deleted successfully" (Some tombstone) 200), s')
  /\ BaseService.getById Todos id s'
     = (Returned (ServiceResponse.mk false "Todo not found" None 404), s')
  /\ findRecordById Todos (JStr id) s' = (Returned (Some tombstone), s')
  /\ forall env' v,
       TodosService.deleteTodo env' id v s'
       = (Returned (ServiceResponse.mk false
                      "Version conflict: Todo has been modified by another client"
                      None 409), s')
       /\ forall dto,
            TodosService.updateTodo env' id dto s'
            = (Returned (ServiceResponse.mk false
                           "Version conflict: Todo has been modified by another client"
                           None 409), s').
Proof.
  intros Hold Hlive Hrange tombstone s'.
  assert (rows Todos s' !! id = Some tombstone) as Hnew.
  { unfold s'. by rewrite set_table_same, lookup_insert_eq. }
  split_and!.
  - unfold TodosService.deleteTodo, try_catch, bind.
    by rewrite (softDeleteWithVersionCheck_live _ _ _ _ old).
  - unfold BaseService.getById, try_catch, bind, BaseRepository.findById. by rewrite Hnew.
  - unfold findRecordById. cbn [asString]. by rewrite Hnew.
  - intros env' v.
    assert (forall v' row, rows Todos s' !! id = Some row ->
              Row.version row <> v' \/ Row.deletedAt row <> None) as Hstale.
    { intros v' row Hrow. rewrite Hnew in Hrow. injection Hrow as <-. by right. }
    split; [|intros dto].
    + unfold TodosService.deleteTodo, try_catch, bind.
      by rewrite softDeleteWithVersionCheck_refused by apply Hstale.
    + unfold TodosService.updateTodo, try_catch, bind.
      by rewrite updateWithVersionCheck_refused by apply Hstale.
Qed.

(** X27.  A CRUD create whose strings hold no U+0000 stores a new live
    todo at version 1 under the generated id, with the title and content
    of the request, the status of the request or "pending", and both
    timestamps the time of the call; the response has status 201 and
    carries the row.  Should the generated id be taken, the answer is
    status 500 and nothing is written. *)
Theorem crud_create_stores_a_live_record_at_version_1 env dto s :
  storable (CreateTodoDTO.title dto) = true ->
  storableOption (CreateTodoDTO.content dto) = true ->
  storableOption (CreateTodoDTO.status dto) = true ->
  let row := Row.mk (uuid env) (CreateTodoDTO.title dto) (CreateTodoDTO.content dto)
               (Some (statusOrPending (CreateTodoDTO.status dto))) 1 (now env) (now env)
               None in
  TodosService.createTodo env dto s
  = match rows Todos s !! uuid env with
    | None =>
        (Returned (ServiceResponse.mk true "Todo created successfully" (Some row) 201),
         set_table Todos (<[uuid env := row]> (rows Todos s)) s)
    | Some _ => (Returned (ServiceResponse.mk false "Failed to create todo" None 500), s)
    end.
Proof.
  intros Ht Hc Hs row.
  assert (storable (statusOrPending (CreateTodoDTO.status dto)) = true) as Hst.
  { unfold statusOrPending. destruct (CreateTodoDTO.status dto) as [st|]; [|done].
    by destruct (String.eqb st ""). }
  unfold TodosService.createTodo, BaseRepository.create, try_catch, bind, prismaCreate.
  destruct dto as [ttl [c|] st]; cbn -[storable statusOrPending] in *;
    unfold storablePatch; cbn -[storable statusOrPending];
    rewrite ?Ht, ?Hc, ?Hst; cbn -[storable statusOrPending];
    by destruct (todos s !! uuid env).
Qed.

(** X28.  The CRUD routes that write an existing record insist on a
    version: an update or delete request whose body has no [version], or
    one that is not a positive integer, is answered with status 400 by
    the todo and the note controller alike, and nothing is written. *)
Theorem crud_write_without_a_positive_version_is_refused env id o s :
  (forall n, get "version" o = Some (JNum n) -> n <= 0) ->
  TodosController.updateTodo env id (JObj o) s
  = (Returned (ServiceResponse.mk false "Invalid update data" None 400), s)
  /\ TodosController.deleteTodo env id (JObj o) s
     = (Returned (ServiceResponse.mk false "Invalid delete data" None 400), s)
  /\ NotesController.updateNote env id (JObj o) s
     = (Returned (ServiceResponse.mk false "Invalid update data" None 400), s)
  /\ NotesController.deleteNote env id (JObj o) s
     = (Returned (ServiceResponse.mk false "Invalid delete data" None 400), s).
Proof.
  intros Hversion.
  assert (forall ver, get "version" o = Some ver -> versionSchema ver = None) as Hrefused.
  { intros [| |n| | | |] Hver; try done. simpl.
    specialize (Hversion n Hver). by destruct (Z.ltb_spec 0 n); [lia|]. }
  assert (UpdateTodoSchema (JObj o) = None) as Htodo.
  { unfold UpdateTodoSchema. destruct (get "version" o) as [ver|]; [|done].
    rewrite (Hrefused ver eq_refl).
    by destruct (optional titleSchema (get "title" o)),
         (optional asString (get "content" o)),
         (optional todoStatusSchema (get "status" o)). }
  assert (UpdateNoteSchema (JObj o) = None) as Hnote.
  { unfold UpdateNoteSchema. destruct (get "version" o) as [ver|]; [|done].
    rewrite (Hrefused ver eq_refl).
    by destruct (optional titleSchema (get "title" o)),
         (optional asString (get "content" o)). }
  assert (DeleteSchema (JObj o) = None) as Hdelete.
  { unfold DeleteSchema. destruct (get "version" o) as [ver|]; [|done].
    by apply Hrefused. }
  unfold TodosController.updateTodo, TodosController.deleteTodo, NotesController.updateNote,
    NotesController.deleteNote, controller, try_catch, bind.
  by rewrite Htodo, Hnote, Hdelete.
Qed.


(** ** The CRUD routes and the sync processor on the same record *)

(** X29.  The two write paths share the version check: after a CRUD
    update of a live todo at its current version (below the INTEGER
    maximum), a sync UPDATE (not processed before and without a conflict
    yet) that names the todo by a non-empty [id] and still carries the
    version it had before, no string of either request holding U+0000,
    is not applied but recorded as a conflict, whose
    snapshot is the row the CRUD update wrote and whose [serverVersion]
    is one above the client's. *)
Theorem crud_update_makes_a_sync_update_at_the_old_version_a_conflict
    env env' id dto oid data s old :
  storableOption (UpdateTodoDTO.title dto) = true ->
  storableOption (UpdateTodoDTO.content dto) = true ->
  storableOption (UpdateTodoDTO.status dto) = true ->
  rows Todos s !! id = Some old ->
  Row.deletedAt old = None ->
  UpdateTodoDTO.version dto = Row.version old ->
  INT4_MIN <= Row.version old < INT4_MAX ->
  processedOperations s !! oid = None ->
  (forall c, c ∈ conflicts s -> Conflict.operationId c <> oid) ->
  storableObject data = true ->
  get "id" data = Some (JStr id) ->
  id <> "" ->
  get "version" data = Some (JNum (Row.version old)) ->
  exists response s1 row',
    TodosService.updateTodo env id dto s = (Returned response, s1)
    /\ ServiceResponse.responseObject response = Some row'
    /\ rows Todos s1 !! id = Some row'
    /\ Row.version row' = Row.version old + 1
    /\ processSingleOperation env' (SyncOperation.mk oid UPDATE Todos data) s1
       = (Returned (OperationResult.mk oid CONFLICT (Some (Text "Version conflict detected"))
                      None (Some (uuid env'))),
          set_conflicts
            (conflicts s1
             ++ [Conflict.mk (uuid env') oid Todos id (Some (rowObject row')) data
                   (Row.version old + 1) (Row.version old) PENDING None None (now env')])%list
            s1).
Proof.
  intros Ht Hc Hs Hold Hlive Hv Hrange Hfresh Hnew Hdata Hid Hne Hver.
  pose proof (updateTodo_written env id dto s old Ht Hc Hs Hold Hlive Hv Hrange) as Hrun.
  cbv zeta in Hrun. set (row' := Row.mk _ _ _ _ _ _ _ _) in Hrun.
  assert (Row.version row' = Row.version old + 1) as Hv' by done.
  clearbody row'. rewrite Hrun.
  exists (ServiceResponse.mk true "Todo updated successfully" (Some row') 200),
    (set_table Todos (<[id := row']> (rows Todos s)) s), row'.
  assert (rows Todos (set_table Todos (<[id := row']> (rows Todos s)) s) !! id = Some row')
    as Hrow by by rewrite set_table_same, lookup_insert_eq.
  split_and!; try done.
  pose proof (version_mismatch_conflict env' (SyncOperation.mk oid UPDATE Todos data)
                (set_table Todos (<[id := row']> (rows Todos s)) s) id (Row.version old) row'
                (or_introl eq_refl)) as Hconflict.
  cbv zeta in Hconflict. rewrite Hv' in Hconflict. apply Hconflict; try done; lia.
Qed.

End MoreProperties.

(** * The further properties on the sample data *)

Lemma summary_accounts_for_every_operation_on_sample :
  @SyncRequestSchema sampleRuntime (JObj [("operations", JArr repeatedIdItems)])
  = Some repeatedIdOperations
  /\ exists results summary s',
       @sync sampleRuntime sampleOracle (JObj [("operations", JArr repeatedIdItems)]) emptyStore
       = (Returned (SyncCompleted results summary), s')
       /\ Summary.total summary = length repeatedIdOperations
       /\ (Summary.applied summary + Summary.conflicts summary + Summary.errors summary
           = Summary.total summary)%nat.
Proof.
  assert (@SyncRequestSchema sampleRuntime (JObj [("operations", JArr repeatedIdItems)])
          = Some repeatedIdOperations) as H by (vm_compute; reflexivity).
  split; [exact H|].
  exact (summary_accounts_for_every_operation (R:=sampleRuntime) sampleOracle
           (JObj [("operations", JArr repeatedIdItems)]) repeatedIdOperations emptyStore H).
Defined.

Lemma error_result_leaves_the_store_unchanged_on_updateTombstone :
  @processSingleOperation sampleRuntime laterEnv updateTombstone storeTombstone
  = (Returned (OperationResult.mk op2 ERROR
                 (Some (Text "Failed to update record (race condition)")) None None),
     storeTombstone)
  /\ storeTombstone = storeTombstone.
Proof.
  assert (@processSingleOperation sampleRuntime laterEnv updateTombstone storeTombstone
          = (Returned (OperationResult.mk op2 ERROR
                         (Some (Text "Failed to update record (race condition)")) None None),
             storeTombstone)) as H by (vm_compute; reflexivity).
  split; [exact H|].
  exact (error_result_leaves_the_store_unchanged (R:=sampleRuntime) laterEnv updateTombstone
           storeTombstone _ storeTombstone H eq_refl).
Defined.

Lemma applied_operation_is_recorded_on_createT1 :
  @processSingleOperation sampleRuntime sampleEnv createT1 emptyStore
  = (Returned (OperationResult.mk op1 APPLIED (Some (Text "Record created successfully"))
                 (Some rowT1) None), storeT1)
  /\ processedOperations storeT1 !! SyncOperation.operationId createT1
     = Some (ProcessedOperation.mk (SyncOperation.action createT1)
               (SyncOperation.table createT1) (now sampleEnv))
  /\ forall env',
       @processSingleOperation sampleRuntime env' createT1 storeT1
       = (Returned (OperationResult.mk (SyncOperation.operationId createT1) ERROR
                      (Some (Text "Operation already processed")) None None), storeT1).
Proof.
  assert (@processSingleOperation sampleRuntime sampleEnv createT1 emptyStore
          = (Returned (OperationResult.mk op1 APPLIED
                         (Some (Text "Record created successfully")) (Some rowT1) None),
             storeT1)) as H by (vm_compute; reflexivity).
  split; [exact H|].
  exact (applied_operation_is_recorded_and_not_applied_again (R:=sampleRuntime) sampleEnv
           createT1 emptyStore _ storeT1 H eq_refl).
Defined.

Lemma version_mismatch_is_a_conflict_on_staleUpdateT1 :
  rows (SyncOperation.table staleUpdateT1) storeT1v2 !! "t1" = Some rowT1v2
  /\ storableObject (SyncOperation.data staleUpdateT1) = true
  /\ get "version" (SyncOperation.data staleUpdateT1) = Some (JNum 1)
  /\ 1 <> Row.version rowT1v2
  /\ @processSingleOperation sampleRuntime laterEnv staleUpdateT1 storeT1v2
     = (Returned (OperationResult.mk (SyncOperation.operationId staleUpdateT1) CONFLICT
                    (Some (Text "Version conflict detected")) None (Some (uuid laterEnv))),
        set_conflicts
          (conflicts storeT1v2
           ++ [Conflict.mk (uuid laterEnv) (SyncOperation.operationId staleUpdateT1)
                 (SyncOperation.table staleUpdateT1) "t1" (Some (rowObject rowT1v2))
                 (SyncOperation.data staleUpdateT1) (Row.version rowT1v2) 1
                 PENDING None None (now laterEnv)])%list storeT1v2).
Proof.
  assert (rows (SyncOperation.table staleUpdateT1) storeT1v2 !! "t1" = Some rowT1v2) as Hrow
    by (vm_compute; reflexivity).
  assert (1 <> Row.version rowT1v2) as Hne by discriminate.
  assert (forall c, c ∈ conflicts storeT1v2 ->
                    Conflict.operationId c <> SyncOperation.operationId staleUpdateT1) as Hnew.
  { intros c Hc. simpl in Hc. by apply elem_of_nil in Hc. }
  assert ("t1" <> "") as Hid by discriminate.
  assert (INT4_MIN <= 1 <= INT4_MAX) as Hrange by (split; discriminate).
  split; [exact Hrow|]. split; [reflexivity|]. split; [reflexivity|]. split; [exact Hne|].
  exact (version_mismatch_is_a_conflict_with_the_server_snapshot (R:=sampleRuntime) laterEnv
           staleUpdateT1 storeT1v2 "t1" 1 rowT1v2 (or_introl eq_refl) eq_refl Hnew eq_refl
           eq_refl Hid eq_refl Hrange Hrow Hne).
Defined.


Lemma applied_update_matched_the_current_version_on_updateT1 :
  @processSingleOperation sampleRuntime laterEnv updateT1 storeT1
  = (Returned (OperationResult.mk op2 APPLIED (Some (Text "Record updated successfully"))
                 (Some rowT1v2) None), storeUpdatedT1)
  /\ exists id old row,
       get "id" (SyncOperation.data updateT1) = Some (JStr id)
       /\ rows (SyncOperation.table updateT1) storeT1 !! id = Some old
       /\ Row.deletedAt old = None
       /\ get "version" (SyncOperation.data updateT1) = Some (JNum (Row.version old))
       /\ Some rowT1v2 = Some row
       /\ Row.version row = Row.version old + 1
       /\ rows (SyncOperation.table updateT1) storeUpdatedT1
          = <[id := row]> (rows (SyncOperation.table updateT1) storeT1).
Proof.
  assert (@processSingleOperation sampleRuntime laterEnv updateT1 storeT1
          = (Returned (OperationResult.mk op2 APPLIED
                         (Some (Text "Record updated successfully")) (Some rowT1v2) None),
             storeUpdatedT1)) as H by (vm_compute; reflexivity).
  split; [exact H|].
  exact (applied_update_matched_the_current_version (R:=sampleRuntime) laterEnv updateT1
           storeT1 _ storeUpdatedT1 H eq_refl eq_refl).
Defined.

Lemma create_of_an_existing_id_is_an_error_on_storeT1 :
  get "id" (SyncOperation.data createT1) = Some (JStr "t1")
  /\ is_Some (rows Todos storeT1 !! "t1")
  /\ exists message,
       @processSingleOperation sampleRuntime laterEnv
         (SyncOperation.mk op3 CREATE Todos (SyncOperation.data createT1)) storeT1
       = (Returned (OperationResult.mk op3 ERROR (Some message) None None), storeT1).
Proof.
  assert (is_Some (rows Todos storeT1 !! "t1")) as Hrow.
  { exists rowT1. vm_compute. reflexivity. }
  split; [reflexivity|]. split; [exact Hrow|].
  exact (create_of_an_existing_id_is_an_error (R:=sampleRuntime) laterEnv
           (SyncOperation.mk op3 CREATE Todos (SyncOperation.data createT1)) storeT1 "t1"
           eq_refl eq_refl Hrow).
Defined.

Lemma operation_writes_at_most_one_record_on_updateT1 :
  @processSingleOperation sampleRuntime laterEnv updateT1 storeT1
  = (Returned (OperationResult.mk op2 APPLIED (Some (Text "Record updated successfully"))
                 (Some rowT1v2) None), storeUpdatedT1)
  /\ exists key, forall t k,
       (t, k) <> (SyncOperation.table updateT1, key) ->
       rows t storeUpdatedT1 !! k = rows t storeT1 !! k.
Proof.
  assert (@processSingleOperation sampleRuntime laterEnv updateT1 storeT1
          = (Returned (OperationResult.mk op2 APPLIED
                         (Some (Text "Record updated successfully")) (Some rowT1v2) None),
             storeUpdatedT1)) as H by (vm_compute; reflexivity).
  split; [exact H|].
  exact (operation_writes_at_most_one_record (R:=sampleRuntime) laterEnv updateT1 storeT1 _
           storeUpdatedT1 H).
Defined.

Lemma failed_resolution_leaves_the_store_unchanged_on_conflictT9 :
  @resolveConflict sampleRuntime sampleEnv (uuid laterEnv) (ResolveConflictDTO.mk None SERVER)
    storeConflictT9
  = (Returned (ServiceResponse.mk false "Failed to resolve conflict" None 500),
     storeConflictT9)
  /\ storeConflictT9 = storeConflictT9.
Proof.
  assert (@resolveConflict sampleRuntime sampleEnv (uuid laterEnv)
            (ResolveConflictDTO.mk None SERVER) storeConflictT9
          = (Returned (ServiceResponse.mk false "Failed to resolve conflict" None 500),
             storeConflictT9)) as H by (vm_compute; reflexivity).
  split; [exact H|].
  exact (failed_resolution_leaves_the_store_unchanged (R:=sampleRuntime) sampleEnv
           (uuid laterEnv) (ResolveConflictDTO.mk None SERVER) storeConflictT9 _
           storeConflictT9 H eq_refl).
Defined.

Lemma successful_resolution_marks_the_conflict_resolved_on_conflictT1 :
  @resolveConflict sampleRuntime resolveEnv (uuid laterEnv) (ResolveConflictDTO.mk None CLIENT)
    storeConflictT1
  = (Returned (ServiceResponse.mk true "Conflict resolved successfully" (Some resolvedT1) 200),
     storeResolvedT1)
  /\ exists c chosen,
       List.find (hasId (uuid laterEnv)) (conflicts storeConflictT1) = Some c
       /\ Conflict.status c = PENDING
       /\ selectedData (ResolveConflictDTO.mk None CLIENT) c = Some chosen
       /\ Some resolvedT1 = Some (closedAs RESOLVED (now resolveEnv) (Some chosen) c)
       /\ List.find (hasId (uuid laterEnv)) (conflicts storeResolvedT1)
          = Some (closedAs RESOLVED (now resolveEnv) (Some chosen) c)
       /\ map Conflict.operationId (conflicts storeResolvedT1)
          = map Conflict.operationId (conflicts storeConflictT1)
       /\ processedOperations storeResolvedT1 = processedOperations storeConflictT1.
Proof.
  assert (@resolveConflict sampleRuntime resolveEnv (uuid laterEnv)
            (ResolveConflictDTO.mk None CLIENT) storeConflictT1
          = (Returned (ServiceResponse.mk true "Conflict resolved successfully"
                         (Some resolvedT1) 200), storeResolvedT1)) as H
    by (vm_compute; reflexivity).
  split; [exact H|].
  exact (successful_resolution_marks_the_conflict_resolved (R:=sampleRuntime) resolveEnv
           (uuid laterEnv) (ResolveConflictDTO.mk None CLIENT) storeConflictT1 _
           storeResolvedT1 H eq_refl).
Defined.

Lemma resolved_conflict_is_final_on_conflictT1 :
  @resolveConflict sampleRuntime resolveEnv (uuid laterEnv) (ResolveConflictDTO.mk None CLIENT)
    storeConflictT1
  = (Returned (ServiceResponse.mk true "Conflict resolved successfully" (Some resolvedT1) 200),
     storeResolvedT1)
  /\ forall env',
       (forall dto',
          @resolveConflict sampleRuntime env' (uuid laterEnv) dto' storeResolvedT1
          = (Returned (ServiceResponse.mk false
                         "Conflict has already been resolved or dismissed" None 400),
             storeResolvedT1))
       /\ dismissConflict env' (uuid laterEnv) storeResolvedT1
          = (Returned (ServiceResponse.mk false
                         "Conflict has already been resolved or dismissed" None 400),
             storeResolvedT1).
Proof.
  assert (@resolveConflict sampleRuntime resolveEnv (uuid laterEnv)
            (ResolveConflictDTO.mk None CLIENT) storeConflictT1
          = (Returned (ServiceResponse.mk true "Conflict resolved successfully"
                         (Some resolvedT1) 200), storeResolvedT1)) as H
    by (vm_compute; reflexivity).
  split; [exact H|].
  exact (resolved_conflict_is_final (R:=sampleRuntime) resolveEnv (uuid laterEnv)
           (ResolveConflictDTO.mk None CLIENT) storeConflictT1 _ storeResolvedT1 H eq_refl).
Defined.

Lemma dismissal_closes_the_conflict_on_conflictT1 :
  List.find (hasId (uuid laterEnv)) (conflicts storeConflictT1) = Some conflictT1
  /\ Conflict.status conflictT1 = PENDING
  /\ exists s',
       dismissConflict resolveEnv (uuid laterEnv) storeConflictT1
       = (Returned (ServiceResponse.mk true "Conflict dismissed successfully"
                      (Some (closedAs DISMISSED (now resolveEnv)
                               (Conflict.resolvedData conflictT1) conflictT1)) 200), s')
       /\ List.find (hasId (uuid laterEnv)) (conflicts s')
          = Some (closedAs DISMISSED (now resolveEnv) (Conflict.resolvedData conflictT1)
                    conflictT1)
       /\ map Conflict.operationId (conflicts s')
          = map Conflict.operationId (conflicts storeConflictT1)
       /\ todos s' = todos storeConflictT1
       /\ notes s' = notes storeConflictT1
       /\ processedOperations s' = processedOperations storeConflictT1.
Proof.
  assert (List.find (hasId (uuid laterEnv)) (conflicts storeConflictT1) = Some conflictT1)
    as Hc by (vm_compute; reflexivity).
  split; [exact Hc|]. split; [reflexivity|].
  exact (dismissal_closes_the_conflict_and_touches_no_record resolveEnv (uuid laterEnv)
           storeConflictT1 conflictT1 Hc eq_refl).
Defined.

Lemma dismissed_conflict_is_final_on_conflictT1 :
  dismissConflict resolveEnv (uuid laterEnv) storeConflictT1
  = (Returned (ServiceResponse.mk true "Conflict dismissed successfully" (Some dismissedT1)
                 200), storeDismissedT1)
  /\ forall env',
       (forall dto,
          @resolveConflict sampleRuntime env' (uuid laterEnv) dto storeDismissedT1
          = (Returned (ServiceResponse.mk false
                         "Conflict has already been resolved or dismissed" None 400),
             storeDismissedT1))
       /\ dismissConflict env' (uuid laterEnv) storeDismissedT1
          = (Returned (ServiceResponse.mk false
                         "Conflict has already been resolved or dismissed" None 400),
             storeDismissedT1).
Proof.
  assert (dismissConflict resolveEnv (uuid laterEnv) storeConflictT1
          = (Returned (ServiceResponse.mk true "Conflict dismissed successfully"
                         (Some dismissedT1) 200), storeDismissedT1)) as H
    by (vm_compute; reflexivity).
  split; [exact H|].
  exact (dismissed_conflict_is_final (R:=sampleRuntime) resolveEnv (uuid laterEnv)
           storeConflictT1 _ storeDismissedT1 H eq_refl).
Defined.

Lemma unknown_conflict_is_not_found_on_storeConflictT1 :
  storable "no-such-conflict" = true
  /\ (forall c, c ∈ conflicts storeConflictT1 -> Conflict.id c <> "no-such-conflict")
  /\ getConflictById "no-such-conflict" storeConflictT1
     = (Returned (ServiceResponse.mk false "Conflict not found" None 404), storeConflictT1)
  /\ @resolveConflict sampleRuntime resolveEnv "no-such-conflict"
       (ResolveConflictDTO.mk None CLIENT) storeConflictT1
     = (Returned (ServiceResponse.mk false "Conflict not found" None 404), storeConflictT1)
  /\ dismissConflict resolveEnv "no-such-conflict" storeConflictT1
     = (Returned (ServiceResponse.mk false "Conflict not found" None 404), storeConflictT1).
Proof.
  assert (forall c, c ∈ conflicts storeConflictT1 -> Conflict.id c <> "no-such-conflict")
    as Hnone.
  { intros c Hc. simpl in Hc. apply list_elem_of_singleton in Hc. subst c. discriminate. }
  split; [reflexivity|]. split; [exact Hnone|].
  exact (unknown_conflict_is_not_found (R:=sampleRuntime) resolveEnv "no-such-conflict"
           (ResolveConflictDTO.mk None CLIENT) storeConflictT1 eq_refl Hnone).
Defined.

Lemma calls_keep_the_store_well_formed_on_sampleCalls :
  wellFormed emptyStore
  /\ wellFormed (@performAll sampleRuntime sampleCalls emptyStore).
Proof.
  split; [exact wellFormed_emptyStore|].
  exact (calls_keep_the_store_well_formed (R:=sampleRuntime) sampleCalls emptyStore
           wellFormed_emptyStore).
Defined.

Lemma stored_record_changes_only_with_a_higher_version_on_sampleCalls :
  rows Todos storeT1 !! "t1" = Some rowT1
  /\ exists new,
       rows Todos (@performAll sampleRuntime (tail sampleCalls) storeT1) !! "t1" = Some new
       /\ Row.id new = Row.id rowT1
       /\ (is_Some (Row.status new) <-> is_Some (Row.status rowT1))
       /\ (new = rowT1 \/ Row.version rowT1 < Row.version new).
Proof.
  assert (rows Todos storeT1 !! "t1" = Some rowT1) as Hrow by (vm_compute; reflexivity).
  split; [exact Hrow|].
  exact (stored_record_changes_only_with_a_higher_version (R:=sampleRuntime)
           (tail sampleCalls) storeT1 Todos "t1" rowT1 Hrow).
Defined.

Lemma applied_operation_is_rejected_ever_after_on_sampleCalls :
  @processSingleOperation sampleRuntime sampleEnv createT1 emptyStore
  = (Returned (OperationResult.mk op1 APPLIED (Some (Text "Record created successfully"))
                 (Some rowT1) None), storeT1)
  /\ @processSingleOperation sampleRuntime resolveEnv
       (SyncOperation.mk op1 DELETE Todos [("id", JStr "t1"); ("version", JNum 1)])
       (@performAll sampleRuntime (tail sampleCalls) storeT1)
     = (Returned (OperationResult.mk (SyncOperation.operationId createT1) ERROR
                    (Some (Text "Operation already processed")) None None),
        @performAll sampleRuntime (tail sampleCalls) storeT1).
Proof.
  assert (@processSingleOperation sampleRuntime sampleEnv createT1 emptyStore
          = (Returned (OperationResult.mk op1 APPLIED
                         (Some (Text "Record created successfully")) (Some rowT1) None),
             storeT1)) as H by (vm_compute; reflexivity).
  split; [exact H|].
  exact (applied_operation_is_rejected_ever_after (R:=sampleRuntime) sampleEnv createT1
           emptyStore _ storeT1 (tail sampleCalls) resolveEnv
           (SyncOperation.mk op1 DELETE Todos [("id", JStr "t1"); ("version", JNum 1)])
           H eq_refl eq_refl).
Defined.

Lemma conflict_is_kept_and_closed_at_most_once_on_conflictT1 :
  conflicts storeConflictT1 !! 0%nat = Some conflictT1
  /\ exists c',
       conflicts (@performAll sampleRuntime
                    [DismissConflictCall resolveEnv (uuid laterEnv);
                     ResolveConflictCall resolveEnv (uuid laterEnv)
                       (ResolveConflictDTO.mk None CLIENT)] storeConflictT1) !! 0%nat
       = Some c'
       /\ (c' = conflictT1
           \/ (Conflict.status conflictT1 = PENDING
               /\ exists st at_ data, st <> PENDING /\ c' = closedAs st at_ data conflictT1)).
Proof.
  split; [reflexivity|].
  exact (conflict_is_kept_and_closed_at_most_once (R:=sampleRuntime)
           [DismissConflictCall resolveEnv (uuid laterEnv);
            ResolveConflictCall resolveEnv (uuid laterEnv) (ResolveConflictDTO.mk None CLIENT)]
           storeConflictT1 0%nat conflictT1 eq_refl).
Defined.

Lemma resolution_request_without_a_valid_resolution_is_refused_on_sample :
  (forall o r, JObj [("resolution", JStr "MERGE")] = JObj o ->
               get "resolution" o = Some (JStr r) ->
               r <> "CLIENT" /\ r <> "SERVER" /\ r <> "CUSTOM")
  /\ @ConflictsController.resolveConflict sampleRuntime resolveEnv (uuid laterEnv)
       (JObj [("resolution", JStr "MERGE")]) storeConflictT1
     = (Returned (ServiceResponse.mk false "Invalid resolution data" None 400),
        storeConflictT1).
Proof.
  assert (forall o r, JObj [("resolution", JStr "MERGE")] = JObj o ->
                      get "resolution" o = Some (JStr r) ->
                      r <> "CLIENT" /\ r <> "SERVER" /\ r <> "CUSTOM") as Hinvalid.
  { intros o r Ho Hr. injection Ho as <-. simpl in Hr. injection Hr as <-.
    repeat split; discriminate. }
  split; [exact Hinvalid|].
  exact (resolution_request_without_a_valid_resolution_is_refused (R:=sampleRuntime)
           resolveEnv (uuid laterEnv) (JObj [("resolution", JStr "MERGE")]) storeConflictT1
           Hinvalid).
Defined.

Lemma crud_update_at_the_current_version_on_renameT1 :
  storableOption (UpdateTodoDTO.title renameT1) = true
  /\ rows Todos storeT1 !! "t1" = Some rowT1
  /\ Row.deletedAt rowT1 = None
  /\ UpdateTodoDTO.version renameT1 = Row.version rowT1
  /\ @TodosService.updateTodo sampleRuntime laterEnv "t1" renameT1 storeT1
     = (Returned (ServiceResponse.mk true "Todo updated successfully" (Some rowT1v2) 200),
        set_table Todos (<["t1" := rowT1v2]> (rows Todos storeT1)) storeT1).
Proof.
  assert (rows Todos storeT1 !! "t1" = Some rowT1) as Hrow by (vm_compute; reflexivity).
  assert (INT4_MIN <= Row.version rowT1 < INT4_MAX) as Hrange
    by (split; [discriminate|reflexivity]).
  split; [reflexivity|]. split; [exact Hrow|]. split; [reflexivity|]. split; [reflexivity|].
  exact (crud_update_at_the_current_version_writes_the_given_fields (R:=sampleRuntime)
           laterEnv "t1" renameT1 storeT1 rowT1 eq_refl eq_refl eq_refl Hrow eq_refl eq_refl
           Hrange).
Defined.

Lemma crud_write_with_a_stale_version_is_refused_on_storeT1v2 :
  (forall old, rows Todos storeT1v2 !! "t1" = Some old ->
               Row.version old <> 1 \/ Row.deletedAt old <> None)
  /\ (forall dto, UpdateTodoDTO.version dto = 1 ->
        @TodosService.updateTodo sampleRuntime resolveEnv "t1" dto storeT1v2
        = (Returned (ServiceResponse.mk false
                       "Version conflict: Todo has been modified by another client"
                       None 409), storeT1v2))
  /\ TodosService.deleteTodo resolveEnv "t1" 1 storeT1v2
     = (Returned (ServiceResponse.mk false
                    "Version conflict: Todo has been modified by another client"
                    None 409), storeT1v2).
Proof.
  assert (forall old, rows Todos storeT1v2 !! "t1" = Some old ->
                      Row.version old <> 1 \/ Row.deletedAt old <> None) as Hstale.
  { intros old Hold. assert (rows Todos storeT1v2 !! "t1" = Some rowT1v2) as Hrow
      by (vm_compute; reflexivity).
    rewrite Hrow in Hold. injection Hold as <-. left. discriminate. }
  split; [exact Hstale|].
  exact (crud_write_with_a_stale_version_is_refused (R:=sampleRuntime) resolveEnv Todos "t1" 1
           storeT1v2 Hstale).
Defined.

Lemma crud_delete_leaves_a_tombstone_on_storeT1 :
  rows Todos storeT1 !! "t1" = Some rowT1
  /\ Row.deletedAt rowT1 = None
  /\ (let s' := set_table Todos (<["t1" := tombstoneT1v2]> (rows Todos storeT1)) storeT1 in
      TodosService.deleteTodo laterEnv "t1" (Row.version rowT1) storeT1
      = (Returned (ServiceResponse.mk true "Todo deleted successfully" (Some tombstoneT1v2)
                     200), s')
      /\ BaseService.getById Todos "t1" s'
         = (Returned (ServiceResponse.mk false "Todo not found" None 404), s')
      /\ findRecordById Todos (JStr "t1") s' = (Returned (Some tombstoneT1v2), s')
      /\ forall env' v,
           TodosService.deleteTodo env' "t1" v s'
           = (Returned (ServiceResponse.mk false
                          "Version conflict: Todo has been modified by another client"
                          None 409), s')
           /\ forall dto,
                @TodosService.updateTodo sampleRuntime env' "t1" dto s'
                = (Returned (ServiceResponse.mk false
                               "Version conflict: Todo has been modified by another client"
                               None 409), s')).
Proof.
  assert (rows Todos storeT1 !! "t1" = Some rowT1) as Hrow by (vm_compute; reflexivity).
  assert (INT4_MIN <= Row.version rowT1 < INT4_MAX) as Hrange
    by (split; [discriminate|reflexivity]).
  split; [exact Hrow|]. split; [reflexivity|].
  exact (crud_delete_leaves_a_tombstone_hidden_from_the_crud_routes (R:=sampleRuntime)
           laterEnv "t1" storeT1 rowT1 Hrow eq_refl Hrange).
Defined.

Lemma crud_write_without_a_positive_version_is_refused_on_sample :
  (forall n, get "version" [("title", JStr "buy bread"); ("version", JNum 0)]
             = Some (JNum n) -> n <= 0)
  /\ @TodosController.updateTodo sampleRuntime laterEnv "t1"
       (JObj [("title", JStr "buy bread"); ("version", JNum 0)]) storeT1
     = (Returned (ServiceResponse.mk false "Invalid update data" None 400), storeT1)
  /\ TodosController.deleteTodo laterEnv "t1"
       (JObj [("title", JStr "buy bread"); ("version", JNum 0)]) storeT1
     = (Returned (ServiceResponse.mk false "Invalid delete data" None 400), storeT1)
  /\ @NotesController.updateNote sampleRuntime laterEnv "t1"
       (JObj [("title", JStr "buy bread"); ("version", JNum 0)]) storeT1
     = (Returned (ServiceResponse.mk false "Invalid update data" None 400), storeT1)
  /\ NotesController.deleteNote laterEnv "t1"
       (JObj [("title", JStr "buy bread"); ("version", JNum 0)]) storeT1
     = (Returned (ServiceResponse.mk false "Invalid delete data" None 400), storeT1).
Proof.
  assert (forall n, get "version" [("title", JStr "buy bread"); ("version", JNum 0)]
                    = Some (JNum n) -> n <= 0) as Hversion.
  { intros n Hn. simpl in Hn. injection Hn as <-. discriminate. }
  split; [exact Hversion|].
  exact (crud_write_without_a_positive_version_is_refused (R:=sampleRuntime) laterEnv "t1"
           [("title", JStr "buy bread"); ("version", JNum 0)] storeT1 Hversion).
Defined.

Lemma crud_update_makes_a_sync_update_a_conflict_on_staleUpdateT1 :
  storableObject (SyncOperation.data staleUpdateT1) = true
  /\ rows Todos storeT1 !! "t1" = Some rowT1
  /\ UpdateTodoDTO.version renameT1 = Row.version rowT1
  /\ get "version" (SyncOperation.data staleUpdateT1) = Some (JNum (Row.version rowT1))
  /\ exists response s1 row',
       @TodosService.updateTodo sampleRuntime laterEnv "t1" renameT1 storeT1
       = (Returned response, s1)
       /\ ServiceResponse.responseObject response = Some row'
       /\ rows Todos s1 !! "t1" = Some row'
       /\ Row.version row' = Row.version rowT1 + 1
       /\ @processSingleOperation sampleRuntime resolveEnv
            (SyncOperation.mk op3 UPDATE Todos (SyncOperation.data staleUpdateT1)) s1
          = (Returned (OperationResult.mk op3 CONFLICT
                         (Some (Text "Version conflict detected")) None
                         (Some (uuid resolveEnv))),
             set_conflicts
               (conflicts s1
                ++ [Conflict.mk (uuid resolveEnv) op3 Todos "t1" (Some (rowObject row'))
                      (SyncOperation.data staleUpdateT1) (Row.version rowT1 + 1)
                      (Row.version rowT1) PENDING None None (now resolveEnv)])%list s1).
Proof.
  assert (rows Todos storeT1 !! "t1" = Some rowT1) as Hrow by (vm_compute; reflexivity).
  assert (INT4_MIN <= Row.version rowT1 < INT4_MAX) as Hrange
    by (split; [discriminate|reflexivity]).
  assert (processedOperations storeT1 !! op3 = None) as Hfresh by (vm_compute; reflexivity).
  assert (forall c, c ∈ conflicts storeT1 -> Conflict.operationId c <> op3) as Hnew.
  { intros c Hc. simpl in Hc. by apply elem_of_nil in Hc. }
  assert ("t1" <> "") as Hid by discriminate.
  split; [reflexivity|]. split; [exact Hrow|]. split; [reflexivity|]. split; [reflexivity|].
  exact (crud_update_makes_a_sync_update_at_the_old_version_a_conflict (R:=sampleRuntime)
           laterEnv resolveEnv "t1" renameT1 op3 (SyncOperation.data staleUpdateT1) storeT1
           rowT1 eq_refl eq_refl eq_refl Hrow eq_refl eq_refl Hrange Hfresh Hnew eq_refl
           eq_refl Hid eq_refl).
Defined.

Lemma listings_show_the_live_records_on_storeConflictT1 :
  (exists listed,
     BaseService.getAll Todos storeConflictT1
     = (Returned (ServiceResponse.mk true "Todos fetched successfully" (Some listed) 200),
        storeConflictT1)
     /\ (forall r, r ∈ listed <-> (exists key, rows Todos storeConflictT1 !! key = Some r)
                                   /\ Row.deletedAt r = None)
     /\ StronglySorted (fun a b => String.le (Row.createdAt b) (Row.createdAt a)) listed)
  /\ exists listed,
       getAllConflicts (Some "PENDING") (Some "todos") storeConflictT1
       = (Returned (ServiceResponse.mk true "Conflicts fetched successfully" (Some listed) 200),
          storeConflictT1)
       /\ listed ≡ₚ List.filter
                      (ConflictsRepository.matching (Some "PENDING") (Some "todos"))
                      (conflicts storeConflictT1)
       /\ StronglySorted
            (fun a b => String.le (Conflict.createdAt b) (Conflict.createdAt a)) listed.
Proof.
  destruct (listings_show_the_live_records_newest_first Todos
              (Some "PENDING") (Some "todos") storeConflictT1) as [Hrecords Hconflicts].
  split; [exact Hrecords|]. exact (Hconflicts eq_refl eq_refl).
Defined.

Lemma crud_create_stores_a_live_record_on_emptyStore :
  storable (CreateTodoDTO.title (CreateTodoDTO.mk "buy milk" None None)) = true
  /\ @TodosService.createTodo sampleRuntime sampleEnv (CreateTodoDTO.mk "buy milk" None None)
       emptyStore
     = match rows Todos emptyStore !! uuid sampleEnv with
       | None =>
           (Returned (ServiceResponse.mk true "Todo created successfully"
                        (Some (Row.mk (uuid sampleEnv) "buy milk" None (Some "pending") 1
                                 (now sampleEnv) (now sampleEnv) None)) 201),
            set_table Todos
              (<[uuid sampleEnv := Row.mk (uuid sampleEnv) "buy milk" None (Some "pending") 1
                                     (now sampleEnv) (now sampleEnv) None]>
                 (rows Todos emptyStore)) emptyStore)
       | Some _ => (Returned (ServiceResponse.mk false "Failed to create todo" None 500),
                    emptyStore)
       end.
Proof.
  split; [reflexivity|].
  exact (crud_create_stores_a_live_record_at_version_1 (R:=sampleRuntime) sampleEnv
           (CreateTodoDTO.mk "buy milk" None None) emptyStore eq_refl eq_refl eq_refl).
Defined.
